(** * transaction-api: a shallow embedding of the service, the store it
      drives and the HTTP handlers, with the properties of the specification.

    Conventions of the embedding.
    - Go's [uint] is [N]; Go's [int]/[int64] is [Z] and the one arithmetic
      expression of the code on it (the page offset) is wrapped to 64 bits.
    - Go's [float64] and SQL's DOUBLE: an amount is the rational value of
      the float64 that holds it.  The sums and the average the engine
      computes over amounts are float64 arithmetic (module [binary64]): every
      operation is rounded to nearest, ties to even, and overflows to an
      infinity; the two zeros are not told apart.  The page count of a list,
      [math.Ceil(float64(total) / float64(limit))], is taken on the exact
      quotient: rounding does not move its ceiling for totals below 2^53.
    - [time.Time] is an absolute instant, counted in nanoseconds from Go's
      zero time (January 1, year 1, 00:00 UTC); the zero value is [0].
    - The relational engine is a table (a list of rows in insertion order),
      an auto-increment counter and a connection that is either healthy or
      failing; gorm's calls are functions on that state.
    - [time.Now()] and the outcome of gin's body/query binding are explicit
      inputs of the functions that use them. *)

From Stdlib Require Import ZArith NArith QArith Qround Qabs Qpower.
From Stdlib Require Import String Ascii List Bool Lia Lqa.
From Stdlib Require Import Sorted Permutation.
Import ListNotations.

Local Open Scope string_scope.
Local Open Scope list_scope.
Local Open Scope Z_scope.

(** ** Results of fallible calls *)

Inductive result (E A : Type) : Type :=
| Ok (a : A)
| Err (e : E).
Arguments Ok {E A} a.
Arguments Err {E A} e.

Definition bind {E A B} (r : result E A) (k : A -> result E B) : result E B :=
  match r with
  | Ok a => k a
  | Err e => Err e
  end.

(** [map_err f r] is the Go idiom
    [if err != nil { return nil, f(err) }]. *)
Definition map_err {E F A} (f : E -> F) (r : result E A) : result F A :=
  match r with
  | Ok a => Ok a
  | Err e => Err (f e)
  end.

Notation "x <- c1 ;; c2" := (bind c1 (fun x => c2))
  (at level 61, c1 at next level, right associativity).

(** ** package time *)

Module time.

Definition Time := Z.
Definition Duration := Z.

Definition Nanosecond : Duration := 1.
Definition Second : Duration := 1000000000 * Nanosecond.
Definition Hour : Duration := 3600 * Second.

Definition IsZero (t : Time) : bool := t =? 0.

(** [t.Truncate(d)]: [t] rounded down to a multiple of [d] since the zero
    time; [t] itself when [d <= 0]. *)
Definition Truncate (t : Time) (d : Duration) : Time :=
  if d <=? 0 then t else t - t mod d.

Definition Add (t : Time) (d : Duration) : Time := t + d.

End time.

(** ** package strconv *)

Module strconv.

Inductive NumError := ErrSyntax | ErrRange | ErrBitSize.

Definition maxUint64 : N := 18446744073709551615.
Definition uint64 (n : N) : N := (n mod 18446744073709551616)%N.

(** [lower(c)] is [c | ('x' - 'X')]. *)
Definition lower (c : N) : N := N.lor c 32.

(** The digit value of one byte, [None] for a byte that is no digit in
    any base up to 36. *)
Definition digit (c : N) : option N :=
  if ((48 <=? c) && (c <=? 57))%N then Some (c - 48)%N
  else if ((97 <=? lower c) && (lower c <=? 122))%N then Some (lower c - 97 + 10)%N
  else None.

(** The body of the loop [for _, c := range []byte(s)] of [ParseUint],
    with [n] the accumulator. *)
Fixpoint parse_digits (base cutoff maxVal : N) (s : string) (n : N)
  : result NumError N :=
  match s with
  | EmptyString => Ok n
  | String c s' =>
      match digit (N_of_ascii c) with
      | None => Err ErrSyntax
      | Some d =>
          if (base <=? d)%N then Err ErrSyntax
          else if (cutoff <=? n)%N then Err ErrRange
          else
            let n := uint64 (n * base) in
            let n1 := uint64 (n + d) in
            if ((n1 <? n) || (maxVal <? n1))%N then Err ErrRange
            else parse_digits base cutoff maxVal s' n1
      end
  end.

(** [strconv.ParseUint(s, 10, bitSize)].  The handlers always pass base
    10, so the prefix and underscore handling of base 0 is not part of
    this embedding. *)
Definition ParseUint (s : string) (bitSize : N) : result NumError N :=
  match s with
  | EmptyString => Err ErrSyntax
  | _ =>
      let base := 10%N in
      let bitSize := if (bitSize =? 0)%N then 64%N else bitSize in
      if (64 <? bitSize)%N then Err ErrBitSize
      else
        let cutoff := (maxUint64 / base + 1)%N in
        let maxVal := (2 ^ bitSize - 1)%N in
        parse_digits base cutoff maxVal s 0%N
  end.

(** Go's [int64(x)] and [int(x)] on a 64-bit target. *)
Definition int64 (z : Z) : Z := (z + 2 ^ 63) mod 2 ^ 64 - 2 ^ 63.

(** [strconv.ParseInt(s, 10, bitSize)]: the sign is picked off, the rest is
    read by [ParseUint] and checked against [1 << (bitSize-1)].  A range
    error of [ParseUint] comes with the value [2^bitSize - 1], which the
    cutoff check turns into the range error of [ParseInt]. *)
Definition ParseInt (s : string) (bitSize : N) : result NumError Z :=
  match s with
  | EmptyString => Err ErrSyntax
  | String c s' =>
      let neg := Ascii.eqb c "-" in
      let s := if Ascii.eqb c "+" || neg then s' else s in
      match ParseUint s bitSize with
      | Err ErrRange => Err ErrRange
      | Err e => Err e
      | Ok un =>
          let bitSize := if (bitSize =? 0)%N then 64%N else bitSize in
          let cutoff := (2 ^ (bitSize - 1))%N in
          if negb neg && (cutoff <=? un)%N then Err ErrRange
          else if neg && (cutoff <? un)%N then Err ErrRange
          else
            let n := int64 (Z.of_N un) in
            Ok (if neg then int64 (- n) else n)
      end
  end.

(** The loop of the fast path of [Atoi]: [ch -= '0'] on a byte, then
    [n = n*10 + int(ch)]. *)
Fixpoint atoi_digits (s : string) (n : Z) : option Z :=
  match s with
  | EmptyString => Some n
  | String ch s' =>
      let ch := ((N_of_ascii ch + 256 - 48) mod 256)%N in
      if (9 <? ch)%N then None
      else atoi_digits s' (int64 (n * 10 + Z.of_N ch))
  end.

(** [strconv.Atoi(s)] on a 64-bit target: the fast path for strings of 1
    to 18 bytes, [ParseInt(s, 10, 0)] for the others. *)
Definition Atoi (s : string) : result NumError Z :=
  let sLen := String.length s in
  if ((0 <? sLen) && (sLen <? 19))%nat then
    match s with
    | EmptyString => Err ErrSyntax
    | String c s' =>
        let s1 := if Ascii.eqb c "-" || Ascii.eqb c "+" then s' else s in
        if (String.length s1 <? 1)%nat then Err ErrSyntax
        else
          match atoi_digits s1 0 with
          | None => Err ErrSyntax
          | Some n => Ok (if Ascii.eqb c "-" then int64 (- n) else n)
          end
    end
  else ParseInt s 0.

End strconv.

(** ** float64: IEEE 754 binary64 *)

Module binary64.

(** A float64: a finite value (a rational [m * 2^e] with [|m| < 2^53] and
    [-1074 <= e <= 971]), an infinity, or a NaN. *)
Inductive t :=
| Finite (q : Q)
| PosInf
| NegInf
| NaN.

Definition pow2 (e : Z) : Q := (2 ^ e)%Q.

(** [floor (log2 a)], for [0 < a]. *)
Definition ilog2 (a : Q) : Z :=
  let t := Z.log2 (Qnum a) - Z.log2 (Zpos (Qden a)) in
  if Qle_bool (pow2 t) a then t else t - 1.

(** The nearest integer, the even one of two that are equally near. *)
Definition rne (x : Q) : Z :=
  let f := Qfloor x in
  match (x - inject_Z f ?= 1 # 2)%Q with
  | Lt => f
  | Gt => f + 1
  | Eq => if Z.even f then f else f + 1
  end.

(** Rounding of a real result: to the nearest multiple of [2^e], with [e]
    the exponent that leaves 53 significant bits (never below that of the
    subnormals, [-1074]); an infinity from [2^1024] on. *)
Definition round (q : Q) : t :=
  if Qeq_bool q 0 then Finite 0
  else
    let e := Z.max (-1074) (ilog2 (Qabs q) - 52) in
    let r := Qred (inject_Z (rne (q / pow2 e)) * pow2 e) in
    if Qle_bool (pow2 1024) (Qabs r)
    then (if Qle_bool 0 q then PosInf else NegInf)
    else Finite r.

Definition add (x y : t) : t :=
  match x, y with
  | NaN, _ | _, NaN => NaN
  | PosInf, NegInf | NegInf, PosInf => NaN
  | PosInf, _ | _, PosInf => PosInf
  | NegInf, _ | _, NegInf => NegInf
  | Finite a, Finite b => round (a + b)
  end.

Definition neg (x : t) : t :=
  match x with
  | Finite a => Finite (- a)
  | PosInf => NegInf
  | NegInf => PosInf
  | NaN => NaN
  end.

Definition div (x y : t) : t :=
  match x, y with
  | NaN, _ | _, NaN => NaN
  | Finite a, Finite b =>
      if Qeq_bool b 0
      then (if Qeq_bool a 0 then NaN else if Qle_bool 0 a then PosInf else NegInf)
      else round (a / b)
  | Finite _, _ => Finite 0
  | _, Finite b => if Qle_bool 0 b then x else neg x
  | _, _ => NaN
  end.

(** The conversion of an integer. *)
Definition of_int (n : Z) : t := round (inject_Z n).

(** [x] is finite and its value is the rational [q]. *)
Definition exactly (x : t) (q : Q) : Prop :=
  match x with
  | Finite p => (p == q)%Q
  | _ => False
  end.

End binary64.

(** ** package config *)

Module config.

Module DatabaseConfig.
Record t := mk {
  Host : string;
  Port : Z;
  User : string;
  Password : string;
  Name : string
}.
End DatabaseConfig.

Module ServerConfig.
Record t := mk { Port : string; GinMode : string }.
End ServerConfig.

Module LogConfig.
Record t := mk { Level : string }.
End LogConfig.

Record Config := mkConfig {
  Database : DatabaseConfig.t;
  Server : ServerConfig.t;
  Log : LogConfig.t
}.

(** The process environment as [os.Getenv] reads it: the value of a
    variable, [""] when it is not set. *)
Definition environment := string -> string.

Definition getEnv (env : environment) (key defaultValue : string) : string :=
  let value := env key in
  if negb (String.eqb value "") then value else defaultValue.

(** [LoadConfig()], on the environment as it is once [godotenv.Load] has
    run. *)
Definition LoadConfig (env : environment) : result strconv.NumError Config :=
  dbPort <- strconv.Atoi (getEnv env "DB_PORT" "3306") ;;
  Ok {| Database :=
          {| DatabaseConfig.Host := getEnv env "DB_HOST" "localhost";
             DatabaseConfig.Port := dbPort;
             DatabaseConfig.User := getEnv env "DB_USER" "root";
             DatabaseConfig.Password := getEnv env "DB_PASSWORD" "password";
             DatabaseConfig.Name := getEnv env "DB_NAME" "transaction_db" |};
        Server :=
          {| ServerConfig.Port := getEnv env "SERVER_PORT" "8080";
             ServerConfig.GinMode := getEnv env "GIN_MODE" "debug" |};
        Log := {| LogConfig.Level := getEnv env "LOG_LEVEL" "info" |} |}.

End config.

(** ** package models *)

Module models.

Definition TransactionStatus := string.

Definition StatusPending : TransactionStatus := "pending".
Definition StatusSuccess : TransactionStatus := "success".
Definition StatusFailed : TransactionStatus := "failed".

Record Transaction := mkTransaction {
  ID : N;
  UserID : N;
  Amount : Q;
  Status : TransactionStatus;
  CreatedAt : time.Time;
  UpdatedAt : time.Time;
  DeletedAt : option time.Time   (* gorm.DeletedAt: a nullable time *)
}.

Module TransactionRequest.
Record t := mk { UserID : N; Amount : Q }.
End TransactionRequest.

Module TransactionUpdateRequest.
Record t := mk { Status : TransactionStatus }.
End TransactionUpdateRequest.

Module TransactionQuery.
Record t := mk {
  UserID : N;
  Status : TransactionStatus;
  Limit : Z;
  Offset : Z;
  Page : Z
}.
End TransactionQuery.

Module TransactionResponse.
Record t := mk {
  Data : list Transaction;
  Total : Z;
  Page : Z;
  Limit : Z;
  TotalPages : Z
}.
End TransactionResponse.

Module DashboardSummary.
Record t := mk {
  TotalSuccessToday : Z;
  AverageAmountPerUser : binary64.t;
  TotalTransactions : Z;
  RecentTransactions : list Transaction;
  TotalAmount : binary64.t;
  TotalAmountToday : binary64.t;
  StatusDistribution : list (string * Z)   (* map[string]int64 *)
}.
End DashboardSummary.

End models.

(** ** gorm and the relational engine behind it *)

Module gorm.
Import models.

Inductive error :=
| ErrRecordNotFound
| ErrMissingWhereClause
| ErrDriver (msg : string).

(** [err.Error()] *)
Definition Error (e : error) : string :=
  match e with
  | ErrRecordNotFound => "record not found"
  | ErrMissingWhereClause => "WHERE conditions required"
  | ErrDriver msg => msg
  end.

(** The state of the store: the rows of table [transactions] in insertion
    order (soft-deleted rows included), the AUTO_INCREMENT counter of the
    primary key, and the connection: [broken = Some msg] when every
    statement sent fails with the driver error [msg]. *)
Record DB := mkDB {
  table : list Transaction;
  auto_increment : N;
  broken : option string
}.

(** A freshly migrated, reachable database. *)
Definition empty : DB := {| table := []; auto_increment := 1; broken := None |}.

(** Sending a statement: the driver error when the connection is down. *)
Definition exec {A} (db : DB) (v : A) : result error A :=
  match broken db with
  | Some msg => Err (ErrDriver msg)
  | None => Ok v
  end.

(** The statement under construction: the rows selected so far and the
    ORDER BY, OFFSET and LIMIT clauses. *)
Record Statement := mkStatement {
  selected : list Transaction;
  order_created_at_desc : bool;
  offset : Z;
  limit : option Z
}.

(** The soft-delete scope every query on a model with a [gorm.DeletedAt]
    field gets: [deleted_at IS NULL]. *)
Definition not_deleted (r : Transaction) : bool :=
  match DeletedAt r with
  | None => true
  | Some _ => false
  end.

(** [db.Model(&models.Transaction{})] *)
Definition Model (db : DB) : Statement :=
  {| selected := filter not_deleted (table db);
     order_created_at_desc := false; offset := 0; limit := None |}.

(** [db.Unscoped().Model(&models.Transaction{})]: soft-deleted rows too. *)
Definition Unscoped (db : DB) : Statement :=
  {| selected := table db;
     order_created_at_desc := false; offset := 0; limit := None |}.

Definition Where (p : Transaction -> bool) (st : Statement) : Statement :=
  {| selected := filter p (selected st);
     order_created_at_desc := order_created_at_desc st;
     offset := offset st; limit := limit st |}.

Definition Offset (n : Z) (st : Statement) : Statement :=
  {| selected := selected st;
     order_created_at_desc := order_created_at_desc st;
     offset := n; limit := limit st |}.

Definition Limit (n : Z) (st : Statement) : Statement :=
  {| selected := selected st;
     order_created_at_desc := order_created_at_desc st;
     offset := offset st; limit := Some n |}.

(** [.Order("created_at DESC")] *)
Definition Order_created_at_DESC (st : Statement) : Statement :=
  {| selected := selected st;
     order_created_at_desc := true;
     offset := offset st; limit := limit st |}.

(** ORDER BY created_at DESC.  SQL leaves the order of rows with equal
    [created_at] to the engine, and it may differ from one query to the
    next; the sort below takes the engine that keeps such rows in table
    order.  What is proved of ordered results either holds for every order
    newest first, or assumes rows of pairwise distinct [created_at], for
    which there is one such order only. *)
Fixpoint insert_desc (r : Transaction) (l : list Transaction) : list Transaction :=
  match l with
  | [] => [r]
  | x :: l' =>
      if CreatedAt x <=? CreatedAt r then r :: l else x :: insert_desc r l'
  end.

Definition sort_desc (l : list Transaction) : list Transaction :=
  fold_right insert_desc [] l.

(** The rows a SELECT returns: ordered, then OFFSET (written only when
    positive), then LIMIT (written only when not negative). *)
Definition run (st : Statement) : list Transaction :=
  let rows := if order_created_at_desc st then sort_desc (selected st)
              else selected st in
  let rows := if 0 <? offset st then skipn (Z.to_nat (offset st)) rows else rows in
  match limit st with
  | Some n => if 0 <=? n then firstn (Z.to_nat n) rows else rows
  | None => rows
  end.

(** [.Find(&rows)] *)
Definition Find (db : DB) (st : Statement) : result error (list Transaction) :=
  exec db (run st).

(** [.Count(&total)]: COUNT( * ) over the selected rows. *)
Definition Count (db : DB) (st : Statement) : result error Z :=
  exec db (Z.of_nat (length (selected st))).

(** [.First(&row, id)]: the selected row with that primary key, ordered
    by primary key, LIMIT 1; [ErrRecordNotFound] when there is none. *)
Definition First (db : DB) (st : Statement) (id : N) : result error Transaction :=
  rows <- exec db (filter (fun r => (ID r =? id)%N) (selected st)) ;;
  match rows with
  | [] => Err ErrRecordNotFound
  | r :: _ => Ok r
  end.

(** SQL aggregates over a DOUBLE column: NULL ([None]) over no row;
    otherwise SUM adds the values of the rows one after the other to a
    float64 accumulator, in the order the rows are scanned (here the table
    order), and AVG divides that sum by the number of rows.  [round x] is
    the float64 the column holds for the amount [x]. *)
Definition SUM (l : list Q) : option binary64.t :=
  match l with
  | [] => None
  | _ => Some (fold_left (fun acc x => binary64.add acc (binary64.round x)) l
                 (binary64.Finite 0))
  end.

Definition AVG (l : list Q) : option binary64.t :=
  match SUM l with
  | None => None
  | Some total => Some (binary64.div total (binary64.of_int (Z.of_nat (length l))))
  end.

(** [.Select("SUM(amount) as ...").Scan(&res)] and the same with AVG:
    scanning NULL into a [float64] field leaves its zero value. *)
Definition Scan_float64 (db : DB) (v : option binary64.t) : result error binary64.t :=
  exec db (match v with Some x => x | None => binary64.Finite 0 end).

Definition Select_SUM_amount (st : Statement) : option binary64.t :=
  SUM (map Amount (selected st)).

Definition Select_AVG_amount (st : Statement) : option binary64.t :=
  AVG (map Amount (selected st)).

(** [.Select("status, COUNT( * ) as count").Group("status").Scan(&res)]:
    one result row per status value present. *)
Fixpoint count_into (s : string) (acc : list (string * Z)) : list (string * Z) :=
  match acc with
  | [] => [(s, 1)]
  | (k, n) :: acc' =>
      if String.eqb k s then (k, n + 1) :: acc' else (k, n) :: count_into s acc'
  end.

Definition Group_status_COUNT (db : DB) (st : Statement)
  : result error (list (string * Z)) :=
  exec db (fold_left (fun acc r => count_into (Status r) acc) (selected st) []).

(** [db.Create(&t)]: INSERT.  A zero primary key is assigned from the
    AUTO_INCREMENT counter, zero [CreatedAt]/[UpdatedAt] are set to the
    current time; the struct is returned as filled in. *)
Definition Create (db : DB) (now : time.Time) (t : Transaction)
  : DB * result error Transaction :=
  match broken db with
  | Some msg => (db, Err (ErrDriver msg))
  | None =>
      let id := if (ID t =? 0)%N then auto_increment db else ID t in
      if existsb (fun r => (ID r =? id)%N) (table db)
      then (db, Err (ErrDriver "Error 1062: Duplicate entry for key 'PRIMARY'"))
      else
        let t' := {| ID := id; UserID := UserID t; Amount := Amount t;
                     Status := Status t;
                     CreatedAt := if time.IsZero (CreatedAt t) then now else CreatedAt t;
                     UpdatedAt := if time.IsZero (UpdatedAt t) then now else UpdatedAt t;
                     DeletedAt := DeletedAt t |} in
        ({| table := table db ++ [t'];
            auto_increment := N.max (auto_increment db) (id + 1);
            broken := None |}, Ok t')
  end.

(** The row written by [Save]: every column from the struct, with
    [updated_at] set to the current time. *)
Definition touched (now : time.Time) (t : Transaction) : Transaction :=
  {| ID := ID t; UserID := UserID t; Amount := Amount t; Status := Status t;
     CreatedAt := CreatedAt t; UpdatedAt := now; DeletedAt := DeletedAt t |}.

(** [db.Save(&t)] for a struct with a non-zero primary key: UPDATE of all
    columns WHERE id = t.ID AND deleted_at IS NULL; when no row was
    affected, INSERT ... ON DUPLICATE KEY UPDATE of all columns.  With a
    zero primary key it is [Create]. *)
Definition Save (db : DB) (now : time.Time) (t : Transaction)
  : DB * result error Transaction :=
  if (ID t =? 0)%N then Create db now t
  else
    match broken db with
    | Some msg => (db, Err (ErrDriver msg))
    | None =>
        let t' := touched now t in
        let hit r := not_deleted r && (ID r =? ID t)%N in
        if existsb hit (table db)
        then ({| table := map (fun r => if hit r then t' else r) (table db);
                 auto_increment := auto_increment db; broken := None |}, Ok t')
        else if existsb (fun r => (ID r =? ID t)%N) (table db)
        then ({| table := map (fun r => if (ID r =? ID t)%N then t' else r) (table db);
                 auto_increment := auto_increment db; broken := None |}, Ok t')
        else ({| table := table db ++ [t'];
                 auto_increment := N.max (auto_increment db) (ID t + 1);
                 broken := None |}, Ok t')
    end.

(** [db.Delete(&t)] on a model with [gorm.DeletedAt]: the soft delete
    UPDATE SET deleted_at = now WHERE id = t.ID AND deleted_at IS NULL. *)
Definition Delete (db : DB) (now : time.Time) (t : Transaction)
  : DB * result error unit :=
  if (ID t =? 0)%N then (db, Err ErrMissingWhereClause)
  else
    match broken db with
    | Some msg => (db, Err (ErrDriver msg))
    | None =>
        ({| table :=
              map (fun r =>
                     if not_deleted r && (ID r =? ID t)%N
                     then {| ID := ID r; UserID := UserID r; Amount := Amount r;
                             Status := Status r; CreatedAt := CreatedAt r;
                             UpdatedAt := UpdatedAt r; DeletedAt := Some now |}
                     else r) (table db);
            auto_increment := auto_increment db; broken := None |}, Ok tt)
    end.

(** [sqlDB.Ping()] *)
Definition Ping (db : DB) : result error unit := exec db tt.

End gorm.

(** ** package services *)

Module services.
Import models.

(** The service reports failures as [error] values built with
    [fmt.Errorf]; only their text is ever inspected. *)
Definition error := string.

Definition not_found : error := "transaction not found".

(** [fmt.Errorf(msg + ": %w", err)] *)
Definition Errorf_w (msg : string) (err : gorm.error) : error :=
  (msg ++ ": " ++ gorm.Error err)%string.

(** Go's [int] on the 64-bit targets the service is built for. *)
Definition int (z : Z) : Z := (z + 2 ^ 63) mod 2 ^ 64 - 2 ^ 63.

(** [float64(n)] and [math.Ceil], on the exact value of the quotient. *)
Definition float64 (n : Z) : Q := inject_Z n.
Definition math_Ceil (x : Q) : Q := inject_Z (Qceiling x).
(** [int(x)]: the fraction is discarded (truncation toward zero). *)
Definition int_of_float64 (x : Q) : Z :=
  if Qle_bool 0 x then Qfloor x else Qceiling x.

Definition CreateTransaction (db : gorm.DB) (now : time.Time)
  (req : TransactionRequest.t) : gorm.DB * result error Transaction :=
  let transaction :=
    {| ID := 0; UserID := TransactionRequest.UserID req;
       Amount := TransactionRequest.Amount req;
       Status := StatusPending;
       CreatedAt := 0; UpdatedAt := 0; DeletedAt := None |} in
  let '(db', r) := gorm.Create db now transaction in
  (db', map_err (Errorf_w "failed to create transaction") r).

(** The two error returns after [s.db.First(&transaction, id)]. *)
Definition first_error (err : gorm.error) : error :=
  match err with
  | gorm.ErrRecordNotFound => not_found
  | _ => Errorf_w "failed to get transaction" err
  end.

Definition GetTransactionByID (db : gorm.DB) (id : N) : result error Transaction :=
  map_err (first_error) (gorm.First db (gorm.Model db) id).

Definition GetTransactions (db : gorm.DB) (query : TransactionQuery.t)
  : result error TransactionResponse.t :=
  let q := gorm.Model db in
  let q := if (TransactionQuery.UserID query =? 0)%N then q
           else gorm.Where (fun r => (UserID r =? TransactionQuery.UserID query)%N) q in
  let q := if String.eqb (TransactionQuery.Status query) "" then q
           else gorm.Where (fun r => String.eqb (Status r) (TransactionQuery.Status query)) q in
  total <- map_err (Errorf_w "failed to count transactions") (gorm.Count db q) ;;
  let Limit := if TransactionQuery.Limit query <=? 0 then 10
               else TransactionQuery.Limit query in
  let Page := if TransactionQuery.Page query <=? 0 then 1
              else TransactionQuery.Page query in
  let offset := int ((Page - 1) * Limit) in
  transactions <-
    map_err (Errorf_w "failed to get transactions")
      (gorm.Find db
         (gorm.Order_created_at_DESC (gorm.Limit Limit (gorm.Offset offset q)))) ;;
  let totalPages := int_of_float64 (math_Ceil (float64 total / float64 Limit)) in
  Ok {| TransactionResponse.Data := transactions;
        TransactionResponse.Total := total;
        TransactionResponse.Page := Page;
        TransactionResponse.Limit := Limit;
        TransactionResponse.TotalPages := totalPages |}.

Definition UpdateTransaction (db : gorm.DB) (now : time.Time) (id : N)
  (req : TransactionUpdateRequest.t) : gorm.DB * result error Transaction :=
  match gorm.First db (gorm.Model db) id with
  | Err err => (db, Err (first_error err))
  | Ok transaction =>
      let transaction :=
        {| ID := ID transaction; UserID := UserID transaction;
           Amount := Amount transaction;
           Status := TransactionUpdateRequest.Status req;
           CreatedAt := CreatedAt transaction;
           UpdatedAt := UpdatedAt transaction;
           DeletedAt := DeletedAt transaction |} in
      let '(db', r) := gorm.Save db now transaction in
      (db', map_err (Errorf_w "failed to update transaction") r)
  end.

Definition DeleteTransaction (db : gorm.DB) (now : time.Time) (id : N)
  : gorm.DB * result error unit :=
  match gorm.First db (gorm.Model db) id with
  | Err err => (db, Err (first_error err))
  | Ok transaction =>
      let '(db', r) := gorm.Delete db now transaction in
      (db', map_err (Errorf_w "failed to delete transaction") r)
  end.

(** [map[string]int64] assignment [m[k] = v]. *)
Fixpoint map_set (m : list (string * Z)) (k : string) (v : Z) : list (string * Z) :=
  match m with
  | [] => [(k, v)]
  | (k', v') :: m' =>
      if String.eqb k' k then (k, v) :: m' else (k', v') :: map_set m' k v
  end.

(** The WHERE clause
    [status = ? AND created_at >= ? AND created_at < ?]. *)
Definition status_between (status : TransactionStatus) (lo hi : time.Time)
  (r : Transaction) : bool :=
  String.eqb (Status r) status && (lo <=? CreatedAt r) && (CreatedAt r <? hi).

Definition GetDashboardSummary (db : gorm.DB) (now : time.Time)
  : result error DashboardSummary.t :=
  let today := time.Truncate now (24 * time.Hour) in
  let tomorrow := time.Add today (24 * time.Hour) in
  totalSuccessToday <-
    map_err (Errorf_w "failed to count today's successful transactions")
      (gorm.Count db
         (gorm.Where (status_between StatusSuccess today tomorrow) (gorm.Model db))) ;;
  totalTransactions <-
    map_err (Errorf_w "failed to count total transactions")
      (gorm.Count db (gorm.Model db)) ;;
  avgAmount <-
    map_err (Errorf_w "failed to calculate average amount")
      (gorm.Scan_float64 db
         (gorm.Select_AVG_amount
            (gorm.Where (fun r => String.eqb (Status r) StatusSuccess) (gorm.Model db)))) ;;
  totalAmount <-
    map_err (Errorf_w "failed to calculate total amount")
      (gorm.Scan_float64 db
         (gorm.Select_SUM_amount
            (gorm.Where (fun r => String.eqb (Status r) StatusSuccess) (gorm.Model db)))) ;;
  totalAmountToday <-
    map_err (Errorf_w "failed to calculate today's total amount")
      (gorm.Scan_float64 db
         (gorm.Select_SUM_amount
            (gorm.Where (status_between StatusSuccess today tomorrow) (gorm.Model db)))) ;;
  statusResults <-
    map_err (Errorf_w "failed to get status distribution")
      (gorm.Group_status_COUNT db (gorm.Model db)) ;;
  let StatusDistribution :=
    fold_left (fun m result => map_set m (fst result) (snd result)) statusResults [] in
  recentTransactions <-
    map_err (Errorf_w "failed to get recent transactions")
      (gorm.Find db (gorm.Limit 10 (gorm.Order_created_at_DESC (gorm.Model db)))) ;;
  Ok {| DashboardSummary.TotalSuccessToday := totalSuccessToday;
        DashboardSummary.AverageAmountPerUser := avgAmount;
        DashboardSummary.TotalTransactions := totalTransactions;
        DashboardSummary.RecentTransactions := recentTransactions;
        DashboardSummary.TotalAmount := totalAmount;
        DashboardSummary.TotalAmountToday := totalAmountToday;
        DashboardSummary.StatusDistribution := StatusDistribution |}.

End services.

(** ** net/http status codes *)

Module http.
Definition StatusOK : Z := 200.
Definition StatusCreated : Z := 201.
Definition StatusNoContent : Z := 204.
Definition StatusBadRequest : Z := 400.
Definition StatusNotFound : Z := 404.
Definition StatusInternalServerError : Z := 500.
End http.

(** ** go-playground/validator, for the two validated request structs *)

Module validator.
Import models.

Record FieldError := mkFieldError {
  Namespace : string;
  Field : string;
  Tag : string
}.

Definition ValidationErrors := list FieldError.

Definition FieldError_Error (fe : FieldError) : string :=
  ("Key: '" ++ Namespace fe ++ "' Error:Field validation for '" ++ Field fe
     ++ "' failed on the '" ++ Tag fe ++ "' tag")%string.

Definition newline : string := String (ascii_of_nat 10) EmptyString.

(** [err.Error()] of a non-empty [ValidationErrors]. *)
Definition Error (ve : ValidationErrors) : string :=
  String.concat newline (map FieldError_Error ve).

(** The tags used by the request structs.  [required] fails on the zero
    value of the field's type. *)
Definition required_uint (n : N) : bool := negb (n =? 0)%N.
Definition required_float64 (x : Q) : bool := negb (Qeq_bool x 0).
Definition required_string (s : string) : bool := negb (String.eqb s "").
Definition gt_float64 (param x : Q) : bool := negb (Qle_bool x param).
Definition oneof (params : list string) (s : string) : bool :=
  existsb (String.eqb s) params.

(** The tags of one field are checked in order and the first failing tag
    is the one reported for the field. *)
Fixpoint check_field (ns field : string) (tags : list (string * bool))
  : ValidationErrors :=
  match tags with
  | [] => []
  | (tag, holds) :: tags' =>
      if holds then check_field ns field tags'
      else [ {| Namespace := ns; Field := field; Tag := tag |} ]
  end.

(** [validate.Struct(&req)] for [models.TransactionRequest]:
    UserID [required]; Amount [required,gt=0]. *)
Definition Struct_TransactionRequest (req : TransactionRequest.t) : ValidationErrors :=
  check_field "TransactionRequest.UserID" "UserID"
    [("required", required_uint (TransactionRequest.UserID req))]
  ++ check_field "TransactionRequest.Amount" "Amount"
    [("required", required_float64 (TransactionRequest.Amount req));
     ("gt", gt_float64 0 (TransactionRequest.Amount req))].

(** [validate.Struct(&req)] for [models.TransactionUpdateRequest]:
    Status [required,oneof=pending success failed]. *)
Definition Struct_TransactionUpdateRequest (req : TransactionUpdateRequest.t)
  : ValidationErrors :=
  check_field "TransactionUpdateRequest.Status" "Status"
    [("required", required_string (TransactionUpdateRequest.Status req));
     ("oneof", oneof ["pending"; "success"; "failed"]
                 (TransactionUpdateRequest.Status req))].

End validator.

(** ** package middleware: the error bodies, and what a handler writes *)

Module middleware.
Import models.

Record ErrorResponse := mkErrorResponse {
  Error : string;
  Message : string;
  Details : option string
}.

(** A value of [gin.H] as the health endpoint builds it. *)
Inductive value :=
| VString (s : string)
| VTime (t : time.Time).

(** The object handed to [c.JSON], or no body for [c.Status]. *)
Inductive body :=
| JSON_Transaction (t : Transaction)
| JSON_TransactionResponse (r : TransactionResponse.t)
| JSON_DashboardSummary (s : DashboardSummary.t)
| JSON_ErrorResponse (e : ErrorResponse)
| JSON_H (h : list (string * value))
| NoBody.

Record response := mkResponse {
  StatusCode : Z;
  Body : body
}.

(** [SendError(c, statusCode, err, message...)] *)
Definition SendError (statusCode : Z) (err : string) (message : list string)
  : response :=
  let response :=
    {| Error := err;
       Message := match message with m :: _ => m | [] => "" end;
       Details := None |} in
  {| StatusCode := statusCode; Body := JSON_ErrorResponse response |}.

(** [SendValidationError(c, details)] *)
Definition SendValidationError (details : string) : response :=
  let response :=
    {| Error := "validation_error";
       Message := "Request validation failed";
       Details := Some details |} in
  {| StatusCode := http.StatusBadRequest; Body := JSON_ErrorResponse response |}.

End middleware.

(** ** package handlers *)

Module handlers.
Import models middleware.

(** The result of [c.ShouldBindJSON(&req)] / [c.ShouldBindQuery(&query)]:
    the filled struct, or the binding error. *)
Definition bound (A : Type) := result string A.

Definition CreateTransaction (db : gorm.DB) (now : time.Time)
  (body : bound TransactionRequest.t) : gorm.DB * response :=
  match body with
  | Err err => (db, SendValidationError err)
  | Ok req =>
      match validator.Struct_TransactionRequest req with
      | (_ :: _) as err => (db, SendValidationError (validator.Error err))
      | [] =>
          let '(db', r) := services.CreateTransaction db now req in
          match r with
          | Err err =>
              (db', SendError http.StatusInternalServerError "internal_server_error" [err])
          | Ok transaction =>
              (db', {| StatusCode := http.StatusCreated;
                       Body := JSON_Transaction transaction |})
          end
      end
  end.

(** The error mapping shared by the three id-bearing handlers. *)
Definition service_error (err : services.error) : response :=
  if String.eqb err "transaction not found"
  then SendError http.StatusNotFound "not_found" ["Transaction not found"]
  else SendError http.StatusInternalServerError "internal_server_error" [err].

Definition GetTransactionByID (db : gorm.DB) (idStr : string) : response :=
  match strconv.ParseUint idStr 32 with
  | Err _ => SendError http.StatusBadRequest "invalid_id" ["Invalid transaction ID"]
  | Ok id =>
      match services.GetTransactionByID db id with
      | Err err => service_error err
      | Ok transaction =>
          {| StatusCode := http.StatusOK; Body := JSON_Transaction transaction |}
      end
  end.

Definition GetTransactions (db : gorm.DB) (bind_query : bound TransactionQuery.t)
  : response :=
  match bind_query with
  | Err err => SendValidationError err
  | Ok query =>
      if negb (String.eqb (TransactionQuery.Status query) "")
         && (negb (String.eqb (TransactionQuery.Status query) StatusPending)
             && negb (String.eqb (TransactionQuery.Status query) StatusSuccess)
             && negb (String.eqb (TransactionQuery.Status query) StatusFailed))
      then SendError http.StatusBadRequest "invalid_status"
             ["Status must be one of: pending, success, failed"]
      else
        match services.GetTransactions db query with
        | Err err =>
            SendError http.StatusInternalServerError "internal_server_error" [err]
        | Ok response =>
            {| StatusCode := http.StatusOK; Body := JSON_TransactionResponse response |}
        end
  end.

Definition UpdateTransaction (db : gorm.DB) (now : time.Time) (idStr : string)
  (body : bound TransactionUpdateRequest.t) : gorm.DB * response :=
  match strconv.ParseUint idStr 32 with
  | Err _ => (db, SendError http.StatusBadRequest "invalid_id" ["Invalid transaction ID"])
  | Ok id =>
      match body with
      | Err err => (db, SendValidationError err)
      | Ok req =>
          match validator.Struct_TransactionUpdateRequest req with
          | (_ :: _) as err => (db, SendValidationError (validator.Error err))
          | [] =>
              let '(db', r) := services.UpdateTransaction db now id req in
              match r with
              | Err err => (db', service_error err)
              | Ok transaction =>
                  (db', {| StatusCode := http.StatusOK;
                           Body := JSON_Transaction transaction |})
              end
          end
      end
  end.

Definition DeleteTransaction (db : gorm.DB) (now : time.Time) (idStr : string)
  : gorm.DB * response :=
  match strconv.ParseUint idStr 32 with
  | Err _ => (db, SendError http.StatusBadRequest "invalid_id" ["Invalid transaction ID"])
  | Ok id =>
      let '(db', r) := services.DeleteTransaction db now id in
      match r with
      | Err err => (db', service_error err)
      | Ok _ => (db', {| StatusCode := http.StatusNoContent; Body := NoBody |})
      end
  end.

Definition GetDashboardSummary (db : gorm.DB) (now : time.Time) : response :=
  match services.GetDashboardSummary db now with
  | Err err => SendError http.StatusInternalServerError "internal_server_error" [err]
  | Ok summary =>
      {| StatusCode := http.StatusOK; Body := JSON_DashboardSummary summary |}
  end.

(** The handler holds the service and, through it, the database handle
    [db]; the body of [HealthCheck] uses neither. *)
Definition HealthCheck (db : gorm.DB) (now : time.Time) : response :=
  {| StatusCode := http.StatusOK;
     Body := JSON_H [("status", VString "healthy");
                     ("service", VString "transaction-api");
                     ("timestamp", VTime now)] |}.

End handlers.

(** ** Vocabulary of the specification *)

Module spec.
Import models middleware.

(** The store is reachable. *)
Definition available (db : gorm.DB) : Prop := gorm.broken db = None.

(** What the engine guarantees for an auto-increment primary key: no two
    rows share an id, every id in the table is positive and lies below the
    counter, and the counter is positive. *)
Fixpoint distinct (l : list N) : bool :=
  match l with
  | [] => true
  | x :: l' => negb (existsb (N.eqb x) l') && distinct l'
  end.

Definition consistentb (db : gorm.DB) : bool :=
  distinct (map ID (gorm.table db))
  && forallb (fun r => (0 <? ID r)%N && (ID r <? gorm.auto_increment db)%N)
       (gorm.table db)
  && (0 <? gorm.auto_increment db)%N.

Definition consistent (db : gorm.DB) : Prop := consistentb db = true.

(** An error response with the given HTTP status and short code. *)
Definition is_error (code : Z) (err : string) (resp : response) : Prop :=
  StatusCode resp = code /\
  exists e, Body resp = JSON_ErrorResponse e /\ Error e = err.

(** A record is live when it is not soft-deleted. *)
Definition liveb (r : Transaction) : bool :=
  match DeletedAt r with None => true | Some _ => false end.

Definition is_success (r : Transaction) : bool :=
  liveb r && String.eqb (Status r) "success".

(** The sum and the arithmetic mean of the amounts of a list of records. *)
Definition sum_amount (l : list Transaction) : Q :=
  fold_right (fun r acc => (Amount r + acc)%Q) 0%Q l.

Definition mean_amount (l : list Transaction) : Q :=
  (sum_amount l / inject_Z (Z.of_nat (length l)))%Q.

(** The sum and the mean as float64 computes them: the amounts added one
    after the other, every addition rounded, and that sum divided by the
    number of records. *)
Definition float64_sum (l : list Transaction) : binary64.t :=
  fold_left (fun acc r => binary64.add acc (binary64.round (Amount r))) l
    (binary64.Finite 0).

Definition float64_mean (l : list Transaction) : binary64.t :=
  binary64.div (float64_sum l) (binary64.of_int (Z.of_nat (length l))).

(** [fits k q]: [q] is a non-negative multiple of [2^-k] below [2^(53-k)],
    with [0 <= k <= 1074]; such a [q] is the value of a float64.
    [exact_sum k l]: every amount of [l], and their sum, is such a value for
    the same [k]: then no partial sum of the amounts, in whatever order
    they are added, needs rounding. *)
Definition fits (k : Z) (q : Q) : bool :=
  (0 <=? k) && (k <=? 1074) && Qle_bool 0 q
  && Qeq_bool (inject_Z (Qfloor (q * inject_Z (2 ^ k)))) (q * inject_Z (2 ^ k))
  && negb (Qle_bool (inject_Z (2 ^ 53)) (q * inject_Z (2 ^ k))).

Definition exact_sum (k : Z) (l : list Transaction) : bool :=
  forallb (fun r => fits k (Amount r)) l && fits k (sum_amount l).

(** The UTC calendar day of an instant, as the half-open interval
    [[midnight, midnight + 24h)]. *)
Definition day : Z := 24 * 3600 * 1000000000.

Definition is_midnight_of (now midnight : time.Time) : Prop :=
  (day | midnight) /\ midnight <= now < midnight + day.

Definition in_day (midnight : time.Time) (r : Transaction) : bool :=
  (midnight <=? CreatedAt r) && (CreatedAt r <? midnight + day).

(** Decimal numerals: non-empty strings of the digits 0..9, and their
    value. *)
Definition is_digit (c : ascii) : bool :=
  (48 <=? N_of_ascii c)%N && (N_of_ascii c <=? 57)%N.

Fixpoint all_digits (s : string) : bool :=
  match s with
  | EmptyString => true
  | String c s' => is_digit c && all_digits s'
  end.

Definition is_decimal (s : string) : bool :=
  negb (String.eqb s "") && all_digits s.

Fixpoint value_from (acc : N) (s : string) : N :=
  match s with
  | EmptyString => acc
  | String c s' => value_from (10 * acc + (N_of_ascii c - 48))%N s'
  end.

Definition decimal_value (s : string) : N := value_from 0 s.

(** The path ids the handlers accept: decimal numerals of an unsigned
    32-bit integer. *)
Definition valid_id (s : string) : bool :=
  is_decimal s && (decimal_value s <=? 4294967295)%N.

(** The same store with every user id renamed by [f]. *)
Definition rename_users (f : N -> N) (db : gorm.DB) : gorm.DB :=
  {| gorm.table :=
       map (fun r => {| ID := ID r; UserID := f (UserID r); Amount := Amount r;
                        Status := Status r; CreatedAt := CreatedAt r;
                        UpdatedAt := UpdatedAt r; DeletedAt := DeletedAt r |})
         (gorm.table db);
     gorm.auto_increment := gorm.auto_increment db;
     gorm.broken := gorm.broken db |}.

(** A call of the service, and the store it leaves behind. *)
Inductive call :=
| CallCreate (req : TransactionRequest.t)
| CallGetByID (id : N)
| CallList (query : TransactionQuery.t)
| CallUpdate (id : N) (req : TransactionUpdateRequest.t)
| CallDelete (id : N)
| CallSummary.

Definition after_call (db : gorm.DB) (c : time.Time * call) : gorm.DB :=
  match c with
  | (now, CallCreate req) => fst (services.CreateTransaction db now req)
  | (now, CallUpdate id req) => fst (services.UpdateTransaction db now id req)
  | (now, CallDelete id) => fst (services.DeleteTransaction db now id)
  | (_, CallGetByID _) | (_, CallList _) | (_, CallSummary) => db
  end.

Definition after_calls (db : gorm.DB) (cs : list (time.Time * call)) : gorm.DB :=
  fold_left after_call cs db.

(** The row left by a soft delete at [now], and the row left by an update
    to [status] at [now]. *)
Definition deleted_at (now : time.Time) (r : Transaction) : Transaction :=
  {| ID := ID r; UserID := UserID r; Amount := Amount r; Status := Status r;
     CreatedAt := CreatedAt r; UpdatedAt := UpdatedAt r; DeletedAt := Some now |}.

Definition updated_at (now : time.Time) (status : TransactionStatus)
  (r : Transaction) : Transaction :=
  {| ID := ID r; UserID := UserID r; Amount := Amount r; Status := status;
     CreatedAt := CreatedAt r; UpdatedAt := now; DeletedAt := DeletedAt r |}.

(** The rows a list query ranges over: live, and matching the filters
    that are set. *)
Definition matches (query : TransactionQuery.t) (r : Transaction) : bool :=
  liveb r
  && ((TransactionQuery.UserID query =? 0)%N
      || (UserID r =? TransactionQuery.UserID query)%N)
  && (String.eqb (TransactionQuery.Status query) ""
      || String.eqb (Status r) (TransactionQuery.Status query)).

(** Newest first. *)
Definition newer_first (a b : Transaction) : Prop := CreatedAt b <= CreatedAt a.

(** The three status values. *)
Definition is_status (s : string) : bool :=
  String.eqb s "pending" || String.eqb s "success" || String.eqb s "failed".

End spec.

(** ** Sample stores *)

Module fixtures.
Import models.

Definition today : time.Time := 739000 * spec.day.
Definition now : time.Time := today + 5 * time.Hour.

Definition row (id user : N) (amount : Q) (status : string) (created : time.Time)
  : Transaction :=
  {| ID := id; UserID := user; Amount := amount; Status := status;
     CreatedAt := created; UpdatedAt := created; DeletedAt := None |}.

(** The records of the summary example: three successes (two of today, one
    of yesterday), one pending and one failed. *)
Definition five : gorm.DB :=
  {| gorm.table :=
       [ row 1 1 100 "success" (today + time.Hour);
         row 2 1 200 "success" (today + 2 * time.Hour);
         row 3 2 300 "success" (today - spec.day);
         row 4 2 400 "pending" (today + 3 * time.Hour);
         row 5 3 500 "failed" (today + 4 * time.Hour) ];
     gorm.auto_increment := 6;
     gorm.broken := None |}.

(** Three successes whose amounts are the float64 values of the literals
    0.1, 0.2 and 0.3. *)
Definition tenths : gorm.DB :=
  {| gorm.table :=
       [ row 1 1 (3602879701896397 # 36028797018963968) "success" (today + time.Hour);
         row 2 1 (3602879701896397 # 18014398509481984) "success" (today + 2 * time.Hour);
         row 3 2 (5404319552844595 # 18014398509481984) "success" (today + 3 * time.Hour) ];
     gorm.auto_increment := 4;
     gorm.broken := None |}.

End fixtures.

(** ** Requests, as the router hands them to the handlers *)

Module api.
Import models middleware.

Inductive request :=
| CreateTransaction (body : handlers.bound TransactionRequest.t)
| GetTransactionByID (idStr : string)
| GetTransactions (query : handlers.bound TransactionQuery.t)
| UpdateTransaction (idStr : string) (body : handlers.bound TransactionUpdateRequest.t)
| DeleteTransaction (idStr : string)
| GetDashboardSummary
| HealthCheck.

(** The handler a route is bound to, applied to the request; the store after
    it and the response written. *)
Definition serve (db : gorm.DB) (now : time.Time) (r : request) : gorm.DB * response :=
  match r with
  | CreateTransaction body => handlers.CreateTransaction db now body
  | GetTransactionByID idStr => (db, handlers.GetTransactionByID db idStr)
  | GetTransactions query => (db, handlers.GetTransactions db query)
  | UpdateTransaction idStr body => handlers.UpdateTransaction db now idStr body
  | DeleteTransaction idStr => handlers.DeleteTransaction db now idStr
  | GetDashboardSummary => (db, handlers.GetDashboardSummary db now)
  | HealthCheck => (db, handlers.HealthCheck db now)
  end.

Definition serve_all (db : gorm.DB) (rs : list (time.Time * request)) : gorm.DB :=
  fold_left (fun db r => fst (serve db (fst r) (snd r))) rs db.

(** The field constraints of the data model, on one row. *)
Definition valid_row (r : Transaction) : Prop :=
  (0 < Amount r)%Q /\ UserID r <> 0%N /\ spec.is_status (Status r) = true.

(** A row and a later version of it agree on what is fixed at creation. *)
Definition same_origin (r r' : Transaction) : Prop :=
  ID r' = ID r /\ UserID r' = UserID r /\ Amount r' = Amount r
  /\ CreatedAt r' = CreatedAt r.

(** Reading a key of a [map[string]int64]. *)
Fixpoint lookup (k : string) (m : list (string * Z)) : option Z :=
  match m with
  | [] => None
  | (k', v) :: m' => if String.eqb k' k then Some v else lookup k m'
  end.

(** The number of live rows with a given status. *)
Definition count_status (s : string) (l : list Transaction) : nat :=
  length (filter (fun r => spec.liveb r && String.eqb (Status r) s) l).

(** The same list query for another page, and the records it returns. *)
Definition with_page (query : TransactionQuery.t) (page : Z) : TransactionQuery.t :=
  {| TransactionQuery.UserID := TransactionQuery.UserID query;
     TransactionQuery.Status := TransactionQuery.Status query;
     TransactionQuery.Limit := TransactionQuery.Limit query;
     TransactionQuery.Offset := TransactionQuery.Offset query;
     TransactionQuery.Page := page |}.

(** Integer numerals: decimal digits after an optional sign. *)
Definition signed_decimal (s : string) : bool :=
  match s with
  | EmptyString => false
  | String c s' =>
      if Ascii.eqb c "-" || Ascii.eqb c "+" then spec.is_decimal s'
      else spec.is_decimal s
  end.

Definition signed_value (s : string) : Z :=
  match s with
  | EmptyString => 0
  | String c s' =>
      if Ascii.eqb c "-" then - Z.of_N (spec.decimal_value s')
      else if Ascii.eqb c "+" then Z.of_N (spec.decimal_value s')
      else Z.of_N (spec.decimal_value s)
  end.

(** No two rows of the list have the same [created_at]. *)
Fixpoint distinct_created_at (l : list Transaction) : bool :=
  match l with
  | [] => true
  | r :: l' =>
      negb (existsb (fun x => CreatedAt x =? CreatedAt r) l') && distinct_created_at l'
  end.

Definition page_data (db : gorm.DB) (query : TransactionQuery.t) (page : Z)
  : list Transaction :=
  match services.GetTransactions db (with_page query page) with
  | Ok resp => TransactionResponse.Data resp
  | Err _ => []
  end.

End api.

(** * Properties *)

Import models middleware.

(** ** Basic facts about the store *)

Lemma exec_available {A} (db : gorm.DB) (v : A) :
  spec.available db -> gorm.exec db v = Ok v.
Proof. unfold spec.available, gorm.exec. intros ->. reflexivity. Qed.

Lemma not_deleted_liveb (r : Transaction) : gorm.not_deleted r = spec.liveb r.
Proof. reflexivity. Qed.

Lemma distinct_NoDup (l : list N) : spec.distinct l = true <-> NoDup l.
Proof.
  induction l as [|x l IH]; simpl.
  - split; [constructor | reflexivity].
  - rewrite andb_true_iff, negb_true_iff, IH. split.
    + intros [Hx Hl]. constructor; [|assumption].
      intros Hin. assert (existsb (N.eqb x) l = true) as E.
      { apply existsb_exists. exists x. split; [assumption | apply N.eqb_refl]. }
      congruence.
    + intros H. inversion H as [|? ? Hx Hl]; subst. split; [|assumption].
      destruct (existsb (N.eqb x) l) eqn:E; [|reflexivity].
      apply existsb_exists in E as (y & Hy & Hxy). apply N.eqb_eq in Hxy. subst y.
      contradiction.
Qed.

Lemma consistent_spec (db : gorm.DB) :
  spec.consistent db <->
  NoDup (map ID (gorm.table db))
  /\ (forall r, In r (gorm.table db) -> (0 < ID r < gorm.auto_increment db)%N)
  /\ (0 < gorm.auto_increment db)%N.
Proof.
  unfold spec.consistent, spec.consistentb.
  rewrite !andb_true_iff, distinct_NoDup, forallb_forall, N.ltb_lt.
  split.
  - intros [[H1 H2] H3]. repeat split; try assumption; specialize (H2 r H);
      apply andb_true_iff in H2 as [Ha Hb]; apply N.ltb_lt in Ha, Hb; lia.
  - intros (H1 & H2 & H3). repeat split; try assumption.
    intros r Hr. specialize (H2 r Hr). apply andb_true_iff. split; apply N.ltb_lt; lia.
Qed.

(** No row of a consistent store carries the id the counter will issue. *)
Lemma fresh_auto_increment (db : gorm.DB) :
  spec.consistent db ->
  existsb (fun r => (ID r =? gorm.auto_increment db)%N) (gorm.table db) = false.
Proof.
  intros H. apply consistent_spec in H as (_ & Hlt & _).
  destruct (existsb _ _) eqn:E; [|reflexivity].
  apply existsb_exists in E as (r & Hr & Heq). apply N.eqb_eq in Heq.
  specialize (Hlt r Hr). lia.
Qed.

Lemma filter_absent (q : Transaction -> bool) (l : list Transaction) (id : N) :
  existsb (fun r => (ID r =? id)%N) l = false ->
  filter (fun r => (ID r =? id)%N) (filter q l) = [].
Proof.
  induction l as [|x l IH]; simpl; [reflexivity|].
  intros H. apply orb_false_iff in H as [Hx Hl].
  destruct (q x); simpl; [rewrite Hx|]; auto.
Qed.

(** ** Creating a transaction *)

Lemma validation_error_is_400 (details : string) :
  spec.is_error 400 "validation_error" (SendValidationError details).
Proof. split; [reflexivity | eexists; split; reflexivity]. Qed.

Lemma required_gt_rejects (req : TransactionRequest.t) :
  (TransactionRequest.Amount req <= 0)%Q \/ TransactionRequest.UserID req = 0%N ->
  validator.Struct_TransactionRequest req <> [].
Proof.
  unfold validator.Struct_TransactionRequest. intros [Hle | Hzero].
  - simpl. unfold validator.gt_float64.
    apply Qle_bool_iff in Hle. rewrite Hle. simpl.
    destruct (validator.required_uint _), (validator.required_float64 _); discriminate.
  - rewrite Hzero. simpl. discriminate.
Qed.

Lemma required_gt_accepts (req : TransactionRequest.t) :
  (0 < TransactionRequest.Amount req)%Q -> TransactionRequest.UserID req <> 0%N ->
  validator.Struct_TransactionRequest req = [].
Proof.
  intros Hpos Hid. unfold validator.Struct_TransactionRequest. simpl.
  unfold validator.required_uint, validator.required_float64, validator.gt_float64.
  apply N.eqb_neq in Hid. rewrite Hid. simpl.
  assert (Qeq_bool (TransactionRequest.Amount req) 0 = false) as ->.
  { destruct (Qeq_bool _ _) eqn:E; [|reflexivity].
    apply Qeq_bool_iff in E. rewrite E in Hpos. discriminate. }
  assert (Qle_bool (TransactionRequest.Amount req) 0 = false) as ->.
  { destruct (Qle_bool _ _) eqn:E; [|reflexivity].
    apply Qle_bool_iff in E. exfalso. apply (Qlt_not_le _ _ Hpos E). }
  reflexivity.
Qed.

(** C1.  A create request whose amount is not positive or whose user id is
    missing (zero) is answered 400 [validation_error] and leaves the store
    untouched, as does a body that does not bind.  A request with a positive
    amount and a non-zero user id, on a reachable store, is answered 201 with
    the created record: it carries the request's user id and amount, status
    [pending] and the next id, it is appended to the table, and it is what a
    fetch of that id returns. *)
Theorem create_transaction_validates_then_inserts :
  forall (db : gorm.DB) (now : time.Time) (req : TransactionRequest.t),
    ((TransactionRequest.Amount req <= 0)%Q \/ TransactionRequest.UserID req = 0%N ->
     fst (handlers.CreateTransaction db now (Ok req)) = db /\
     spec.is_error 400 "validation_error"
       (snd (handlers.CreateTransaction db now (Ok req))))
    /\
    (forall msg,
       fst (handlers.CreateTransaction db now (Err msg)) = db /\
       spec.is_error 400 "validation_error"
         (snd (handlers.CreateTransaction db now (Err msg))))
    /\
    ((0 < TransactionRequest.Amount req)%Q ->
     TransactionRequest.UserID req <> 0%N ->
     spec.available db -> spec.consistent db ->
     exists (t : Transaction) (db' : gorm.DB),
       handlers.CreateTransaction db now (Ok req)
       = (db', {| StatusCode := 201; Body := JSON_Transaction t |})
       /\ Status t = StatusPending
       /\ UserID t = TransactionRequest.UserID req
       /\ Amount t = TransactionRequest.Amount req
       /\ ID t = gorm.auto_increment db
       /\ CreatedAt t = now /\ UpdatedAt t = now /\ DeletedAt t = None
       /\ gorm.table db' = gorm.table db ++ [t]
       /\ services.GetTransactionByID db' (ID t) = Ok t).
Proof.
  intros db now req. split; [|split].
  - intros Hbad. apply required_gt_rejects in Hbad.
    unfold handlers.CreateTransaction.
    destruct (validator.Struct_TransactionRequest req) as [|fe ve]; [congruence|].
    simpl. split; [reflexivity | apply validation_error_is_400].
  - intros msg. simpl. split; [reflexivity | apply validation_error_is_400].
  - intros Hpos Hid Hup Hwf.
    unfold handlers.CreateTransaction. rewrite (required_gt_accepts req Hpos Hid).
    unfold services.CreateTransaction, gorm.Create. rewrite Hup. simpl.
    rewrite (fresh_auto_increment db Hwf). simpl.
    eexists. eexists. split; [reflexivity|]. simpl.
    repeat (split; [reflexivity|]).
    unfold services.GetTransactionByID, gorm.First, gorm.exec, gorm.Model. simpl.
    rewrite filter_app, filter_app. simpl. rewrite N.eqb_refl.
    rewrite (filter_absent _ _ _ (fresh_auto_increment db Hwf)). reflexivity.
Qed.

Lemma create_transaction_validates_then_inserts_witness :
  (fst (handlers.CreateTransaction gorm.empty 7
          (Ok (TransactionRequest.mk 5 (-1)%Q))) = gorm.empty /\
   spec.is_error 400 "validation_error"
     (snd (handlers.CreateTransaction gorm.empty 7
             (Ok (TransactionRequest.mk 5 (-1)%Q)))))
  /\
  exists (t : Transaction) (db' : gorm.DB),
    handlers.CreateTransaction gorm.empty 7 (Ok (TransactionRequest.mk 3 (5 # 2)%Q))
    = (db', {| StatusCode := 201; Body := JSON_Transaction t |})
    /\ Status t = StatusPending
    /\ UserID t = 3%N
    /\ Amount t = (5 # 2)%Q
    /\ ID t = 1%N
    /\ CreatedAt t = 7 /\ UpdatedAt t = 7 /\ DeletedAt t = None
    /\ gorm.table db' = [t]
    /\ services.GetTransactionByID db' (ID t) = Ok t.
Proof.
  split.
  - apply (proj1 (create_transaction_validates_then_inserts gorm.empty 7
                    (TransactionRequest.mk 5 (-1)%Q))).
    left. vm_compute. discriminate.
  - apply (proj2 (proj2 (create_transaction_validates_then_inserts gorm.empty 7
                           (TransactionRequest.mk 3 (5 # 2)%Q)))).
    + reflexivity.
    + discriminate.
    + reflexivity.
    + reflexivity.
Defined.

(** ** Parsing the path id *)

Section ParseUint.

Variable maxVal : N.
Hypothesis maxVal_fits : (maxVal <= strconv.maxUint64)%N.

(** [maxUint64/10 + 1], the smallest number whose tenfold overflows. *)
Let cutoff : N := 1844674407370955162%N.

Lemma digit_cases (c : ascii) :
  if spec.is_digit c
  then strconv.digit (N_of_ascii c) = Some (N_of_ascii c - 48)%N
       /\ (N_of_ascii c - 48 < 10)%N
  else match strconv.digit (N_of_ascii c) with
       | None => True
       | Some d => (10 <= d)%N
       end.
Proof.
  destruct c as [[] [] [] [] [] [] [] []]; vm_compute;
    first [exact I | split; reflexivity | discriminate].
Qed.

Lemma value_from_ge (s : string) (n : N) : (n <= spec.value_from n s)%N.
Proof.
  revert n. induction s as [|c s IH]; intros n; cbn [spec.value_from]; [lia|].
  specialize (IH (10 * n + (N_of_ascii c - 48))%N). lia.
Qed.

(** The loop returns the decimal value when it fits. *)
Lemma parse_digits_value (s : string) (n : N) :
  spec.all_digits s = true ->
  (spec.value_from n s <= maxVal)%N ->
  strconv.parse_digits 10 cutoff maxVal s n = Ok (spec.value_from n s).
Proof.
  revert n. induction s as [|c s IH]; intros n Hd Hv;
    cbn [spec.value_from spec.all_digits strconv.parse_digits] in *; [reflexivity|].
  apply andb_true_iff in Hd as [Hc Hs].
  pose proof (digit_cases c) as Hdc. rewrite Hc in Hdc. destruct Hdc as [-> Hlt].
  pose proof (value_from_ge s (10 * n + (N_of_ascii c - 48))%N) as Hge.
  unfold strconv.maxUint64 in maxVal_fits.
  assert ((10 <=? N_of_ascii c - 48)%N = false) as -> by (apply N.leb_gt; lia).
  assert ((cutoff <=? n)%N = false) as ->.
  { apply N.leb_gt. subst cutoff. lia. }
  unfold strconv.uint64.
  rewrite (N.mod_small (n * 10)) by lia.
  rewrite (N.mod_small (n * 10 + _)) by lia.
  assert ((n * 10 + (N_of_ascii c - 48) <? n * 10)%N = false) as -> by (apply N.ltb_ge; lia).
  assert ((maxVal <? n * 10 + (N_of_ascii c - 48))%N = false) as -> by (apply N.ltb_ge; lia).
  cbn [orb]. replace (n * 10)%N with (10 * n)%N by lia. apply IH; assumption.
Qed.

(** It fails on a numeral whose value does not fit. *)
Lemma parse_digits_range (s : string) (n : N) :
  spec.all_digits s = true -> (n <= maxVal)%N ->
  (maxVal < spec.value_from n s)%N ->
  strconv.parse_digits 10 cutoff maxVal s n = Err strconv.ErrRange.
Proof.
  revert n. induction s as [|c s IH]; intros n Hd Hn Hv;
    cbn [spec.value_from spec.all_digits strconv.parse_digits] in *; [lia|].
  apply andb_true_iff in Hd as [Hc Hs].
  pose proof (digit_cases c) as Hdc. rewrite Hc in Hdc. destruct Hdc as [-> Hlt].
  unfold strconv.maxUint64 in maxVal_fits.
  assert ((10 <=? N_of_ascii c - 48)%N = false) as -> by (apply N.leb_gt; lia).
  destruct (cutoff <=? n)%N eqn:Hcut; [reflexivity|].
  apply N.leb_gt in Hcut. subst cutoff.
  unfold strconv.uint64. rewrite (N.mod_small (n * 10)) by lia.
  set (d := (N_of_ascii c - 48)%N) in *.
  destruct (N.lt_ge_cases (n * 10 + d) 18446744073709551616) as [Hsmall | Hbig].
  - rewrite (N.mod_small (n * 10 + d)) by lia.
    assert ((n * 10 + d <? n * 10)%N = false) as -> by (apply N.ltb_ge; lia).
    destruct (maxVal <? n * 10 + d)%N eqn:Hmax; [reflexivity|]. cbn [orb].
    apply N.ltb_ge in Hmax. replace (n * 10)%N with (10 * n)%N in * by lia.
    apply IH; assumption.
  - assert ((n * 10 + d) mod 18446744073709551616
            = n * 10 + d - 18446744073709551616)%N as ->.
    { symmetry. apply (N.mod_unique _ _ 1); lia. }
    assert ((n * 10 + d - 18446744073709551616 <? n * 10)%N = true) as ->
        by (apply N.ltb_lt; lia).
    reflexivity.
Qed.

(** It fails on a string that holds anything but decimal digits. *)
Lemma parse_digits_syntax (s : string) (n : N) :
  spec.all_digits s = false ->
  exists e, strconv.parse_digits 10 cutoff maxVal s n = Err e.
Proof.
  revert n. induction s as [|c s IH]; intros n Hd;
    cbn [spec.all_digits strconv.parse_digits] in *; [discriminate|].
  pose proof (digit_cases c) as Hdc.
  destruct (spec.is_digit c) eqn:Hc; cbn [andb] in Hd.
  - destruct Hdc as [-> Hlt].
    destruct (10 <=? _)%N; [eexists; reflexivity|].
    destruct (cutoff <=? n)%N; [eexists; reflexivity|].
    destruct (_ || _); [eexists; reflexivity|].
    apply IH; assumption.
  - destruct (strconv.digit (N_of_ascii c)) as [d|]; [|eexists; reflexivity].
    assert ((10 <=? d)%N = true) as -> by (apply N.leb_le; assumption).
    eexists; reflexivity.
Qed.

End ParseUint.

Lemma cutoff_base_10 : (strconv.maxUint64 / 10 + 1)%N = 1844674407370955162%N.
Proof. vm_compute. reflexivity. Qed.

(** [ParseUint(s, 10, 32)] succeeds exactly on the decimal numerals of at
    most [2^32 - 1], with their value. *)
Lemma ParseUint_32_valid (s : string) :
  spec.valid_id s = true -> strconv.ParseUint s 32 = Ok (spec.decimal_value s).
Proof.
  unfold spec.valid_id, spec.is_decimal. rewrite !andb_true_iff, negb_true_iff.
  intros [[Hne Hd] Hv]. apply N.leb_le in Hv.
  destruct s as [|c s]; [discriminate|].
  unfold strconv.ParseUint.
  change (if (32 =? 0)%N then 64%N else 32%N) with 32%N.
  change (64 <? 32)%N with false. cbv iota zeta. rewrite cutoff_base_10.
  change (2 ^ 32 - 1)%N with 4294967295%N.
  apply (parse_digits_value 4294967295 ltac:(vm_compute; discriminate)); assumption.
Qed.

Lemma ParseUint_32_invalid (s : string) :
  spec.valid_id s = false -> exists e, strconv.ParseUint s 32 = Err e.
Proof.
  unfold spec.valid_id, spec.is_decimal. intros H.
  destruct s as [|c s]; [eexists; reflexivity|].
  unfold strconv.ParseUint.
  change (if (32 =? 0)%N then 64%N else 32%N) with 32%N.
  change (64 <? 32)%N with false. cbv iota zeta. rewrite cutoff_base_10.
  change (2 ^ 32 - 1)%N with 4294967295%N.
  change (negb (String c s =? "")%string) with true in H. rewrite andb_true_l in H.
  destruct (spec.all_digits (String c s)) eqn:Hd.
  - simpl in H. apply N.leb_gt in H. eexists.
    apply (parse_digits_range 4294967295 ltac:(vm_compute; discriminate));
      [assumption | lia | exact H].
  - apply (parse_digits_syntax 4294967295). assumption.
Qed.

(** C10.  The path id of the three id-bearing routes is read as an unsigned
    32-bit decimal integer: a decimal numeral of at most [2^32 - 1] parses
    to its value, and an id that is negative, not a decimal numeral, or
    above [2^32 - 1] is answered 400 [invalid_id], whatever the store holds
    and whether or not it is reachable, and the store is left as it was. *)
Theorem invalid_path_id_is_rejected_before_the_store :
  forall (idStr : string),
    (spec.valid_id idStr = true ->
     strconv.ParseUint idStr 32 = Ok (spec.decimal_value idStr)
     /\ (spec.decimal_value idStr <= 4294967295)%N)
    /\
    ((exists s', idStr = String "-" s')
     \/ spec.is_decimal idStr = false
     \/ (4294967295 < spec.decimal_value idStr)%N ->
     forall (db : gorm.DB) (now : time.Time)
            (body : handlers.bound TransactionUpdateRequest.t),
       let invalid_id := SendError 400 "invalid_id" ["Invalid transaction ID"] in
       spec.is_error 400 "invalid_id" invalid_id
       /\ handlers.GetTransactionByID db idStr = invalid_id
       /\ handlers.UpdateTransaction db now idStr body = (db, invalid_id)
       /\ handlers.DeleteTransaction db now idStr = (db, invalid_id)).
Proof.
  intros idStr. split.
  - intros Hv. split; [apply ParseUint_32_valid; assumption|].
    unfold spec.valid_id in Hv. apply andb_true_iff in Hv as [_ Hv].
    apply N.leb_le; assumption.
  - intros Hbad db now body.
    assert (spec.valid_id idStr = false) as Hinv.
    { unfold spec.valid_id. destruct Hbad as [[s' ->] | [Hnd | Hbig]].
      - reflexivity.
      - rewrite Hnd. reflexivity.
      - apply andb_false_iff. right. apply N.leb_gt. assumption. }
    destruct (ParseUint_32_invalid idStr Hinv) as [e He].
    unfold handlers.GetTransactionByID, handlers.UpdateTransaction,
      handlers.DeleteTransaction. rewrite He. cbv zeta.
    repeat split. eexists. split; reflexivity.
Qed.

Lemma invalid_path_id_is_rejected_before_the_store_witness :
  (strconv.ParseUint "0042" 32 = Ok 42%N)
  /\ handlers.GetTransactionByID gorm.empty "-1"
     = SendError 400 "invalid_id" ["Invalid transaction ID"]
  /\ handlers.UpdateTransaction gorm.empty 7 "12ab"
       (Ok (TransactionUpdateRequest.mk "success"))
     = (gorm.empty, SendError 400 "invalid_id" ["Invalid transaction ID"])
  /\ handlers.DeleteTransaction gorm.empty 7 "4294967296"
     = (gorm.empty, SendError 400 "invalid_id" ["Invalid transaction ID"]).
Proof.
  split; [|split; [|split]].
  - apply (proj1 (invalid_path_id_is_rejected_before_the_store "0042")). reflexivity.
  - destruct (proj2 (invalid_path_id_is_rejected_before_the_store "-1")
                (or_introl (ex_intro _ "1" eq_refl)) gorm.empty 7 (Err ""))
      as (_ & H & _ & _).
    exact H.
  - destruct (proj2 (invalid_path_id_is_rejected_before_the_store "12ab")
                (or_intror (or_introl eq_refl)) gorm.empty 7
                (Ok (TransactionUpdateRequest.mk "success")))
      as (_ & _ & H & _).
    exact H.
  - assert (4294967295 < spec.decimal_value "4294967296")%N as Hbig
        by (vm_compute; reflexivity).
    destruct (proj2 (invalid_path_id_is_rejected_before_the_store "4294967296")
                (or_intror (or_intror Hbig)) gorm.empty 7 (Err ""))
      as (_ & _ & _ & H).
    exact H.
Defined.

(** ** The health endpoint *)

(** C9.  GET /health answers 200 with status [healthy] for every state of
    the handler's store and every instant, and does so for a store whose
    connection is down, on which [Ping] fails: the handler does not consult
    the store. *)
Theorem health_check_is_unconditional :
  forall (db : gorm.DB) (now : time.Time),
    handlers.HealthCheck db now
    = {| StatusCode := 200;
         Body := JSON_H [("status", VString "healthy");
                         ("service", VString "transaction-api");
                         ("timestamp", VTime now)] |}
    /\
    forall (msg : string),
      let down := {| gorm.table := gorm.table db;
                     gorm.auto_increment := gorm.auto_increment db;
                     gorm.broken := Some msg |} in
      gorm.Ping down = Err (gorm.ErrDriver msg)
      /\ handlers.HealthCheck down now = handlers.HealthCheck db now.
Proof.
  intros db now. split; [reflexivity|]. intros msg. split; reflexivity.
Qed.

(** ** Status values *)

Lemma is_status_cases (s : string) :
  spec.is_status s = true <-> s = "pending" \/ s = "success" \/ s = "failed".
Proof.
  unfold spec.is_status. rewrite !orb_true_iff, !String.eqb_eq. tauto.
Qed.

Lemma oneof_is_status (s : string) :
  validator.oneof ["pending"; "success"; "failed"] s = spec.is_status s.
Proof.
  unfold validator.oneof, spec.is_status. simpl. rewrite orb_false_r, orb_assoc.
  reflexivity.
Qed.

Lemma update_request_validation (req : TransactionUpdateRequest.t) :
  if spec.is_status (TransactionUpdateRequest.Status req)
  then validator.Struct_TransactionUpdateRequest req = []
  else validator.Struct_TransactionUpdateRequest req <> [].
Proof.
  unfold validator.Struct_TransactionUpdateRequest. cbn [validator.check_field].
  rewrite oneof_is_status. unfold validator.required_string.
  destruct (spec.is_status _) eqn:Hs.
  - apply is_status_cases in Hs as [-> | [-> | ->]]; reflexivity.
  - destruct (negb _); discriminate.
Qed.

(** C4, as the code has it.  A list query that binds is accepted when its
    status is one of the strings [pending], [success] and [failed],
    compared case-sensitively, or is empty (no filter), and is answered 400
    [invalid_status] for any other status, without consulting the store; a
    query that does not bind is answered 400 [validation_error].  An update
    whose path id is no unsigned 32-bit decimal is answered 400 [invalid_id]
    whatever its body.  With a valid id, a body that does not bind is
    answered 400 [validation_error]; a body that binds is accepted for
    exactly the same three strings and answered 400 [validation_error] for
    any other status, the empty one included; the store is untouched
    whenever the request is refused. *)
Theorem status_values_accepted_by_list_and_update :
  forall (db : gorm.DB) (now : time.Time),
    (forall (bind_query : handlers.bound TransactionQuery.t),
       match bind_query with
       | Err err => handlers.GetTransactions db bind_query = SendValidationError err
       | Ok query =>
           (spec.is_status (TransactionQuery.Status query) = true
            \/ TransactionQuery.Status query = "" ->
            handlers.GetTransactions db (Ok query)
            = match services.GetTransactions db query with
              | Err err => SendError 500 "internal_server_error" [err]
              | Ok response =>
                  {| StatusCode := 200; Body := JSON_TransactionResponse response |}
              end)
           /\
           (spec.is_status (TransactionQuery.Status query) = false ->
            TransactionQuery.Status query <> "" ->
            handlers.GetTransactions db (Ok query)
            = SendError 400 "invalid_status"
                ["Status must be one of: pending, success, failed"])
       end)
    /\
    (forall (idStr : string) (body : handlers.bound TransactionUpdateRequest.t),
       (spec.valid_id idStr = false ->
        handlers.UpdateTransaction db now idStr body
        = (db, SendError 400 "invalid_id" ["Invalid transaction ID"]))
       /\
       (spec.valid_id idStr = true ->
        match body with
        | Err err =>
            handlers.UpdateTransaction db now idStr body = (db, SendValidationError err)
        | Ok req =>
            (spec.is_status (TransactionUpdateRequest.Status req) = true ->
             handlers.UpdateTransaction db now idStr (Ok req)
             = (fst (services.UpdateTransaction db now (spec.decimal_value idStr) req),
                match snd (services.UpdateTransaction db now
                             (spec.decimal_value idStr) req) with
                | Err err => handlers.service_error err
                | Ok transaction =>
                    {| StatusCode := 200; Body := JSON_Transaction transaction |}
                end))
            /\
            (spec.is_status (TransactionUpdateRequest.Status req) = false ->
             fst (handlers.UpdateTransaction db now idStr (Ok req)) = db
             /\ spec.is_error 400 "validation_error"
                  (snd (handlers.UpdateTransaction db now idStr (Ok req))))
        end)).
Proof.
  intros db now. split.
  - intros [query | err]; [|reflexivity].
    unfold handlers.GetTransactions, spec.is_status,
      StatusPending, StatusSuccess, StatusFailed.
    destruct (String.eqb_spec (TransactionQuery.Status query) "") as [He | He];
      destruct (TransactionQuery.Status query =? "pending")%string;
      destruct (TransactionQuery.Status query =? "success")%string;
      destruct (TransactionQuery.Status query =? "failed")%string;
      cbn [negb andb orb]; split; intros; try reflexivity;
      try discriminate; try contradiction; intuition discriminate.
  - intros idStr body. unfold handlers.UpdateTransaction. split; intros Hid.
    + destruct (ParseUint_32_invalid idStr Hid) as [e ->]. reflexivity.
    + rewrite (ParseUint_32_valid idStr Hid).
      destruct body as [req | err]; [|reflexivity].
      pose proof (update_request_validation req) as Hv.
      split; intros Hs; rewrite Hs in Hv.
      * rewrite Hv. destruct (services.UpdateTransaction _ _ _ _) as [db' [t | err]];
          reflexivity.
      * destruct (validator.Struct_TransactionUpdateRequest req); [congruence|].
        split; [reflexivity | apply validation_error_is_400].
Qed.

Lemma status_values_accepted_by_list_and_update_witness :
  handlers.GetTransactions gorm.empty (Ok (TransactionQuery.mk 0 "Pending" 0 0 0))
  = SendError 400 "invalid_status" ["Status must be one of: pending, success, failed"]
  /\ StatusCode (handlers.GetTransactions gorm.empty
                   (Ok (TransactionQuery.mk 0 "pending" 0 0 0))) = 200
  /\ spec.is_error 400 "validation_error"
       (snd (handlers.UpdateTransaction gorm.empty 7 "1"
               (Ok (TransactionUpdateRequest.mk "Pending"))))
  /\ StatusCode (snd (handlers.UpdateTransaction gorm.empty 7 "1"
                        (Ok (TransactionUpdateRequest.mk "failed")))) = 404
  /\ handlers.UpdateTransaction gorm.empty 7 "abc"
       (Ok (TransactionUpdateRequest.mk "bogus"))
     = (gorm.empty, SendError 400 "invalid_id" ["Invalid transaction ID"]).
Proof.
  destruct (status_values_accepted_by_list_and_update gorm.empty 7) as [Hlist Hupd].
  split; [|split; [|split; [|split]]].
  - apply (proj2 (Hlist (Ok (TransactionQuery.mk 0 "Pending" 0 0 0))));
      [reflexivity | discriminate].
  - rewrite (proj1 (Hlist (Ok (TransactionQuery.mk 0 "pending" 0 0 0)))
               (or_introl eq_refl)).
    reflexivity.
  - apply (proj2 (proj2 (Hupd "1" (Ok (TransactionUpdateRequest.mk "Pending"))) eq_refl)).
    reflexivity.
  - rewrite (proj1 (proj2 (Hupd "1" (Ok (TransactionUpdateRequest.mk "failed"))) eq_refl)
               eq_refl).
    reflexivity.
  - apply (proj1 (Hupd "abc" (Ok (TransactionUpdateRequest.mk "bogus")))).
    reflexivity.
Defined.

(** The update endpoint answers an unknown status with the error code
    [validation_error], not [invalid_status]. *)
Lemma update_unknown_status_is_not_invalid_status :
  ~ (forall (db : gorm.DB) (now : time.Time) (idStr : string)
            (req : TransactionUpdateRequest.t),
       spec.is_status (TransactionUpdateRequest.Status req) = false ->
       spec.is_error 400 "invalid_status"
         (snd (handlers.UpdateTransaction db now idStr (Ok req)))).
Proof.
  intros H.
  specialize (H gorm.empty 7 "1" (TransactionUpdateRequest.mk "invalid") eq_refl).
  destruct H as [_ (e & Hbody & Herr)]. vm_compute in Hbody.
  injection Hbody as <-. discriminate Herr.
Qed.

(** ** The dashboard summary *)

Lemma filter_filter_and {A} (p q : A -> bool) (l : list A) :
  filter q (filter p l) = filter (fun x => p x && q x) l.
Proof.
  induction l as [|x l IH]; simpl; [reflexivity|].
  destruct (p x); simpl; [destruct (q x)|]; rewrite IH; reflexivity.
Qed.

(** [Truncate(24h)] of an instant is the midnight of its UTC day. *)
Lemma truncate_is_midnight (now : time.Time) :
  spec.is_midnight_of now (time.Truncate now (24 * time.Hour)).
Proof.
  unfold spec.is_midnight_of, time.Truncate, spec.day.
  change (24 * time.Hour) with 86400000000000.
  change (24 * 3600 * 1000000000) with 86400000000000.
  change (86400000000000 <=? 0) with false. cbv iota.
  pose proof (Z.mod_pos_bound now 86400000000000 ltac:(lia)) as Hb.
  split; [|lia].
  exists (now / 86400000000000).
  pose proof (Z.div_mod now 86400000000000 ltac:(lia)). lia.
Qed.

Lemma midnight_unique (now m1 m2 : time.Time) :
  spec.is_midnight_of now m1 -> spec.is_midnight_of now m2 -> m1 = m2.
Proof.
  unfold spec.is_midnight_of, spec.day.
  change (24 * 3600 * 1000000000) with 86400000000000.
  intros [[k1 ->] H1] [[k2 ->] H2]. f_equal. lia.
Qed.

(** *** float64 arithmetic, where it is exact *)

Section Binary64.
Local Open Scope Q_scope.

Lemma pow2_pos (e : Z) : 0 < binary64.pow2 e.
Proof. apply Qpower_0_lt. reflexivity. Qed.

Lemma pow2_add (a b : Z) :
  binary64.pow2 (a + b) == binary64.pow2 a * binary64.pow2 b.
Proof. apply Qpower_plus. discriminate. Qed.

Lemma pow2_opp (a : Z) : binary64.pow2 (- a) == / binary64.pow2 a.
Proof. apply Qpower_opp. Qed.

Lemma pow2_Z (k : Z) : (0 <= k)%Z -> inject_Z (2 ^ k) == binary64.pow2 k.
Proof. intros Hk. apply (Zpower_Qpower 2 k Hk). Qed.

Lemma pow2_lt_inv (a b : Z) : binary64.pow2 a < binary64.pow2 b -> (a < b)%Z.
Proof. intros H. apply (Qpower_lt_compat_l_inv 2 a b H). reflexivity. Qed.

Lemma pow2_le (a b : Z) : (a <= b)%Z -> binary64.pow2 a <= binary64.pow2 b.
Proof. intros H. apply (Qpower_le_compat_l 2 a b H). discriminate. Qed.

(** [ilog2] does not exceed the binary logarithm. *)
Lemma ilog2_le (a : Q) : 0 < a -> binary64.pow2 (binary64.ilog2 a) <= a.
Proof.
  intros Ha. unfold binary64.ilog2.
  destruct (Qle_bool _ a) eqn:Hle; [apply Qle_bool_iff; exact Hle|].
  destruct a as [n d]. cbn [Qnum Qden].
  assert (0 < n)%Z as Hn by (unfold Qlt in Ha; cbn in Ha; lia).
  pose proof (Z.log2_spec n Hn) as [Hln _].
  pose proof (Z.log2_spec (Zpos d) ltac:(lia)) as [_ Hld].
  pose proof (Z.log2_nonneg n) as H0n.
  pose proof (Z.log2_nonneg (Zpos d)) as H0d.
  replace (Z.log2 n - Z.log2 (Zpos d) - 1)%Z
    with (Z.log2 n + - (Z.succ (Z.log2 (Zpos d))))%Z by lia.
  rewrite pow2_add, pow2_opp, <- !pow2_Z by lia.
  apply Qle_shift_div_r.
  - rewrite <- (Zlt_Qlt 0). lia.
  - unfold Qle. cbn [Qnum Qden Qmult inject_Z]. nia.
Qed.

Lemma rne_Z (x : Q) (z : Z) : x == inject_Z z -> binary64.rne x = z.
Proof.
  intros H. unfold binary64.rne.
  assert (Qfloor x = z) as -> by (rewrite H; apply Qfloor_Z).
  assert ((x - inject_Z z ?= 1 # 2) = Lt) as ->; [|reflexivity].
  apply Qlt_alt. rewrite H. unfold Qminus. rewrite Qplus_opp_r. reflexivity.
Qed.

(** Rounding leaves a non-negative multiple of [2^-k] below [2^(53-k)] as
    it is: such a number is a float64. *)
Lemma round_exact (q : Q) (n k : Z) :
  (0 <= k <= 1074)%Z -> (0 <= n < 2 ^ 53)%Z ->
  q * inject_Z (2 ^ k) == inject_Z n ->
  binary64.round q = binary64.Finite (Qred q).
Proof.
  intros Hk Hn H. rewrite pow2_Z in H by lia.
  pose proof (pow2_pos k) as Hpk.
  assert (q == inject_Z n * binary64.pow2 (- k)) as Hq.
  { rewrite pow2_opp, <- H. field. lra. }
  unfold binary64.round.
  destruct (Z.eq_dec n 0) as [-> | Hn0].
  - assert (q == 0) as Hz by (rewrite Hq; ring).
    rewrite (proj2 (Qeq_bool_iff q 0) Hz). f_equal.
    symmetry. apply (Qred_complete q 0 Hz).
  - assert (0 < q) as Hpos.
    { rewrite Hq. apply Qmult_lt_0_compat; [|apply pow2_pos].
      rewrite <- (Zlt_Qlt 0). lia. }
    assert (Qeq_bool q 0 = false) as ->.
    { destruct (Qeq_bool q 0) eqn:E; [|reflexivity].
      apply Qeq_bool_iff in E. lra. }
    assert (q < binary64.pow2 (53 - k)) as Hlt.
    { replace (53 - k)%Z with (53 + - k)%Z by lia.
      rewrite pow2_add, Hq. apply Qmult_lt_r; [apply pow2_pos|].
      rewrite <- (pow2_Z 53) by lia. rewrite <- Zlt_Qlt. lia. }
    assert (Qabs q == q) as Habs by (apply Qabs_pos; lra).
    assert (binary64.ilog2 (Qabs q) < 53 - k)%Z as Hlog.
    { apply pow2_lt_inv. eapply Qle_lt_trans; [apply ilog2_le; lra|].
      rewrite Habs. exact Hlt. }
    set (e := Z.max (-1074) (binary64.ilog2 (Qabs q) - 52)).
    assert (e <= - k)%Z as He by lia.
    assert (q / binary64.pow2 e == inject_Z (n * 2 ^ (- k - e))) as Hm.
    { rewrite inject_Z_mult, pow2_Z by lia.
      replace (- k - e)%Z with (- k + - e)%Z by lia.
      rewrite pow2_add, (pow2_opp e), Hq. field.
      pose proof (pow2_pos e). lra. }
    rewrite (rne_Z _ _ Hm).
    assert (inject_Z (n * 2 ^ (- k - e)) * binary64.pow2 e == q) as Hr.
    { rewrite <- Hm. field. pose proof (pow2_pos e). lra. }
    rewrite (Qred_complete _ _ Hr).
    assert (Qle_bool (binary64.pow2 1024) (Qabs (Qred q)) = false) as ->; [|reflexivity].
    destruct (Qle_bool _ _) eqn:E; [|reflexivity].
    apply Qle_bool_iff in E. rewrite Qred_correct, Habs in E.
    pose proof (pow2_le (53 - k) 1024 ltac:(lia)). lra.
Qed.

Lemma fits_spec (k : Z) (q : Q) :
  spec.fits k q = true ->
  (0 <= k <= 1074)%Z
  /\ exists n : Z, (0 <= n < 2 ^ 53)%Z /\ q * inject_Z (2 ^ k) == inject_Z n.
Proof.
  unfold spec.fits. rewrite !andb_true_iff, negb_true_iff.
  intros [[[[Hk0 Hk1] Hq] Hint] Hlt].
  apply Z.leb_le in Hk0, Hk1. apply Qle_bool_iff in Hq. apply Qeq_bool_iff in Hint.
  split; [lia|]. exists (Qfloor (q * inject_Z (2 ^ k))).
  split; [|symmetry; exact Hint].
  assert (0 <= q * inject_Z (2 ^ k)) as Hnn.
  { apply Qmult_le_0_compat; [exact Hq|]. rewrite <- (Zle_Qle 0). lia. }
  split.
  - rewrite (Zle_Qle 0), Hint. exact Hnn.
  - rewrite Zlt_Qlt, Hint. apply Qnot_le_lt. intros Hle.
    apply Qle_bool_iff in Hle. congruence.
Qed.

Lemma fits_intro (k n : Z) (q : Q) :
  (0 <= k <= 1074)%Z -> (0 <= n < 2 ^ 53)%Z ->
  q * inject_Z (2 ^ k) == inject_Z n -> spec.fits k q = true.
Proof.
  intros Hk Hn H. unfold spec.fits.
  assert (0 < inject_Z (2 ^ k)) as HK by (rewrite <- (Zlt_Qlt 0); lia).
  rewrite !andb_true_iff, negb_true_iff. repeat split.
  - apply Z.leb_le. lia.
  - apply Z.leb_le. lia.
  - apply Qle_bool_iff.
    assert (0 <= q * inject_Z (2 ^ k)) as Hnn
        by (rewrite H, <- (Zle_Qle 0); lia).
    apply Qnot_lt_le. intros Hneg.
    assert (q * inject_Z (2 ^ k) < 0 * inject_Z (2 ^ k)) as Hc
        by (apply Qmult_lt_r; assumption).
    lra.
  - apply Qeq_bool_iff.
    assert (Qfloor (q * inject_Z (2 ^ k)) = n) as -> by (rewrite H; apply Qfloor_Z).
    symmetry. exact H.
  - destruct (Qle_bool _ _) eqn:E; [|reflexivity].
    apply Qle_bool_iff in E. rewrite H, <- Zle_Qle in E. lia.
Qed.

Lemma exactly_eq (x : binary64.t) (p q : Q) :
  p == q -> binary64.exactly x p -> binary64.exactly x q.
Proof. destruct x; cbn; intros H H'; [rewrite H'; exact H | auto ..]. Qed.

Lemma exactly_finite (x : binary64.t) (q : Q) :
  binary64.exactly x q -> exists p, x = binary64.Finite p /\ p == q.
Proof. destruct x; cbn; intros H; [eexists; split; [reflexivity | exact H] | contradiction ..]. Qed.

Lemma sum_scaled_nonneg (K : Q) (l : list Transaction) :
  (forall r, In r l -> exists n : Z, (0 <= n)%Z /\ Amount r * K == inject_Z n) ->
  0 <= spec.sum_amount l * K.
Proof.
  induction l as [|x l IH]; intros H; cbn [spec.sum_amount fold_right].
  - lra.
  - destruct (H x (or_introl eq_refl)) as (n & Hn & Hx).
    specialize (IH (fun y Hy => H y (or_intror Hy))). fold (spec.sum_amount l).
    rewrite Zle_Qle in Hn. rewrite <- Hx in Hn. change (inject_Z 0) with 0 in Hn.
    setoid_replace ((Amount x + spec.sum_amount l) * K)
      with (Amount x * K + spec.sum_amount l * K) by ring.
    lra.
Qed.

(** The engine's running sum, started at [p], when neither an amount nor a
    partial sum needs rounding. *)
Lemma fold_add_exact (k : Z) (l : list Transaction) :
  (0 <= k <= 1074)%Z ->
  (forall r, In r l ->
     exists n : Z, (0 <= n)%Z /\ Amount r * inject_Z (2 ^ k) == inject_Z n) ->
  forall (p : Q) (m : Z),
    (0 <= m)%Z -> p * inject_Z (2 ^ k) == inject_Z m ->
    (p + spec.sum_amount l) * inject_Z (2 ^ k) < inject_Z (2 ^ 53) ->
    binary64.exactly
      (fold_left (fun acc x => binary64.add acc (binary64.round x)) (map Amount l)
         (binary64.Finite p))
      (p + spec.sum_amount l).
Proof.
  intros Hk. set (K := inject_Z (2 ^ k)).
  induction l as [|x l IH]; intros Hl p m Hm Hp Hlt;
    cbn [map fold_left spec.sum_amount fold_right].
  - cbn. lra.
  - fold (spec.sum_amount l) in *.
    destruct (Hl x (or_introl eq_refl)) as (n & Hn & Hx).
    pose proof (sum_scaled_nonneg K l (fun y Hy => Hl y (or_intror Hy))) as Hs.
    assert (inject_Z (m + n) < inject_Z (2 ^ 53)) as Hmn.
    { rewrite inject_Z_plus, <- Hp, <- Hx.
      cbn [spec.sum_amount fold_right] in Hlt. fold (spec.sum_amount l) in Hlt.
      setoid_replace ((p + (Amount x + spec.sum_amount l)) * K)
        with (p * K + Amount x * K + spec.sum_amount l * K) in Hlt by ring.
      lra. }
    rewrite <- Zlt_Qlt in Hmn.
    rewrite (round_exact (Amount x) n k Hk ltac:(lia) Hx).
    assert ((p + Qred (Amount x)) * K == inject_Z (m + n)) as Hpx.
    { rewrite Qred_correct, inject_Z_plus, <- Hp, <- Hx. ring. }
    change (binary64.add (binary64.Finite p) (binary64.Finite (Qred (Amount x))))
      with (binary64.round (p + Qred (Amount x))).
    rewrite (round_exact _ (m + n) k Hk ltac:(lia) Hpx).
    apply (exactly_eq _ (Qred (p + Qred (Amount x)) + spec.sum_amount l)).
    { rewrite !Qred_correct. ring. }
    apply (IH (fun y Hy => Hl y (or_intror Hy)) _ (m + n)%Z ltac:(lia)).
    + rewrite Qred_correct. exact Hpx.
    + rewrite !Qred_correct.
      cbn [spec.sum_amount fold_right] in Hlt. fold (spec.sum_amount l) in Hlt.
      setoid_replace ((p + Amount x + spec.sum_amount l) * K)
        with ((p + (Amount x + spec.sum_amount l)) * K) by ring.
      exact Hlt.
Qed.

Lemma exact_sum_spec (k : Z) (l : list Transaction) :
  spec.exact_sum k l = true ->
  (0 <= k <= 1074)%Z
  /\ (forall r, In r l ->
        exists n : Z, (0 <= n)%Z /\ Amount r * inject_Z (2 ^ k) == inject_Z n)
  /\ exists n : Z, (0 <= n < 2 ^ 53)%Z
                   /\ spec.sum_amount l * inject_Z (2 ^ k) == inject_Z n.
Proof.
  unfold spec.exact_sum. rewrite andb_true_iff. intros [Hall Hsum].
  apply fits_spec in Hsum as (Hk & n & Hn & Hs).
  split; [exact Hk|]. split; [|exists n; split; assumption].
  intros r Hr. rewrite forallb_forall in Hall.
  destruct (fits_spec _ _ (Hall r Hr)) as (_ & m & Hm & Hr').
  exists m. split; [lia | exact Hr'].
Qed.

(** A scanned SUM is the sum of the amounts when no addition rounds, and
    is [0] over no row. *)
Lemma scanned_SUM_exact (k : Z) (l : list Transaction) :
  spec.exact_sum k l = true ->
  binary64.exactly
    (match gorm.SUM (map Amount l) with Some x => x | None => binary64.Finite 0 end)
    (spec.sum_amount l).
Proof.
  intros H. apply exact_sum_spec in H as (Hk & Hall & n & Hn & Hs).
  destruct l as [|r l]; [reflexivity|].
  change (gorm.SUM (map Amount (r :: l)))
    with (Some (fold_left (fun acc x => binary64.add acc (binary64.round x))
                  (map Amount (r :: l)) (binary64.Finite 0))).
  cbv beta iota.
  apply (exactly_eq _ (0 + spec.sum_amount (r :: l))); [ring|].
  apply (fold_add_exact k (r :: l) Hk Hall 0 0%Z ltac:(lia)); [ring|].
  setoid_replace ((0 + spec.sum_amount (r :: l)) * inject_Z (2 ^ k))
    with (spec.sum_amount (r :: l) * inject_Z (2 ^ k)) by ring.
  rewrite Hs, <- Zlt_Qlt. lia.
Qed.

(** A scanned AVG is the mean of the amounts when there is a row, the sum
    is exact, the count is below [2^53] and the mean is a float64. *)
Lemma scanned_AVG_exact (k j : Z) (l : list Transaction) :
  l <> [] ->
  spec.exact_sum k l = true ->
  (Z.of_nat (length l) < 2 ^ 53)%Z ->
  spec.fits j (spec.mean_amount l) = true ->
  binary64.exactly
    (match gorm.AVG (map Amount l) with Some x => x | None => binary64.Finite 0 end)
    (spec.mean_amount l).
Proof.
  intros Hne Hsum Hlen Hmean.
  pose proof (scanned_SUM_exact k l Hsum) as Hs.
  unfold gorm.AVG. destruct l as [|r l]; [congruence|].
  change (gorm.SUM (map Amount (r :: l)))
    with (Some (fold_left (fun acc x => binary64.add acc (binary64.round x))
                  (map Amount (r :: l)) (binary64.Finite 0))) in *.
  cbv beta iota in Hs |- *.
  apply exactly_finite in Hs as (S & -> & HS).
  rewrite length_map. set (c := Z.of_nat (length (r :: l))) in *.
  assert (0 < c)%Z as Hc by (subst c; cbn [length]; lia).
  unfold binary64.of_int.
  rewrite (round_exact (inject_Z c) c 0 ltac:(lia) ltac:(lia))
    by (change (inject_Z (2 ^ 0)) with 1; ring).
  cbn [binary64.div].
  assert (0 < inject_Z c) as Hcq by (rewrite <- (Zlt_Qlt 0); exact Hc).
  assert (Qeq_bool (Qred (inject_Z c)) 0 = false) as ->.
  { destruct (Qeq_bool _ _) eqn:E; [|reflexivity].
    apply Qeq_bool_iff in E. rewrite Qred_correct in E. lra. }
  apply fits_spec in Hmean as (Hj & n & Hn & Hm).
  assert (S / Qred (inject_Z c) == spec.mean_amount (r :: l)) as Hq.
  { unfold spec.mean_amount. fold c. rewrite Qred_correct, HS. reflexivity. }
  rewrite (round_exact _ n j Hj Hn) by (rewrite Hq; exact Hm).
  cbn [binary64.exactly]. rewrite Qred_correct. exact Hq.
Qed.

(** A scanned SUM and a scanned AVG, as float64 sums over the rows. *)
Lemma scanned_SUM_float64 (l : list Transaction) :
  match gorm.SUM (map Amount l) with Some x => x | None => binary64.Finite 0 end
  = spec.float64_sum l.
Proof.
  assert (forall (l : list Transaction) (acc : binary64.t),
             fold_left (fun acc x => binary64.add acc (binary64.round x))
               (map Amount l) acc
             = fold_left (fun acc r => binary64.add acc (binary64.round (Amount r)))
                 l acc) as Hfold.
  { intros l'. induction l' as [|r l' IH]; intros acc; [reflexivity|].
    cbn [map fold_left]. apply IH. }
  destruct l as [|r l]; [reflexivity|].
  change (gorm.SUM (map Amount (r :: l)))
    with (Some (fold_left (fun acc x => binary64.add acc (binary64.round x))
                  (map Amount (r :: l)) (binary64.Finite 0))).
  cbv beta iota. apply Hfold.
Qed.

Lemma scanned_AVG_float64 (l : list Transaction) :
  l <> [] ->
  match gorm.AVG (map Amount l) with Some x => x | None => binary64.Finite 0 end
  = spec.float64_mean l.
Proof.
  intros Hne. pose proof (scanned_SUM_float64 l) as Hs.
  unfold gorm.AVG, spec.float64_mean. destruct l as [|r l]; [congruence|].
  change (gorm.SUM (map Amount (r :: l)))
    with (Some (fold_left (fun acc x => binary64.add acc (binary64.round x))
                  (map Amount (r :: l)) (binary64.Finite 0))) in *.
  cbv beta iota in Hs |- *. rewrite Hs, length_map. reflexivity.
Qed.

End Binary64.

(** What the summary holds on a reachable store, field by field. *)
Lemma GetDashboardSummary_available (db : gorm.DB) (now : time.Time) :
  spec.available db ->
  exists s,
    services.GetDashboardSummary db now = Ok s
    /\ DashboardSummary.TotalSuccessToday s
       = Z.of_nat (length (filter
           (fun r => spec.is_success r
                     && spec.in_day (time.Truncate now (24 * time.Hour)) r)
           (gorm.table db)))
    /\ DashboardSummary.TotalTransactions s
       = Z.of_nat (length (filter spec.liveb (gorm.table db)))
    /\ DashboardSummary.AverageAmountPerUser s
       = match gorm.AVG (map Amount (filter spec.is_success (gorm.table db))) with
         | Some x => x
         | None => binary64.Finite 0
         end
    /\ DashboardSummary.TotalAmount s
       = match gorm.SUM (map Amount (filter spec.is_success (gorm.table db))) with
         | Some x => x
         | None => binary64.Finite 0
         end
    /\ DashboardSummary.TotalAmountToday s
       = match gorm.SUM (map Amount (filter
           (fun r => spec.is_success r
                     && spec.in_day (time.Truncate now (24 * time.Hour)) r)
           (gorm.table db))) with
         | Some x => x
         | None => binary64.Finite 0
         end.
Proof.
  intros Hup. unfold services.GetDashboardSummary.
  unfold gorm.Count, gorm.Scan_float64, gorm.Group_status_COUNT, gorm.Find.
  rewrite !(exec_available db _ Hup). cbn [map_err bind].
  eexists. split; [reflexivity|].
  cbn [DashboardSummary.TotalSuccessToday DashboardSummary.TotalTransactions
       DashboardSummary.AverageAmountPerUser DashboardSummary.TotalAmount
       DashboardSummary.TotalAmountToday].
  unfold gorm.Select_SUM_amount, gorm.Select_AVG_amount, gorm.Where, gorm.Model.
  cbn [gorm.selected]. rewrite !filter_filter_and.
  assert (forall lo,
             filter (fun x => gorm.not_deleted x
                              && services.status_between StatusSuccess lo
                                   (time.Add lo (24 * time.Hour)) x) (gorm.table db)
             = filter (fun r => spec.is_success r && spec.in_day lo r) (gorm.table db))
    as Htoday.
  { intros lo. apply filter_ext. intros r.
    unfold services.status_between, spec.is_success, spec.in_day, time.Add,
      StatusSuccess, spec.day.
    rewrite not_deleted_liveb.
    change (24 * time.Hour) with (24 * 3600 * 1000000000).
    rewrite !andb_assoc. reflexivity. }
  rewrite !Htoday.
  repeat split; reflexivity.
Qed.

Lemma fixture_midnight : spec.is_midnight_of fixtures.now fixtures.today.
Proof.
  split; [exists 739000; reflexivity|]. vm_compute. split; [discriminate | reflexivity].
Qed.

(** C3, as the code has it.  On a reachable store the summary's
    [total_amount] is the float64 sum of the amounts of the live records
    with status [success], added one after the other in some order, and its
    [total_amount_today] that of those of them created within the UTC day
    of [now].  It is the sum of these amounts whenever that sum needs no
    rounding in float64: the amounts summed are non-negative multiples of
    one [2^-k], [0 <= k <= 1074], and their sum is below [2^(53-k)] (whole
    amounts adding up to less than [2^53], for one).  Each is [0], not a
    failure, when no record matches. *)
Theorem dashboard_total_amounts :
  forall (db : gorm.DB) (now : time.Time),
    spec.available db ->
    exists (s : DashboardSummary.t) (midnight : time.Time),
      services.GetDashboardSummary db now = Ok s
      /\ spec.is_midnight_of now midnight
      /\ (exists l : list Transaction,
            Permutation l (filter spec.is_success (gorm.table db))
            /\ DashboardSummary.TotalAmount s = spec.float64_sum l)
      /\ (exists l : list Transaction,
            Permutation l
              (filter (fun r => spec.is_success r && spec.in_day midnight r)
                 (gorm.table db))
            /\ DashboardSummary.TotalAmountToday s = spec.float64_sum l)
      /\ (forall k : Z,
            spec.exact_sum k (filter spec.is_success (gorm.table db)) = true ->
            binary64.exactly (DashboardSummary.TotalAmount s)
              (spec.sum_amount (filter spec.is_success (gorm.table db))))
      /\ (forall k : Z,
            spec.exact_sum k
              (filter (fun r => spec.is_success r && spec.in_day midnight r)
                 (gorm.table db)) = true ->
            binary64.exactly (DashboardSummary.TotalAmountToday s)
              (spec.sum_amount
                 (filter (fun r => spec.is_success r && spec.in_day midnight r)
                    (gorm.table db))))
      /\ (filter spec.is_success (gorm.table db) = [] ->
          DashboardSummary.TotalAmount s = binary64.Finite 0)
      /\ (filter (fun r => spec.is_success r && spec.in_day midnight r)
            (gorm.table db) = [] ->
          DashboardSummary.TotalAmountToday s = binary64.Finite 0).
Proof.
  intros db now Hup.
  destruct (GetDashboardSummary_available db now Hup)
    as (s & Hs & _ & _ & _ & Htotal & Htoday).
  exists s, (time.Truncate now (24 * time.Hour)).
  split; [exact Hs|]. split; [apply truncate_is_midnight|].
  rewrite Htotal, Htoday.
  split; [|split; [|split; [|split; [|split]]]].
  - eexists. split; [reflexivity | apply scanned_SUM_float64].
  - eexists. split; [reflexivity | apply scanned_SUM_float64].
  - intros k. apply scanned_SUM_exact.
  - intros k. apply scanned_SUM_exact.
  - intros ->. reflexivity.
  - intros ->. reflexivity.
Qed.

Lemma dashboard_total_amounts_witness :
  (exists s : DashboardSummary.t,
     services.GetDashboardSummary fixtures.five fixtures.now = Ok s
     /\ binary64.exactly (DashboardSummary.TotalAmount s) 600
     /\ binary64.exactly (DashboardSummary.TotalAmountToday s) 300)
  /\
  (exists s : DashboardSummary.t,
     services.GetDashboardSummary gorm.empty fixtures.now = Ok s
     /\ DashboardSummary.TotalAmount s = binary64.Finite 0
     /\ DashboardSummary.TotalAmountToday s = binary64.Finite 0).
Proof.
  split.
  - destruct (dashboard_total_amounts fixtures.five fixtures.now eq_refl)
      as (s & m & Hs & Hm & _ & _ & Htotal & Htoday & _).
    rewrite (midnight_unique _ _ _ Hm fixture_midnight) in Htoday.
    exists s. split; [exact Hs|]. split.
    + apply (Htotal 0). vm_compute. reflexivity.
    + apply (Htoday 0). vm_compute. reflexivity.
  - destruct (dashboard_total_amounts gorm.empty fixtures.now eq_refl)
      as (s & m & Hs & _ & _ & _ & _ & _ & Hnone & Hnone_today).
    exists s. split; [exact Hs|]. split; [apply Hnone | apply Hnone_today]; reflexivity.
Defined.

(** A sum that needs rounding is not what [total_amount] holds: over three
    successes of 0.1, 0.2 and 0.3 the sum of the three amounts is no
    float64. *)
Lemma total_amount_is_not_the_sum_when_it_rounds :
  ~ (forall (db : gorm.DB) (now : time.Time),
       spec.available db ->
       exists s : DashboardSummary.t,
         services.GetDashboardSummary db now = Ok s
         /\ binary64.exactly (DashboardSummary.TotalAmount s)
              (spec.sum_amount (filter spec.is_success (gorm.table db)))).
Proof.
  intros H. destruct (H fixtures.tenths fixtures.now eq_refl) as (s & Hs & Hsum).
  vm_compute in Hs. injection Hs as <-. vm_compute in Hsum. discriminate Hsum.
Qed.

Lemma rename_users_success (f : N -> N) (db : gorm.DB) :
  map Amount (filter spec.is_success (gorm.table (spec.rename_users f db)))
  = map Amount (filter spec.is_success (gorm.table db)).
Proof.
  unfold spec.rename_users. cbn [gorm.table].
  set (g := fun r : Transaction => mkTransaction _ _ _ _ _ _ _).
  induction (gorm.table db) as [|r l IH]; [reflexivity|].
  cbn [map filter].
  assert (spec.is_success (g r) = spec.is_success r) as -> by reflexivity.
  destruct (spec.is_success r); cbn [map]; rewrite IH; reflexivity.
Qed.

(** C7, as the code has it.  On a reachable store with at least one live
    [success] record, the summary's [average_amount_per_user] is the
    float64 sum of the amounts of the live [success] records, added in some
    order, divided in float64 by their number.  It is the arithmetic mean of
    those amounts whenever float64 computes it without rounding: the sum of
    those amounts is exact
    (they are non-negative multiples of one [2^-k], [0 <= k <= 1074], and
    add up to less than [2^(53-k)]), there are fewer than [2^53] of them, and
    the mean is itself a float64 (a multiple of some [2^-j] below
    [2^(53-j)]).  Users play no part in it: it is the same after any renaming
    of the user ids. *)
Theorem dashboard_average_is_mean_of_success_amounts :
  forall (db : gorm.DB) (now : time.Time),
    spec.available db ->
    filter spec.is_success (gorm.table db) <> [] ->
    exists s : DashboardSummary.t,
      services.GetDashboardSummary db now = Ok s
      /\ (exists l : list Transaction,
            Permutation l (filter spec.is_success (gorm.table db))
            /\ DashboardSummary.AverageAmountPerUser s = spec.float64_mean l)
      /\ (forall k j : Z,
            spec.exact_sum k (filter spec.is_success (gorm.table db)) = true ->
            Z.of_nat (length (filter spec.is_success (gorm.table db))) < 2 ^ 53 ->
            spec.fits j (spec.mean_amount (filter spec.is_success (gorm.table db)))
            = true ->
            binary64.exactly (DashboardSummary.AverageAmountPerUser s)
              (spec.mean_amount (filter spec.is_success (gorm.table db))))
      /\ forall f : N -> N,
           exists s' : DashboardSummary.t,
             services.GetDashboardSummary (spec.rename_users f db) now = Ok s'
             /\ DashboardSummary.AverageAmountPerUser s'
                = DashboardSummary.AverageAmountPerUser s.
Proof.
  intros db now Hup Hne.
  destruct (GetDashboardSummary_available db now Hup)
    as (s & Hs & _ & _ & Havg & _).
  exists s. split; [exact Hs|]. split; [|split].
  - eexists. split; [reflexivity|]. rewrite Havg.
    apply scanned_AVG_float64. exact Hne.
  - intros k j Hsum Hlen Hmean. rewrite Havg.
    apply (scanned_AVG_exact k j); assumption.
  - intros f.
    destruct (GetDashboardSummary_available (spec.rename_users f db) now Hup)
      as (s' & Hs' & _ & _ & Havg' & _).
    exists s'. split; [exact Hs'|].
    rewrite Havg', Havg, rename_users_success. reflexivity.
Qed.

Lemma dashboard_average_is_mean_of_success_amounts_witness :
  exists s : DashboardSummary.t,
    services.GetDashboardSummary fixtures.five fixtures.now = Ok s
    /\ binary64.exactly (DashboardSummary.AverageAmountPerUser s) 200.
Proof.
  destruct (dashboard_average_is_mean_of_success_amounts fixtures.five fixtures.now
              eq_refl ltac:(discriminate))
    as (s & Hs & _ & Hmean & _).
  exists s. split; [exact Hs|].
  apply (exactly_eq _ (spec.mean_amount
                         (filter spec.is_success (gorm.table fixtures.five))));
    [vm_compute; reflexivity|].
  apply (Hmean 0 0); vm_compute; reflexivity.
Defined.

(** A mean that float64 has to round is not what [average_amount_per_user]
    holds: over three successes of 0.1, 0.2 and 0.3. *)
Lemma average_is_not_the_mean_when_it_rounds :
  ~ (forall (db : gorm.DB) (now : time.Time),
       spec.available db ->
       filter spec.is_success (gorm.table db) <> [] ->
       exists s : DashboardSummary.t,
         services.GetDashboardSummary db now = Ok s
         /\ binary64.exactly (DashboardSummary.AverageAmountPerUser s)
              (spec.mean_amount (filter spec.is_success (gorm.table db)))).
Proof.
  intros H.
  destruct (H fixtures.tenths fixtures.now eq_refl ltac:(discriminate))
    as (s & Hs & Hmean).
  vm_compute in Hs. injection Hs as <-. vm_compute in Hmean. discriminate Hmean.
Qed.

(** C8.  On a reachable store, for every instant [now], the summary's
    [total_success_today] is the number of live records with status
    [success] whose [created_at] lies in [[midnight, midnight + 24h)], with
    [midnight] the start of the UTC day of [now]. *)
Theorem dashboard_total_success_today :
  forall (db : gorm.DB) (now : time.Time),
    spec.available db ->
    exists (s : DashboardSummary.t) (midnight : time.Time),
      services.GetDashboardSummary db now = Ok s
      /\ spec.is_midnight_of now midnight
      /\ DashboardSummary.TotalSuccessToday s
         = Z.of_nat (length (filter
             (fun r => spec.is_success r && spec.in_day midnight r)
             (gorm.table db))).
Proof.
  intros db now Hup.
  destruct (GetDashboardSummary_available db now Hup) as (s & Hs & Hcount & _).
  exists s, (time.Truncate now (24 * time.Hour)).
  split; [exact Hs|]. split; [apply truncate_is_midnight | exact Hcount].
Qed.

Lemma dashboard_total_success_today_witness :
  exists s : DashboardSummary.t,
    services.GetDashboardSummary fixtures.five fixtures.now = Ok s
    /\ DashboardSummary.TotalSuccessToday s = 2.
Proof.
  destruct (dashboard_total_success_today fixtures.five fixtures.now eq_refl)
    as (s & m & Hs & Hm & Hcount).
  rewrite (midnight_unique _ _ _ Hm fixture_midnight) in Hcount.
  exists s. split; [exact Hs|]. rewrite Hcount. reflexivity.
Defined.

(** ** Fetching, updating and soft-deleting one record *)

Lemma NoDup_ID_eq (l : list Transaction) (a b : Transaction) :
  NoDup (map ID l) -> In a l -> In b l -> ID a = ID b -> a = b.
Proof.
  induction l as [|x l IH]; simpl; [contradiction|].
  intros Hnd Ha Hb Hid. inversion Hnd as [|? ? Hx Hl]; subst.
  destruct Ha as [<- | Ha], Hb as [<- | Hb]; auto.
  - exfalso. apply Hx. rewrite Hid. apply in_map. assumption.
  - exfalso. apply Hx. rewrite <- Hid. apply in_map. assumption.
Qed.

(** In a table without duplicate ids, selecting by the id of a row that
    passes the scope returns that row alone. *)
Lemma filter_by_id (q : Transaction -> bool) (l : list Transaction) (old : Transaction) :
  NoDup (map ID l) -> In old l -> q old = true ->
  filter (fun r => (ID r =? ID old)%N) (filter q l) = [old].
Proof.
  induction l as [|x l IH]; simpl; [contradiction|].
  intros Hnd Hin Hq. inversion Hnd as [|? ? Hx Hl]; subst.
  destruct Hin as [-> | Hin].
  - rewrite Hq. simpl. rewrite N.eqb_refl. f_equal.
    apply filter_absent.
    destruct (existsb _ l) eqn:E; [|reflexivity].
    apply existsb_exists in E as (y & Hy & Heq). apply N.eqb_eq in Heq.
    exfalso. apply Hx. rewrite <- Heq. apply in_map. assumption.
  - assert ((ID x =? ID old)%N = false) as Hne.
    { apply N.eqb_neq. intros Heq. apply Hx. rewrite Heq. apply in_map. assumption. }
    destruct (q x); simpl; [rewrite Hne|]; apply IH; assumption.
Qed.

Lemma First_Model_found (db : gorm.DB) (old : Transaction) :
  spec.available db -> spec.consistent db ->
  In old (gorm.table db) -> DeletedAt old = None ->
  gorm.First db (gorm.Model db) (ID old) = Ok old.
Proof.
  intros Hup Hwf Hin Hlive. apply consistent_spec in Hwf as (Hnd & _).
  unfold gorm.First, gorm.Model. cbn [gorm.selected].
  rewrite (exec_available db _ Hup). cbn [bind].
  rewrite (filter_by_id gorm.not_deleted _ old Hnd Hin); [reflexivity|].
  unfold gorm.not_deleted. rewrite Hlive. reflexivity.
Qed.

Lemma First_Unscoped_found (db : gorm.DB) (r : Transaction) :
  spec.available db -> spec.consistent db -> In r (gorm.table db) ->
  gorm.First db (gorm.Unscoped db) (ID r) = Ok r.
Proof.
  intros Hup Hwf Hin. apply consistent_spec in Hwf as (Hnd & _).
  unfold gorm.First, gorm.Unscoped. cbn [gorm.selected].
  rewrite (exec_available db _ Hup). cbn [bind].
  pose proof (filter_by_id (fun _ => true) _ r Hnd Hin eq_refl) as H.
  replace (filter (fun _ => true) (gorm.table db)) with (gorm.table db) in H.
  - rewrite H. reflexivity.
  - clear. induction (gorm.table db) as [|x l IH]; simpl; [|rewrite <- IH]; reflexivity.
Qed.

Lemma First_Model_missing (db : gorm.DB) (id : N) :
  spec.available db ->
  (forall r, In r (gorm.table db) -> ID r = id -> DeletedAt r <> None) ->
  gorm.First db (gorm.Model db) id = Err gorm.ErrRecordNotFound.
Proof.
  intros Hup Hgone. unfold gorm.First, gorm.Model. cbn [gorm.selected].
  rewrite (exec_available db _ Hup). cbn [bind].
  rewrite filter_filter_and.
  destruct (filter _ (gorm.table db)) as [|r l] eqn:E; [reflexivity|].
  assert (In r (r :: l)) as Hr by (left; reflexivity).
  rewrite <- E in Hr. apply filter_In in Hr as [Hin Hp].
  apply andb_true_iff in Hp as [Hlive Hid]. apply N.eqb_eq in Hid.
  exfalso. apply (Hgone r Hin Hid).
  unfold gorm.not_deleted in Hlive. destruct (DeletedAt r); [discriminate | reflexivity].
Qed.

(** What [First] returns is a live row of the table with the id asked. *)
Lemma First_Model_inv (db : gorm.DB) (id : N) (t : Transaction) :
  gorm.First db (gorm.Model db) id = Ok t ->
  spec.available db /\ In t (gorm.table db) /\ ID t = id /\ DeletedAt t = None.
Proof.
  unfold gorm.First, gorm.exec, gorm.Model, spec.available. cbn [gorm.selected].
  destruct (gorm.broken db); [discriminate|]. cbn [bind].
  rewrite filter_filter_and.
  destruct (filter _ (gorm.table db)) as [|r l] eqn:E; [discriminate|].
  intros [= <-]. split; [reflexivity|].
  assert (In r (r :: l)) as Hr by (left; reflexivity).
  rewrite <- E in Hr. apply filter_In in Hr as [Hin Hp].
  apply andb_true_iff in Hp as [Hlive Hid]. apply N.eqb_eq in Hid.
  unfold gorm.not_deleted in Hlive.
  destruct (DeletedAt r) eqn:Hd; [discriminate|]. auto.
Qed.

(** In a consistent table, the rows an UPDATE ... WHERE id = ? AND
    deleted_at IS NULL touches are the rows with the id of a live row. *)
Lemma hit_by_id (db : gorm.DB) (old r : Transaction) :
  spec.consistent db -> In old (gorm.table db) -> DeletedAt old = None ->
  In r (gorm.table db) ->
  gorm.not_deleted r && (ID r =? ID old)%N = (ID r =? ID old)%N.
Proof.
  intros Hwf Hold Hlive Hr. apply consistent_spec in Hwf as (Hnd & _).
  destruct (N.eqb_spec (ID r) (ID old)) as [Heq | Hne];
    [|apply andb_false_r].
  rewrite (NoDup_ID_eq _ r old Hnd Hr Hold Heq).
  unfold gorm.not_deleted. rewrite Hlive. reflexivity.
Qed.

Lemma UpdateTransaction_found (db : gorm.DB) (now : time.Time)
  (req : TransactionUpdateRequest.t) (old : Transaction) :
  spec.available db -> spec.consistent db ->
  In old (gorm.table db) -> DeletedAt old = None ->
  let new := spec.updated_at now (TransactionUpdateRequest.Status req) old in
  services.UpdateTransaction db now (ID old) req
  = ({| gorm.table := map (fun r => if (ID r =? ID old)%N then new else r) (gorm.table db);
        gorm.auto_increment := gorm.auto_increment db;
        gorm.broken := None |}, Ok new).
Proof.
  intros Hup Hwf Hin Hlive new. unfold services.UpdateTransaction.
  rewrite (First_Model_found db old Hup Hwf Hin Hlive).
  unfold gorm.Save. cbn [ID].
  pose proof (proj1 (proj2 (proj1 (consistent_spec db) Hwf)) old Hin) as Hpos.
  assert ((ID old =? 0)%N = false) as -> by (apply N.eqb_neq; lia).
  rewrite Hup.
  assert (existsb (fun r => gorm.not_deleted r && (ID r =? ID old)%N) (gorm.table db)
          = true) as ->.
  { apply existsb_exists. exists old. split; [assumption|].
    unfold gorm.not_deleted. rewrite Hlive, N.eqb_refl. reflexivity. }
  cbn [map_err]. f_equal. f_equal.
  apply map_ext_in. intros r Hr.
  rewrite (hit_by_id db old r Hwf Hin Hlive Hr). reflexivity.
Qed.

Lemma DeleteTransaction_found (db : gorm.DB) (now : time.Time) (old : Transaction) :
  spec.available db -> spec.consistent db ->
  In old (gorm.table db) -> DeletedAt old = None ->
  services.DeleteTransaction db now (ID old)
  = ({| gorm.table := map (fun r => if (ID r =? ID old)%N
                                   then spec.deleted_at now old else r) (gorm.table db);
        gorm.auto_increment := gorm.auto_increment db;
        gorm.broken := None |}, Ok tt).
Proof.
  intros Hup Hwf Hin Hlive. unfold services.DeleteTransaction.
  rewrite (First_Model_found db old Hup Hwf Hin Hlive).
  unfold gorm.Delete.
  pose proof (proj1 (proj2 (proj1 (consistent_spec db) Hwf)) old Hin) as Hpos.
  assert ((ID old =? 0)%N = false) as -> by (apply N.eqb_neq; lia).
  rewrite Hup. cbn [map_err]. f_equal. f_equal.
  apply map_ext_in. intros r Hr.
  rewrite (hit_by_id db old r Hwf Hin Hlive Hr).
  destruct (N.eqb_spec (ID r) (ID old)) as [Heq | Hne]; [|reflexivity].
  apply consistent_spec in Hwf as (Hnd & _).
  rewrite (NoDup_ID_eq _ r old Hnd Hr Hin Heq). reflexivity.
Qed.

Lemma UpdateTransaction_missing (db : gorm.DB) (now : time.Time) (id : N)
  (req : TransactionUpdateRequest.t) :
  spec.available db ->
  (forall r, In r (gorm.table db) -> ID r = id -> DeletedAt r <> None) ->
  services.UpdateTransaction db now id req = (db, Err services.not_found).
Proof.
  intros Hup Hgone. unfold services.UpdateTransaction.
  rewrite (First_Model_missing db id Hup Hgone). reflexivity.
Qed.

Lemma DeleteTransaction_missing (db : gorm.DB) (now : time.Time) (id : N) :
  spec.available db ->
  (forall r, In r (gorm.table db) -> ID r = id -> DeletedAt r <> None) ->
  services.DeleteTransaction db now id = (db, Err services.not_found).
Proof.
  intros Hup Hgone. unfold services.DeleteTransaction.
  rewrite (First_Model_missing db id Hup Hgone). reflexivity.
Qed.

Lemma GetTransactionByID_missing (db : gorm.DB) (id : N) :
  spec.available db ->
  (forall r, In r (gorm.table db) -> ID r = id -> DeletedAt r <> None) ->
  services.GetTransactionByID db id = Err services.not_found.
Proof.
  intros Hup Hgone. unfold services.GetTransactionByID.
  rewrite (First_Model_missing db id Hup Hgone). reflexivity.
Qed.

(** Consistency is kept by a rewrite of rows that keeps their ids, and by
    an insert under the id the counter issues. *)
Lemma consistent_map_same_ids (db : gorm.DB) (g : Transaction -> Transaction)
  (b : option string) :
  spec.consistent db ->
  (forall r, In r (gorm.table db) -> ID (g r) = ID r) ->
  spec.consistent {| gorm.table := map g (gorm.table db);
                     gorm.auto_increment := gorm.auto_increment db;
                     gorm.broken := b |}.
Proof.
  intros Hwf Hg. apply consistent_spec in Hwf as (Hnd & Hlt & Hpos).
  apply consistent_spec. cbn [gorm.table gorm.auto_increment]. split; [|split].
  - rewrite map_map. rewrite (map_ext_in _ ID _ Hg). assumption.
  - intros r' Hr'. apply in_map_iff in Hr' as (r & <- & Hr).
    rewrite (Hg r Hr). auto.
  - assumption.
Qed.

Lemma consistent_append (db : gorm.DB) (t : Transaction) (b : option string) :
  spec.consistent db -> ID t = gorm.auto_increment db ->
  spec.consistent {| gorm.table := gorm.table db ++ [t];
                     gorm.auto_increment :=
                       N.max (gorm.auto_increment db) (ID t + 1);
                     gorm.broken := b |}.
Proof.
  intros Hwf Hid. apply consistent_spec in Hwf as (Hnd & Hlt & Hpos).
  apply consistent_spec. cbn [gorm.table gorm.auto_increment]. split; [|split].
  - rewrite map_app. apply NoDup_app; [assumption | repeat constructor; simpl; tauto|].
    intros a Ha [<- | []]. apply in_map_iff in Ha as (r & Hr & Hin).
    specialize (Hlt r Hin). lia.
  - intros r Hr. apply in_app_or in Hr as [Hr | [<- | []]].
    + specialize (Hlt r Hr). lia.
    + lia.
  - lia.
Qed.

(** The invariant behind "deleted stays deleted": the store is reachable
    and consistent and still holds the soft-deleted row [gone]. *)
Section Gone.

Variable gone : Transaction.
Hypothesis gone_deleted : DeletedAt gone <> None.

Let holds (db : gorm.DB) : Prop :=
  spec.available db /\ spec.consistent db /\ In gone (gorm.table db).

Lemma gone_not_hit (db : gorm.DB) (t : Transaction) :
  holds db -> In t (gorm.table db) -> DeletedAt t = None ->
  (ID gone =? ID t)%N = false.
Proof.
  intros (_ & Hwf & Hin) Ht Hlive. apply consistent_spec in Hwf as (Hnd & _).
  apply N.eqb_neq. intros Heq.
  apply gone_deleted. rewrite (NoDup_ID_eq _ gone t Hnd Hin Ht Heq). assumption.
Qed.

Lemma after_call_holds (db : gorm.DB) (c : time.Time * spec.call) :
  holds db -> holds (spec.after_call db c).
Proof.
  intros Hdb. pose proof Hdb as (Hup & Hwf & Hin).
  destruct c as [now [req | id | query | id req | id | ]]; cbn [spec.after_call];
    try assumption.
  - unfold services.CreateTransaction, gorm.Create. rewrite Hup. cbn [ID].
    change (0 =? 0)%N with true. cbv iota.
    rewrite (fresh_auto_increment db Hwf). cbn [fst].
    split; [reflexivity|]. split.
    + apply (consistent_append db); [assumption | reflexivity].
    + cbn [gorm.table]. apply in_or_app. left. assumption.
  - destruct (gorm.First db (gorm.Model db) id) as [t | err] eqn:Hfirst.
    + apply First_Model_inv in Hfirst as (_ & Ht & <- & Hlive).
      rewrite (UpdateTransaction_found db now req t Hup Hwf Ht Hlive). cbn [fst].
      split; [reflexivity|]. split.
      * apply consistent_map_same_ids; [assumption|].
        intros r Hr. destruct (N.eqb_spec (ID r) (ID t)) as [-> | _]; reflexivity.
      * cbn [gorm.table]. apply in_map_iff. exists gone.
        rewrite (gone_not_hit db t Hdb Ht Hlive). auto.
    + unfold services.UpdateTransaction. rewrite Hfirst. assumption.
  - destruct (gorm.First db (gorm.Model db) id) as [t | err] eqn:Hfirst.
    + apply First_Model_inv in Hfirst as (_ & Ht & <- & Hlive).
      rewrite (DeleteTransaction_found db now t Hup Hwf Ht Hlive). cbn [fst].
      split; [reflexivity|]. split.
      * apply consistent_map_same_ids; [assumption|].
        intros r Hr. destruct (N.eqb_spec (ID r) (ID t)) as [-> | _]; reflexivity.
      * cbn [gorm.table]. apply in_map_iff. exists gone.
        rewrite (gone_not_hit db t Hdb Ht Hlive). auto.
    + unfold services.DeleteTransaction. rewrite Hfirst. assumption.
Qed.

Lemma after_calls_holds (cs : list (time.Time * spec.call)) (db : gorm.DB) :
  holds db -> holds (spec.after_calls db cs).
Proof.
  revert db. induction cs as [|c cs IH]; intros db Hdb; [assumption|].
  apply IH, after_call_holds, Hdb.
Qed.

(** While the invariant holds, the id of [gone] resolves to no live row. *)
Lemma gone_is_missing (db : gorm.DB) :
  holds db ->
  forall r, In r (gorm.table db) -> ID r = ID gone -> DeletedAt r <> None.
Proof.
  intros (_ & Hwf & Hin) r Hr Heq. apply consistent_spec in Hwf as (Hnd & _).
  rewrite (NoDup_ID_eq _ r gone Hnd Hr Hin Heq). assumption.
Qed.

Lemma gone_stays_gone (db : gorm.DB) (cs : list (time.Time * spec.call)) :
  spec.available db -> spec.consistent db -> In gone (gorm.table db) ->
  let db' := spec.after_calls db cs in
  forall (now : time.Time) (req : TransactionUpdateRequest.t),
    services.GetTransactionByID db' (ID gone) = Err services.not_found
    /\ services.UpdateTransaction db' now (ID gone) req = (db', Err services.not_found)
    /\ services.DeleteTransaction db' now (ID gone) = (db', Err services.not_found)
    /\ gorm.First db' (gorm.Unscoped db') (ID gone) = Ok gone.
Proof.
  intros Hup Hwf Hin db' now req.
  assert (holds db') as Hdb' by (apply after_calls_holds; repeat split; assumption).
  pose proof (gone_is_missing db' Hdb') as Hmissing.
  destruct Hdb' as (Hup' & Hwf' & Hin').
  split; [|split; [|split]].
  - apply GetTransactionByID_missing; assumption.
  - apply UpdateTransaction_missing; assumption.
  - apply DeleteTransaction_missing; assumption.
  - apply First_Unscoped_found; assumption.
Qed.

End Gone.

Lemma not_found_is_404 :
  spec.is_error 404 "not_found" (handlers.service_error services.not_found).
Proof. split; [reflexivity | eexists; split; reflexivity]. Qed.

(** C5.  On a reachable, consistent store, updating the id of a live
    record returns and stores that record with [status] replaced by the new
    status and [updated_at] set to the time of the update; its id, user id,
    amount and creation time are as before, it stays live, and every row
    with another id is untouched.  Updating an id that no live record
    carries (absent or soft-deleted) fails with "transaction not found",
    which the handler answers 404 [not_found], and leaves the store as it
    was. *)
Theorem update_changes_only_status :
  forall (db : gorm.DB) (now : time.Time) (id : N) (req : TransactionUpdateRequest.t),
    spec.available db -> spec.consistent db ->
    (forall old : Transaction,
       In old (gorm.table db) -> ID old = id -> DeletedAt old = None ->
       exists (db' : gorm.DB) (new : Transaction),
         services.UpdateTransaction db now id req = (db', Ok new)
         /\ Status new = TransactionUpdateRequest.Status req
         /\ UpdatedAt new = now
         /\ ID new = ID old /\ UserID new = UserID old /\ Amount new = Amount old
         /\ CreatedAt new = CreatedAt old /\ DeletedAt new = None
         /\ gorm.table db'
            = map (fun r => if (ID r =? id)%N then new else r) (gorm.table db)
         /\ services.GetTransactionByID db' id = Ok new)
    /\
    ((forall r, In r (gorm.table db) -> ID r = id -> DeletedAt r <> None) ->
     services.UpdateTransaction db now id req = (db, Err "transaction not found")
     /\ spec.is_error 404 "not_found" (handlers.service_error "transaction not found")).
Proof.
  intros db now id req Hup Hwf. split.
  - intros old Hin <- Hlive.
    pose proof (UpdateTransaction_found db now req old Hup Hwf Hin Hlive) as Hupd.
    cbv zeta in Hupd.
    set (new := spec.updated_at now (TransactionUpdateRequest.Status req) old) in *.
    eexists. exists new. split; [exact Hupd|].
    repeat (split; [first [reflexivity | assumption]|]).
    unfold services.GetTransactionByID.
    match goal with
    | |- context [gorm.First ?d _ _] =>
        assert (gorm.First d (gorm.Model d) (ID new) = Ok new) as Hfirst
    end.
    { apply First_Model_found; [reflexivity | | | assumption].
      - apply consistent_map_same_ids; [assumption|].
        intros r Hr. destruct (N.eqb_spec (ID r) (ID old)) as [-> | _]; reflexivity.
      - cbn [gorm.table]. apply in_map_iff. exists old. rewrite N.eqb_refl. auto. }
    change (ID new) with (ID old) in Hfirst. rewrite Hfirst. reflexivity.
  - intros Hgone. split; [|apply not_found_is_404].
    apply UpdateTransaction_missing; assumption.
Qed.

Lemma update_changes_only_status_witness :
  (exists db' : gorm.DB,
     services.UpdateTransaction fixtures.five fixtures.now 4
       (TransactionUpdateRequest.mk "success")
     = (db', Ok {| ID := 4; UserID := 2; Amount := 400; Status := "success";
                   CreatedAt := fixtures.today + 3 * time.Hour;
                   UpdatedAt := fixtures.now; DeletedAt := None |}))
  /\ services.UpdateTransaction fixtures.five fixtures.now 9
       (TransactionUpdateRequest.mk "success")
     = (fixtures.five, Err "transaction not found").
Proof.
  destruct (update_changes_only_status fixtures.five fixtures.now 4
              (TransactionUpdateRequest.mk "success") eq_refl eq_refl) as [Hfound _].
  destruct (update_changes_only_status fixtures.five fixtures.now 9
              (TransactionUpdateRequest.mk "success") eq_refl eq_refl) as [_ Hmissing].
  split.
  - destruct (Hfound (fixtures.row 4 2 400 "pending" (fixtures.today + 3 * time.Hour)))
      as (db' & new & Hupd & Hst & Hupdated & Hid & Huser & Hamount & Hcreated & Hlive & _).
    + simpl. tauto.
    + reflexivity.
    + reflexivity.
    + exists db'. rewrite Hupd. f_equal. f_equal.
      destruct new; simpl in *; subst; reflexivity.
  - apply Hmissing. intros r Hr Hid. exfalso.
    simpl in Hr. decompose [or] Hr; subst; try discriminate; assumption.
Defined.

(** C6.  On a reachable, consistent store, deleting an id that no live
    record carries fails with "transaction not found".  After a delete that
    succeeds, and after any further calls of the service, a fetch, an update
    and a delete of that id all fail with "transaction not found" (404
    [not_found] at the handler), while an unscoped query still returns the
    row, unchanged but for its deletion time. *)
Theorem deleted_record_is_not_found_but_kept :
  forall (db : gorm.DB) (now : time.Time) (id : N),
    spec.available db -> spec.consistent db ->
    ((forall r, In r (gorm.table db) -> ID r = id -> DeletedAt r <> None) ->
     services.DeleteTransaction db now id = (db, Err services.not_found))
    /\ spec.is_error 404 "not_found" (handlers.service_error services.not_found)
    /\
    (forall db' : gorm.DB,
       services.DeleteTransaction db now id = (db', Ok tt) ->
       exists old : Transaction,
         In old (gorm.table db) /\ ID old = id /\ DeletedAt old = None
         /\ forall (later : list (time.Time * spec.call)) (now' : time.Time)
                   (req : TransactionUpdateRequest.t),
              let db'' := spec.after_calls db' later in
              services.GetTransactionByID db'' id = Err services.not_found
              /\ services.UpdateTransaction db'' now' id req
                 = (db'', Err services.not_found)
              /\ services.DeleteTransaction db'' now' id
                 = (db'', Err services.not_found)
              /\ gorm.First db'' (gorm.Unscoped db'') id
                 = Ok (spec.deleted_at now old)).
Proof.
  intros db now id Hup Hwf. split; [|split].
  - intros Hgone. apply DeleteTransaction_missing; assumption.
  - apply not_found_is_404.
  - intros db' Hdel.
    destruct (gorm.First db (gorm.Model db) id) as [old | err] eqn:Hfirst.
    + apply First_Model_inv in Hfirst as (_ & Hin & <- & Hlive).
      rewrite (DeleteTransaction_found db now old Hup Hwf Hin Hlive) in Hdel.
      injection Hdel as <-.
      exists old. repeat (split; [first [reflexivity | assumption]|]).
      intros later now' req.
      apply (gone_stays_gone (spec.deleted_at now old)).
      * discriminate.
      * reflexivity.
      * apply consistent_map_same_ids; [assumption|].
        intros r Hr. destruct (N.eqb_spec (ID r) (ID old)) as [-> | _]; reflexivity.
      * cbn [gorm.table]. apply in_map_iff. exists old. rewrite N.eqb_refl. auto.
    + unfold services.DeleteTransaction in Hdel. rewrite Hfirst in Hdel.
      discriminate Hdel.
Qed.

Lemma deleted_record_is_not_found_but_kept_witness :
  let db' := fst (services.DeleteTransaction fixtures.five fixtures.now 2) in
  let db'' :=
    spec.after_calls db'
      [ (fixtures.now + 1, spec.CallCreate (TransactionRequest.mk 7 (25 # 1)));
        (fixtures.now + 2, spec.CallUpdate 2 (TransactionUpdateRequest.mk "failed"));
        (fixtures.now + 3, spec.CallDelete 1) ] in
  services.DeleteTransaction fixtures.five fixtures.now 9
  = (fixtures.five, Err "transaction not found")
  /\ services.GetTransactionByID db'' 2 = Err "transaction not found"
  /\ gorm.First db'' (gorm.Unscoped db'') 2
     = Ok {| ID := 2; UserID := 1; Amount := 200; Status := "success";
             CreatedAt := fixtures.today + 2 * time.Hour;
             UpdatedAt := fixtures.today + 2 * time.Hour;
             DeletedAt := Some fixtures.now |}.
Proof.
  intros db' db''. split.
  - apply (proj1 (deleted_record_is_not_found_but_kept fixtures.five fixtures.now 9
                    eq_refl eq_refl)).
    intros r Hr Hid. exfalso.
    simpl in Hr. decompose [or] Hr; subst; try discriminate; assumption.
  - destruct (proj2 (proj2 (deleted_record_is_not_found_but_kept fixtures.five
                              fixtures.now 2 eq_refl eq_refl)) db' eq_refl)
      as (old & Hin & Hid & Hlive & Hlater).
    destruct (Hlater
                [ (fixtures.now + 1, spec.CallCreate (TransactionRequest.mk 7 (25 # 1)));
                  (fixtures.now + 2, spec.CallUpdate 2 (TransactionUpdateRequest.mk "failed"));
                  (fixtures.now + 3, spec.CallDelete 1) ]
                fixtures.now (TransactionUpdateRequest.mk "failed"))
      as (Hget & _ & _ & Hkept).
    split; [exact Hget|]. fold db'' in Hkept. rewrite Hkept. f_equal.
    simpl in Hin. decompose [or] Hin; subst; try discriminate; try contradiction;
      reflexivity.
Defined.

(** ** Listing *)

Lemma insert_desc_In (r x : Transaction) (l : list Transaction) :
  In x (gorm.insert_desc r l) <-> x = r \/ In x l.
Proof.
  induction l as [|y l IH]; simpl; [intuition|].
  destruct (CreatedAt y <=? CreatedAt r); simpl; rewrite ?IH; intuition.
Qed.

Lemma insert_desc_sorted (r : Transaction) (l : list Transaction) :
  StronglySorted spec.newer_first l ->
  StronglySorted spec.newer_first (gorm.insert_desc r l).
Proof.
  induction 1 as [|y l Hl IH Hy]; simpl; [repeat constructor|].
  destruct (CreatedAt y <=? CreatedAt r) eqn:E.
  - apply Z.leb_le in E. constructor; [constructor; assumption|].
    constructor; [exact E|].
    eapply Forall_impl; [|exact Hy]. unfold spec.newer_first. intros; lia.
  - apply Z.leb_gt in E. constructor; [assumption|].
    apply Forall_forall. intros x Hx. apply insert_desc_In in Hx as [-> | Hx].
    + unfold spec.newer_first. lia.
    + rewrite Forall_forall in Hy. auto.
Qed.

Lemma sort_desc_sorted (l : list Transaction) :
  StronglySorted spec.newer_first (gorm.sort_desc l).
Proof.
  induction l as [|r l IH]; simpl; [constructor | apply insert_desc_sorted, IH].
Qed.

Lemma insert_desc_perm (r : Transaction) (l : list Transaction) :
  Permutation (gorm.insert_desc r l) (r :: l).
Proof.
  induction l as [|y l IH]; simpl; [reflexivity|].
  destruct (CreatedAt y <=? CreatedAt r); [reflexivity|].
  rewrite IH. apply perm_swap.
Qed.

Lemma sort_desc_perm (l : list Transaction) : Permutation (gorm.sort_desc l) l.
Proof.
  induction l as [|r l IH]; simpl; [reflexivity|].
  rewrite insert_desc_perm, IH. reflexivity.
Qed.

Lemma sorted_skipn (n : nat) (l : list Transaction) :
  StronglySorted spec.newer_first l -> StronglySorted spec.newer_first (skipn n l).
Proof.
  revert l. induction n as [|n IH]; intros l Hl; [assumption|].
  destruct l as [|x l]; [constructor|]. inversion Hl; subst. simpl. auto.
Qed.

Lemma sorted_firstn (n : nat) (l : list Transaction) :
  StronglySorted spec.newer_first l -> StronglySorted spec.newer_first (firstn n l).
Proof.
  revert l. induction n as [|n IH]; intros l Hl; [constructor|].
  destruct l as [|x l]; [constructor|]. inversion Hl as [|? ? Hs Hf]; subst. simpl.
  constructor; [auto|].
  apply Forall_forall. intros y Hy. rewrite Forall_forall in Hf.
  apply Hf. revert Hy. clear. revert l. induction n as [|n IHn]; intros [|z l]; simpl;
    try tauto. intros [-> | H]; auto.
Qed.

(** No wrap-around on a value that fits 64 bits. *)
Lemma int_fits (z : Z) :
  - 2 ^ 63 <= z < 2 ^ 63 -> services.int z = z.
Proof.
  intros Hz. unfold services.int.
  rewrite Z.mod_small; lia.
Qed.

(** The page count is the least number of pages of [limit] records that
    hold [total] records. *)
Lemma totalPages_is_ceiling (total limit : Z) :
  0 <= total -> 0 < limit ->
  let totalPages :=
    services.int_of_float64
      (services.math_Ceil (services.float64 total / services.float64 limit)) in
  limit * (totalPages - 1) < total <= limit * totalPages
  /\ (total = 0 -> totalPages = 0).
Proof.
  intros Htotal Hlimit totalPages.
  assert (totalPages = - (- total / limit)) as ->.
  { subst totalPages. unfold services.int_of_float64, services.math_Ceil.
    assert (forall k, (if Qle_bool 0 (inject_Z k) then Qfloor (inject_Z k)
                       else Qceiling (inject_Z k)) = k) as ->.
    { intros k. destruct (Qle_bool _ _); [apply Qfloor_Z | apply Qceiling_Z]. }
    unfold Qceiling. f_equal. unfold services.float64.
    rewrite (Zdiv_Qdiv (- total) limit). apply Qfloor_comp.
    rewrite inject_Z_opp. unfold Qdiv. ring. }
  pose proof (Z.div_mod (- total) limit ltac:(lia)) as Hdm.
  pose proof (Z.mod_pos_bound (- total) limit Hlimit) as Hb.
  split; [nia|]. intros ->. change (- 0) with 0. rewrite Z.div_0_l; lia.
Qed.

(** The WHERE clauses of a list query select the matching live rows. *)
Lemma list_query_selected (db : gorm.DB) (query : TransactionQuery.t) :
  let q := gorm.Model db in
  let q := if (TransactionQuery.UserID query =? 0)%N then q
           else gorm.Where (fun r => (UserID r =? TransactionQuery.UserID query)%N) q in
  let q := if String.eqb (TransactionQuery.Status query) "" then q
           else gorm.Where (fun r => String.eqb (Status r) (TransactionQuery.Status query)) q in
  q = {| gorm.selected := filter (spec.matches query) (gorm.table db);
         gorm.order_created_at_desc := false; gorm.offset := 0; gorm.limit := None |}.
Proof.
  cbv zeta. unfold spec.matches.
  destruct (TransactionQuery.UserID query =? 0)%N,
           (String.eqb (TransactionQuery.Status query) "");
    unfold gorm.Where, gorm.Model; cbn [gorm.selected gorm.order_created_at_desc
                                         gorm.offset gorm.limit];
    rewrite ?filter_filter_and; f_equal; apply filter_ext; intros r;
    rewrite ?not_deleted_liveb; cbn [orb]; rewrite ?andb_true_r, ?andb_assoc;
    reflexivity.
Qed.

(** Pagination whenever the offset fits Go's [int]: defaults, the page of
    at most [limit] records taken newest first at offset
    [(page - 1) * limit], the total of all matching records, and the page
    count. *)
Lemma GetTransactions_page (db : gorm.DB) (query : TransactionQuery.t) :
  spec.available db ->
  let limit := if TransactionQuery.Limit query <=? 0 then 10
               else TransactionQuery.Limit query in
  let page := if TransactionQuery.Page query <=? 0 then 1
              else TransactionQuery.Page query in
  (page - 1) * limit < 2 ^ 63 ->
  exists resp : TransactionResponse.t,
    services.GetTransactions db query = Ok resp
    /\ TransactionResponse.Page resp = page
    /\ TransactionResponse.Limit resp = limit
    /\ TransactionResponse.Total resp
       = Z.of_nat (length (filter (spec.matches query) (gorm.table db)))
    /\ TransactionResponse.Data resp
       = firstn (Z.to_nat limit)
           (skipn (Z.to_nat ((page - 1) * limit))
              (gorm.sort_desc (filter (spec.matches query) (gorm.table db))))
    /\ (length (TransactionResponse.Data resp) <= Z.to_nat limit)%nat
    /\ StronglySorted spec.newer_first (TransactionResponse.Data resp)
    /\ limit * (TransactionResponse.TotalPages resp - 1)
       < TransactionResponse.Total resp
       <= limit * TransactionResponse.TotalPages resp
    /\ (TransactionResponse.Total resp = 0 -> TransactionResponse.TotalPages resp = 0).
Proof.
  intros Hup limit page Hfit.
  assert (0 < limit) as Hlimit.
  { subst limit. destruct (Z.leb_spec (TransactionQuery.Limit query) 0); lia. }
  assert (0 < page) as Hpage.
  { subst page. destruct (Z.leb_spec (TransactionQuery.Page query) 0); lia. }
  unfold services.GetTransactions.
  pose proof (list_query_selected db query) as Hsel. cbv zeta in Hsel. rewrite Hsel.
  unfold gorm.Count, gorm.Find. rewrite !(exec_available db _ Hup).
  cbn [map_err bind gorm.selected]. fold limit. fold page.
  rewrite (int_fits ((page - 1) * limit)) by nia.
  eexists. split; [reflexivity|].
  cbn [TransactionResponse.Page TransactionResponse.Limit TransactionResponse.Total
       TransactionResponse.Data TransactionResponse.TotalPages].
  set (rows := filter (spec.matches query) (gorm.table db)).
  assert (gorm.run (gorm.Order_created_at_DESC
                      (gorm.Limit limit
                         (gorm.Offset ((page - 1) * limit)
                            {| gorm.selected := rows;
                               gorm.order_created_at_desc := false;
                               gorm.offset := 0; gorm.limit := None |})))
          = firstn (Z.to_nat limit)
              (skipn (Z.to_nat ((page - 1) * limit)) (gorm.sort_desc rows))) as ->.
  { unfold gorm.run. cbn [gorm.Order_created_at_DESC gorm.Limit gorm.Offset
                           gorm.selected gorm.order_created_at_desc gorm.offset gorm.limit].
    assert ((0 <=? limit) = true) as -> by (apply Z.leb_le; lia).
    destruct (Z.ltb_spec 0 ((page - 1) * limit)) as [Hpos | Hzero]; [reflexivity|].
    assert ((page - 1) * limit = 0) as -> by nia. reflexivity. }
  split; [reflexivity|]. split; [reflexivity|]. split; [reflexivity|].
  split; [reflexivity|]. split; [apply firstn_le_length|].
  split; [apply sorted_firstn, sorted_skipn, sort_desc_sorted|].
  apply totalPages_is_ceiling; lia.
Qed.

(** C2, at a page whose offset does not fit Go's [int].  For page
    [2^62 + 1] and limit [4] the offset [(page - 1) * limit] is [2^64],
    beyond every row, yet the product wraps around to [0] and the service
    answers with the first page. *)
Theorem list_offset_wraps_around :
  let page := 4611686018427387905 in
  let limit := 4 in
  (page - 1) * limit = 2 ^ 64
  /\ services.int ((page - 1) * limit) = 0
  /\ exists resp first : TransactionResponse.t,
       services.GetTransactions fixtures.five (TransactionQuery.mk 0 "" limit 0 page)
       = Ok resp
       /\ services.GetTransactions fixtures.five (TransactionQuery.mk 0 "" limit 0 1)
          = Ok first
       /\ TransactionResponse.Page resp = page
       /\ TransactionResponse.Total resp = 5
       /\ TransactionResponse.Data resp = TransactionResponse.Data first
       /\ map ID (TransactionResponse.Data resp) = [5; 4; 2; 1]%N
       /\ TransactionResponse.Total resp < (page - 1) * limit.
Proof.
  cbv zeta. split; [reflexivity|]. split; [reflexivity|].
  eexists. eexists. split; [vm_compute; reflexivity|].
  split; [vm_compute; reflexivity|].
  repeat split.
Qed.

(** ** Examples: the test suite, rounding and overflow *)

(** The summary of the five sample records, as the service test and the
    specification's example have it. *)
Example summary_of_five :
  exists s : DashboardSummary.t,
    services.GetDashboardSummary fixtures.five fixtures.now = Ok s
    /\ DashboardSummary.TotalTransactions s = 5
    /\ DashboardSummary.TotalSuccessToday s = 2
    /\ DashboardSummary.TotalAmount s = binary64.Finite 600
    /\ DashboardSummary.TotalAmountToday s = binary64.Finite 300
    /\ DashboardSummary.AverageAmountPerUser s = binary64.Finite 200
    /\ DashboardSummary.StatusDistribution s
       = [("success", 3); ("pending", 1); ("failed", 1)]
    /\ length (DashboardSummary.RecentTransactions s) = 5%nat.
Proof.
  eexists. split; [vm_compute; reflexivity|].
  repeat split; vm_compute; reflexivity.
Qed.

(** Where float64 rounds: over three successes of 0.1, 0.2 and 0.3, added
    in table order, the total is the float64 written 0.6000000000000001 and
    the average the one written 0.20000000000000004. *)
Example summary_of_tenths :
  exists s : DashboardSummary.t,
    services.GetDashboardSummary fixtures.tenths fixtures.now = Ok s
    /\ binary64.exactly (DashboardSummary.TotalAmount s)
         (5404319552844596 # 9007199254740992)
    /\ binary64.exactly (DashboardSummary.AverageAmountPerUser s)
         (7205759403792795 # 36028797018963968).
Proof.
  eexists. split; [vm_compute; reflexivity|]. split; vm_compute; reflexivity.
Qed.

(** Where float64 overflows: two successes of [2^1023] each. *)
Example summary_overflows :
  exists s : DashboardSummary.t,
    services.GetDashboardSummary
      {| gorm.table :=
           [ fixtures.row 1 1 (inject_Z (2 ^ 1023)) "success" fixtures.today;
             fixtures.row 2 1 (inject_Z (2 ^ 1023)) "success" fixtures.today ];
         gorm.auto_increment := 3;
         gorm.broken := None |} fixtures.now = Ok s
    /\ DashboardSummary.TotalAmount s = binary64.PosInf.
Proof.
  eexists. split; [vm_compute; reflexivity|]. vm_compute. reflexivity.
Qed.

(** Two records per page over the five sample records: three pages, the
    second one holding the third and fourth newest. *)
Example second_page_of_five :
  exists resp : TransactionResponse.t,
    services.GetTransactions fixtures.five (TransactionQuery.mk 0 "" 2 0 2) = Ok resp
    /\ TransactionResponse.Total resp = 5
    /\ TransactionResponse.TotalPages resp = 3
    /\ map ID (TransactionResponse.Data resp) = [2; 1]%N.
Proof.
  eexists. split; [vm_compute; reflexivity|]. repeat split.
Qed.

(** * Further properties of the code *)

(** ** What every call of the service keeps *)

Lemma CreateTransaction_available (db : gorm.DB) (now : time.Time)
  (req : TransactionRequest.t) :
  spec.available db -> spec.consistent db ->
  let t := {| ID := gorm.auto_increment db;
              UserID := TransactionRequest.UserID req;
              Amount := TransactionRequest.Amount req;
              Status := StatusPending;
              CreatedAt := now; UpdatedAt := now; DeletedAt := None |} in
  services.CreateTransaction db now req
  = ({| gorm.table := gorm.table db ++ [t];
        gorm.auto_increment := gorm.auto_increment db + 1;
        gorm.broken := None |}, Ok t).
Proof.
  intros Hup Hwf t. unfold services.CreateTransaction, gorm.Create.
  rewrite Hup. cbn [ID]. change (0 =? 0)%N with true. cbv iota.
  rewrite (fresh_auto_increment db Hwf). cbn [map_err].
  replace (N.max (gorm.auto_increment db) (gorm.auto_increment db + 1))
    with (gorm.auto_increment db + 1)%N by lia.
  reflexivity.
Qed.

(** The three outcomes of a mutating call on a reachable, consistent store:
    nothing changed, a row appended under the counter's id, or the row of one
    live id rewritten in place. *)
Lemma after_call_cases (db : gorm.DB) (c : time.Time * spec.call) :
  spec.available db -> spec.consistent db ->
  spec.after_call db c = db
  \/ (exists t, ID t = gorm.auto_increment db
                /\ spec.after_call db c
                   = {| gorm.table := gorm.table db ++ [t];
                        gorm.auto_increment := gorm.auto_increment db + 1;
                        gorm.broken := None |})
  \/ (exists old new,
         In old (gorm.table db) /\ DeletedAt old = None
         /\ api.same_origin old new
         /\ spec.after_call db c
            = {| gorm.table := map (fun r => if (ID r =? ID old)%N then new else r)
                                 (gorm.table db);
                 gorm.auto_increment := gorm.auto_increment db;
                 gorm.broken := None |}).
Proof.
  intros Hup Hwf.
  destruct c as [now [req | id | query | id req | id | ]]; cbn [spec.after_call];
    auto.
  - right. left. rewrite (CreateTransaction_available db now req Hup Hwf).
    eexists. split; [|reflexivity]. reflexivity.
  - destruct (gorm.First db (gorm.Model db) id) as [t | err] eqn:Hfirst.
    + apply First_Model_inv in Hfirst as (_ & Ht & <- & Hlive).
      right. right. rewrite (UpdateTransaction_found db now req t Hup Hwf Ht Hlive).
      exists t. eexists. split; [assumption|]. split; [assumption|].
      split; [|reflexivity]. repeat split.
    + left. unfold services.UpdateTransaction. rewrite Hfirst. reflexivity.
  - destruct (gorm.First db (gorm.Model db) id) as [t | err] eqn:Hfirst.
    + apply First_Model_inv in Hfirst as (_ & Ht & <- & Hlive).
      right. right. rewrite (DeleteTransaction_found db now t Hup Hwf Ht Hlive).
      exists t. eexists. split; [assumption|]. split; [assumption|].
      split; [|reflexivity]. repeat split.
    + left. unfold services.DeleteTransaction. rewrite Hfirst. reflexivity.
Qed.

Lemma after_call_consistent (db : gorm.DB) (c : time.Time * spec.call) :
  spec.available db -> spec.consistent db ->
  spec.available (spec.after_call db c) /\ spec.consistent (spec.after_call db c).
Proof.
  intros Hup Hwf.
  destruct (after_call_cases db c Hup Hwf)
    as [-> | [(t & Hid & ->) | (old & new & Hin & Hlive & Horigin & ->)]].
  - auto.
  - split; [reflexivity|].
    pose proof (consistent_append db t None Hwf Hid) as H.
    replace (N.max (gorm.auto_increment db) (ID t + 1))
      with (gorm.auto_increment db + 1)%N in H by lia.
    exact H.
  - split; [reflexivity|]. apply consistent_map_same_ids; [assumption|].
    intros r Hr. destruct (N.eqb_spec (ID r) (ID old)) as [-> | _];
      [apply Horigin | reflexivity].
Qed.

(** X1.  From a reachable, consistent store, every sequence of service
    calls leaves the store reachable and consistent: the primary keys stay
    pairwise distinct, positive and below the auto-increment counter. *)
Theorem service_calls_keep_the_store_consistent :
  forall (cs : list (time.Time * spec.call)) (db : gorm.DB),
    spec.available db -> spec.consistent db ->
    spec.available (spec.after_calls db cs)
    /\ spec.consistent (spec.after_calls db cs).
Proof.
  induction cs as [|c cs IH]; intros db Hup Hwf; [auto|].
  destruct (after_call_consistent db c Hup Hwf) as [Hup' Hwf'].
  apply (IH _ Hup' Hwf').
Qed.

Lemma service_calls_keep_the_store_consistent_witness :
  spec.consistent
    (spec.after_calls gorm.empty
       [ (1, spec.CallCreate (TransactionRequest.mk 7 (25 # 1)));
         (2, spec.CallCreate (TransactionRequest.mk 8 (5 # 2)));
         (3, spec.CallDelete 1);
         (4, spec.CallUpdate 2 (TransactionUpdateRequest.mk "failed"));
         (5, spec.CallCreate (TransactionRequest.mk 7 (1 # 3))) ]).
Proof.
  apply (service_calls_keep_the_store_consistent _ gorm.empty); reflexivity.
Defined.

(** One call keeps every row: same id, user, amount and creation time, and
    a soft-deleted row is kept as it is. *)
Lemma after_call_keeps_rows (db : gorm.DB) (c : time.Time * spec.call) :
  spec.available db -> spec.consistent db ->
  (gorm.auto_increment db <= gorm.auto_increment (spec.after_call db c))%N
  /\ forall r, In r (gorm.table db) ->
       exists r', In r' (gorm.table (spec.after_call db c))
                  /\ api.same_origin r r'
                  /\ (DeletedAt r <> None -> r' = r).
Proof.
  intros Hup Hwf.
  destruct (after_call_cases db c Hup Hwf)
    as [-> | [(t & Hid & ->) | (old & new & Hin & Hlive & Horigin & ->)]];
    cbn [gorm.table gorm.auto_increment].
  - split; [lia|]. intros r Hr. exists r. repeat split; auto.
  - split; [lia|]. intros r Hr. exists r.
    split; [apply in_or_app; auto|]. repeat split; auto.
  - split; [lia|]. intros r Hr.
    exists (if (ID r =? ID old)%N then new else r).
    split; [apply (in_map (fun r => if (ID r =? ID old)%N then new else r)); assumption|].
    destruct (N.eqb_spec (ID r) (ID old)) as [Heq | Hne].
    + apply consistent_spec in Hwf as (Hnd & _).
      rewrite (NoDup_ID_eq _ r old Hnd Hr Hin Heq).
      split; [exact Horigin|]. intros Hdel. contradiction.
    + repeat split; auto.
Qed.

(** X2.  The service never purges a row and never rewrites what is fixed at
    creation: after any sequence of calls every row of the store is still
    there with its id, user id, amount and creation time, a soft-deleted row
    is there unchanged, and the auto-increment counter has not gone back. *)
Theorem service_calls_keep_every_row :
  forall (cs : list (time.Time * spec.call)) (db : gorm.DB),
    spec.available db -> spec.consistent db ->
    (gorm.auto_increment db <= gorm.auto_increment (spec.after_calls db cs))%N
    /\ forall r, In r (gorm.table db) ->
         exists r', In r' (gorm.table (spec.after_calls db cs))
                    /\ api.same_origin r r'
                    /\ (DeletedAt r <> None -> r' = r).
Proof.
  induction cs as [|c cs IH]; intros db Hup Hwf.
  - split; [cbn; lia|]. intros r Hr. exists r. repeat split; auto.
  - destruct (after_call_consistent db c Hup Hwf) as [Hup' Hwf'].
    destruct (after_call_keeps_rows db c Hup Hwf) as [Hai Hrows].
    destruct (IH _ Hup' Hwf') as [Hai' Hrows'].
    cbn [spec.after_calls fold_left]. fold (spec.after_calls (spec.after_call db c) cs).
    split; [lia|]. intros r Hr.
    destruct (Hrows r Hr) as (r1 & Hr1 & (Ha & Hb & Hc & Hd) & Hfrozen).
    destruct (Hrows' r1 Hr1) as (r2 & Hr2 & (Ha' & Hb' & Hc' & Hd') & Hfrozen').
    exists r2. split; [assumption|]. split.
    + unfold api.same_origin. repeat split; congruence.
    + intros Hdel. rewrite <- (Hfrozen Hdel). apply Hfrozen'.
      rewrite (Hfrozen Hdel). assumption.
Qed.

Lemma service_calls_keep_every_row_witness :
  exists r', In r' (gorm.table
                      (spec.after_calls fixtures.five
                         [ (fixtures.now + 1, spec.CallUpdate 4 (TransactionUpdateRequest.mk "success"));
                           (fixtures.now + 2, spec.CallDelete 4);
                           (fixtures.now + 3, spec.CallCreate (TransactionRequest.mk 9 (1 # 2))) ]))
             /\ ID r' = 4%N /\ UserID r' = 2%N /\ Amount r' = 400%Q.
Proof.
  destruct (service_calls_keep_every_row
              [ (fixtures.now + 1, spec.CallUpdate 4 (TransactionUpdateRequest.mk "success"));
                (fixtures.now + 2, spec.CallDelete 4);
                (fixtures.now + 3, spec.CallCreate (TransactionRequest.mk 9 (1 # 2))) ]
              fixtures.five eq_refl eq_refl) as [_ Hrows].
  destruct (Hrows (fixtures.row 4 2 400 "pending" (fixtures.today + 3 * time.Hour)))
    as (r' & Hin & (Ha & Hb & Hc & _) & _).
  - simpl. tauto.
  - exists r'. repeat split; assumption.
Defined.

(** X3.  Updates of one record compose to the last one: on a reachable,
    consistent store, updating a live record to [s1] and then to [s2] leaves
    the store, and returns the record, that the single update to [s2] at
    the later time does; no transition between statuses is refused. *)
Theorem successive_updates_last_wins :
  forall (db : gorm.DB) (old : Transaction) (t1 t2 : time.Time)
         (r1 r2 : TransactionUpdateRequest.t),
    spec.available db -> spec.consistent db ->
    In old (gorm.table db) -> DeletedAt old = None ->
    services.UpdateTransaction
      (fst (services.UpdateTransaction db t1 (ID old) r1)) t2 (ID old) r2
    = services.UpdateTransaction db t2 (ID old) r2
    /\ snd (services.UpdateTransaction db t2 (ID old) r2)
       = Ok (spec.updated_at t2 (TransactionUpdateRequest.Status r2) old).
Proof.
  intros db old t1 t2 r1 r2 Hup Hwf Hin Hlive.
  pose proof (UpdateTransaction_found db t1 r1 old Hup Hwf Hin Hlive) as H1.
  pose proof (UpdateTransaction_found db t2 r2 old Hup Hwf Hin Hlive) as H2.
  cbv zeta in H1, H2. rewrite H1, H2. cbn [fst snd]. split; [|reflexivity].
  set (new1 := spec.updated_at t1 (TransactionUpdateRequest.Status r1) old).
  set (db1 := {| gorm.table := map (fun r => if (ID r =? ID old)%N then new1 else r)
                                 (gorm.table db);
                 gorm.auto_increment := gorm.auto_increment db;
                 gorm.broken := None |}).
  assert (spec.consistent db1) as Hwf1.
  { apply consistent_map_same_ids; [assumption|].
    intros r Hr. destruct (N.eqb_spec (ID r) (ID old)) as [-> | _]; reflexivity. }
  assert (In new1 (gorm.table db1)) as Hin1.
  { cbn [gorm.table db1]. apply in_map_iff. exists old. rewrite N.eqb_refl. auto. }
  pose proof (UpdateTransaction_found db1 t2 r2 new1 eq_refl Hwf1 Hin1 Hlive) as H3.
  cbv zeta in H3. change (ID new1) with (ID old) in H3. rewrite H3.
  f_equal. unfold db1. cbn [gorm.table gorm.auto_increment]. f_equal.
  rewrite map_map. apply map_ext. intros r.
  destruct (N.eqb_spec (ID r) (ID old)) as [Heq | Hne].
  - change (ID new1) with (ID old). rewrite N.eqb_refl. reflexivity.
  - apply N.eqb_neq in Hne. rewrite Hne. reflexivity.
Qed.

Lemma successive_updates_last_wins_witness :
  services.UpdateTransaction
    (fst (services.UpdateTransaction fixtures.five 10 4
            (TransactionUpdateRequest.mk "failed")))
    20 4 (TransactionUpdateRequest.mk "success")
  = services.UpdateTransaction fixtures.five 20 4
      (TransactionUpdateRequest.mk "success").
Proof.
  apply (successive_updates_last_wins fixtures.five
           (fixtures.row 4 2 400 "pending" (fixtures.today + 3 * time.Hour))
           10 20 (TransactionUpdateRequest.mk "failed")
           (TransactionUpdateRequest.mk "success")); try reflexivity.
  simpl. tauto.
Defined.

(** ** Listing, for every query *)

(** What a list query returns on a reachable store, before any reasoning
    about the offset. *)
Lemma GetTransactions_available (db : gorm.DB) (query : TransactionQuery.t) :
  spec.available db ->
  let limit := if TransactionQuery.Limit query <=? 0 then 10
               else TransactionQuery.Limit query in
  let page := if TransactionQuery.Page query <=? 0 then 1
              else TransactionQuery.Page query in
  let rows := filter (spec.matches query) (gorm.table db) in
  services.GetTransactions db query
  = Ok {| TransactionResponse.Data :=
            gorm.run (gorm.Order_created_at_DESC
                        (gorm.Limit limit
                           (gorm.Offset (services.int ((page - 1) * limit))
                              {| gorm.selected := rows;
                                 gorm.order_created_at_desc := false;
                                 gorm.offset := 0; gorm.limit := None |})));
          TransactionResponse.Total := Z.of_nat (length rows);
          TransactionResponse.Page := page;
          TransactionResponse.Limit := limit;
          TransactionResponse.TotalPages :=
            services.int_of_float64
              (services.math_Ceil
                 (services.float64 (Z.of_nat (length rows)) / services.float64 limit)) |}.
Proof.
  intros Hup limit page rows. unfold services.GetTransactions.
  pose proof (list_query_selected db query) as Hsel. cbv zeta in Hsel. rewrite Hsel.
  unfold gorm.Count, gorm.Find. rewrite !(exec_available db _ Hup).
  reflexivity.
Qed.

Lemma In_skipn {A} (n : nat) (l : list A) (x : A) : In x (skipn n l) -> In x l.
Proof.
  revert l. induction n as [|n IH]; intros [|y l]; simpl; auto.
Qed.

Lemma In_firstn {A} (n : nat) (l : list A) (x : A) : In x (firstn n l) -> In x l.
Proof.
  revert l. induction n as [|n IH]; intros [|y l]; simpl; try tauto.
  intros [-> | H]; auto.
Qed.

(** The rows a SELECT returns are selected rows, newest first when ordered,
    and no more than a non-negative LIMIT. *)
Lemma run_ordered_limited (rows : list Transaction) (off lim : Z) :
  0 <= lim ->
  let out := gorm.run (gorm.Order_created_at_DESC
                         (gorm.Limit lim
                            (gorm.Offset off
                               {| gorm.selected := rows;
                                  gorm.order_created_at_desc := false;
                                  gorm.offset := 0; gorm.limit := None |}))) in
  (forall r, In r out -> In r rows)
  /\ (length out <= Z.to_nat lim)%nat
  /\ StronglySorted spec.newer_first out.
Proof.
  intros Hlim. unfold gorm.run.
  cbn [gorm.Order_created_at_DESC gorm.Limit gorm.Offset gorm.selected
       gorm.order_created_at_desc gorm.offset gorm.limit].
  assert ((0 <=? lim) = true) as -> by (apply Z.leb_le; assumption).
  pose proof (sort_desc_sorted rows) as Hs.
  assert (forall r, In r (gorm.sort_desc rows) -> In r rows) as Hin.
  { intros r Hr. apply (Permutation_in r (sort_desc_perm rows)). assumption. }
  destruct (0 <? off); cbv zeta.
  - split; [|split].
    + intros r Hr. apply Hin. eapply In_skipn, In_firstn. exact Hr.
    + apply firstn_le_length.
    + apply sorted_firstn, sorted_skipn, Hs.
  - split; [|split].
    + intros r Hr. apply Hin. eapply In_firstn. exact Hr.
    + apply firstn_le_length.
    + apply sorted_firstn, Hs.
Qed.

Lemma matches_spec (query : TransactionQuery.t) (r : Transaction) :
  spec.matches query r = true ->
  DeletedAt r = None
  /\ (TransactionQuery.UserID query <> 0%N -> UserID r = TransactionQuery.UserID query)
  /\ (TransactionQuery.Status query <> "" -> Status r = TransactionQuery.Status query).
Proof.
  unfold spec.matches, spec.liveb. rewrite !andb_true_iff, !orb_true_iff.
  rewrite !N.eqb_eq, !String.eqb_eq. intros [[Hlive Huser] Hstatus].
  split; [destruct (DeletedAt r); [discriminate | reflexivity]|].
  split; intros Hne; [destruct Huser | destruct Hstatus]; congruence.
Qed.

(** X4.  For every list query on a reachable store, overflowing page
    numbers included, the records returned are live rows of the table that
    carry the user id asked for (when one is given) and the status asked for
    (when one is given), at most [limit] of them, newest first; the total is
    the number of all such rows. *)
Theorem list_returns_only_matching_live_records :
  forall (db : gorm.DB) (query : TransactionQuery.t),
    spec.available db ->
    exists resp : TransactionResponse.t,
      services.GetTransactions db query = Ok resp
      /\ TransactionResponse.Total resp
         = Z.of_nat (length (filter (spec.matches query) (gorm.table db)))
      /\ (forall r, In r (TransactionResponse.Data resp) ->
            In r (gorm.table db) /\ DeletedAt r = None
            /\ (TransactionQuery.UserID query <> 0%N ->
                UserID r = TransactionQuery.UserID query)
            /\ (TransactionQuery.Status query <> "" ->
                Status r = TransactionQuery.Status query))
      /\ (length (TransactionResponse.Data resp)
          <= Z.to_nat (TransactionResponse.Limit resp))%nat
      /\ 0 < TransactionResponse.Limit resp
      /\ StronglySorted spec.newer_first (TransactionResponse.Data resp).
Proof.
  intros db query Hup.
  pose proof (GetTransactions_available db query Hup) as Hget. cbv zeta in Hget.
  eexists. split; [exact Hget|].
  cbn [TransactionResponse.Total TransactionResponse.Data TransactionResponse.Limit].
  set (limit := if TransactionQuery.Limit query <=? 0 then 10
                else TransactionQuery.Limit query).
  assert (0 < limit) as Hlimit.
  { subst limit. destruct (Z.leb_spec (TransactionQuery.Limit query) 0); lia. }
  match goal with
  | |- context [gorm.Offset ?off _] =>
      destruct (run_ordered_limited (filter (spec.matches query) (gorm.table db))
                  off limit ltac:(lia)) as (Hsub & Hlen & Hsorted)
  end.
  split; [reflexivity|]. split; [|split; [exact Hlen | split; [exact Hlimit | exact Hsorted]]].
  intros r Hr. apply Hsub in Hr. apply filter_In in Hr as [Hin Hm].
  split; [assumption | apply matches_spec; assumption].
Qed.

Lemma list_returns_only_matching_live_records_witness :
  exists resp : TransactionResponse.t,
    services.GetTransactions fixtures.five
      (TransactionQuery.mk 1 "success" 0 0 (-3)) = Ok resp
    /\ TransactionResponse.Total resp = 2
    /\ forall r, In r (TransactionResponse.Data resp) ->
         UserID r = 1%N /\ Status r = "success".
Proof.
  destruct (list_returns_only_matching_live_records fixtures.five
              (TransactionQuery.mk 1 "success" 0 0 (-3)) eq_refl)
    as (resp & Hget & Htotal & Hdata & _).
  exists resp. split; [exact Hget|]. split; [rewrite Htotal; reflexivity|].
  intros r Hr. destruct (Hdata r Hr) as (_ & _ & Huser & Hstatus).
  split; [apply Huser | apply Hstatus]; discriminate.
Defined.

Lemma firstn_then_chunk {A} (a b : nat) (l : list A) :
  firstn a l ++ firstn b (skipn a l) = firstn (a + b) l.
Proof.
  revert l. induction a as [|a IH]; intros [|x l]; simpl;
    rewrite ?firstn_nil; try reflexivity.
  rewrite IH. reflexivity.
Qed.

Lemma concat_chunks {A} (size : nat) (l : list A) (n : nat) :
  concat (map (fun k => firstn size (skipn (k * size) l)) (seq 0 n))
  = firstn (n * size) l.
Proof.
  induction n as [|n IH]; [reflexivity|].
  rewrite seq_S, map_app, concat_app, IH. cbn [map concat plus].
  rewrite app_nil_r, firstn_then_chunk. f_equal. lia.
Qed.

(** One page of a list query, when the offset fits Go's [int]. *)
Lemma page_data_chunk (db : gorm.DB) (query : TransactionQuery.t) (page : Z) :
  spec.available db ->
  let limit := if TransactionQuery.Limit query <=? 0 then 10
               else TransactionQuery.Limit query in
  0 < page -> (page - 1) * limit < 2 ^ 63 ->
  api.page_data db query page
  = firstn (Z.to_nat limit)
      (skipn (Z.to_nat ((page - 1) * limit))
         (gorm.sort_desc (filter (spec.matches query) (gorm.table db)))).
Proof.
  intros Hup limit Hpage Hfit. unfold api.page_data.
  pose proof (GetTransactions_page db (api.with_page query page) Hup) as H.
  cbv zeta in H. cbn [api.with_page TransactionQuery.Limit TransactionQuery.Page] in H.
  fold limit in H.
  assert ((page <=? 0) = false) as Hp by (apply Z.leb_gt; assumption).
  rewrite Hp in H. destruct (H Hfit) as (resp & -> & _ & _ & _ & -> & _).
  reflexivity.
Qed.

Lemma distinct_created_at_NoDup (l : list Transaction) :
  api.distinct_created_at l = true -> NoDup (map CreatedAt l).
Proof.
  induction l as [|r l IH]; cbn [api.distinct_created_at map]; [constructor|].
  rewrite andb_true_iff, negb_true_iff. intros [Hr Hl].
  constructor; [|apply IH; exact Hl].
  intros Hin. apply in_map_iff in Hin as (x & Hx & Hin).
  assert (existsb (fun x => CreatedAt x =? CreatedAt r) l = true) as He.
  { apply existsb_exists. exists x. split; [exact Hin | apply Z.eqb_eq; exact Hx]. }
  congruence.
Qed.

(** Rows of pairwise distinct [created_at] have one order newest first. *)
Lemma newest_first_unique (l1 l2 : list Transaction) :
  NoDup (map CreatedAt l1) -> Permutation l1 l2 ->
  StronglySorted spec.newer_first l1 -> StronglySorted spec.newer_first l2 ->
  l1 = l2.
Proof.
  revert l2. induction l1 as [|a l1 IH]; intros l2 Hnd Hp H1 H2.
  - apply Permutation_nil in Hp. congruence.
  - destruct l2 as [|b l2].
    { apply Permutation_sym, Permutation_nil in Hp. discriminate. }
    cbn [map] in Hnd. inversion Hnd as [|? ? Ha Hnd']; subst.
    inversion H1 as [|? ? H1' Hall1]; subst.
    inversion H2 as [|? ? H2' Hall2]; subst.
    rewrite Forall_forall in Hall1, Hall2.
    assert (a = b) as <-.
    { assert (In a (b :: l2)) as Hab
          by (apply (Permutation_in a Hp); left; reflexivity).
      assert (In b (a :: l1)) as Hba
          by (apply (Permutation_in b (Permutation_sym Hp)); left; reflexivity).
      destruct Hab as [Hab | Hab]; [congruence|].
      destruct Hba as [Hba | Hba]; [congruence|].
      exfalso. apply Ha.
      pose proof (Hall2 a Hab) as Hle1. pose proof (Hall1 b Hba) as Hle2.
      unfold spec.newer_first in Hle1, Hle2.
      replace (CreatedAt a) with (CreatedAt b) by lia.
      apply in_map. exact Hba. }
    f_equal. apply IH; [assumption | | assumption | assumption].
    apply (Permutation_cons_inv Hp).
Qed.

(** X5.  Walking the pages of a list query from 1 to [total_pages] returns
    every matching record exactly once, newest first, provided the matching
    records have pairwise distinct [created_at], so that ORDER BY
    [created_at] DESC leaves the engine no choice, and the table has fewer
    than [2^53] rows, so that the row count is a float64; a page beyond
    [total_pages] whose offset fits Go's [int] is empty. *)
Theorem pages_cover_the_matching_records_once :
  forall (db : gorm.DB) (query : TransactionQuery.t),
    spec.available db ->
    Z.of_nat (length (gorm.table db)) < 2 ^ 53 ->
    api.distinct_created_at (filter (spec.matches query) (gorm.table db)) = true ->
    exists (resp : TransactionResponse.t) (all : list Transaction),
      services.GetTransactions db query = Ok resp
      /\ Permutation all (filter (spec.matches query) (gorm.table db))
      /\ StronglySorted spec.newer_first all
      /\ (forall l,
            Permutation l (filter (spec.matches query) (gorm.table db)) ->
            StronglySorted spec.newer_first l -> l = all)
      /\ concat (map (fun k => api.page_data db query (Z.of_nat k + 1))
                   (seq 0 (Z.to_nat (TransactionResponse.TotalPages resp))))
         = all
      /\ forall page,
           TransactionResponse.TotalPages resp < page ->
           (page - 1) * TransactionResponse.Limit resp < 2 ^ 63 ->
           api.page_data db query page = [].
Proof.
  intros db query Hup Hfit Hdistinct.
  pose proof (GetTransactions_available db query Hup) as Hget. cbv zeta in Hget.
  eexists. exists (gorm.sort_desc (filter (spec.matches query) (gorm.table db))).
  split; [exact Hget|].
  cbn [TransactionResponse.TotalPages TransactionResponse.Limit].
  set (limit := if TransactionQuery.Limit query <=? 0 then 10
                else TransactionQuery.Limit query).
  set (rows := filter (spec.matches query) (gorm.table db)) in *.
  split; [apply sort_desc_perm|]. split; [apply sort_desc_sorted|]. split.
  { intros l Hperm Hsorted.
    apply newest_first_unique;
      [ | | exact Hsorted | apply sort_desc_sorted].
    - apply (Permutation_NoDup (l := map CreatedAt rows)).
      + apply Permutation_map, Permutation_sym, Hperm.
      + apply distinct_created_at_NoDup, Hdistinct.
    - rewrite Hperm. apply Permutation_sym, sort_desc_perm. }
  assert (0 < limit) as Hlimit.
  { subst limit. destruct (Z.leb_spec (TransactionQuery.Limit query) 0); lia. }
  assert (length rows <= length (gorm.table db))%nat as Hrows
      by apply filter_length_le.
  destruct (totalPages_is_ceiling (Z.of_nat (length rows)) limit ltac:(lia) Hlimit)
    as [Hceil _].
  set (pages := services.int_of_float64 _) in *.
  assert (length (gorm.sort_desc rows) = length rows) as Hlen
      by apply Permutation_length, sort_desc_perm.
  assert (0 <= pages) as Hpages by nia.
  split.
  - rewrite (map_ext_in _ (fun k => firstn (Z.to_nat limit)
                                      (skipn (k * Z.to_nat limit) (gorm.sort_desc rows)))).
    + rewrite concat_chunks. apply firstn_all2. rewrite Hlen.
      apply Nat2Z.inj_le. rewrite Nat2Z.inj_mul, !Z2Nat.id by lia. nia.
    + intros k Hk. apply in_seq in Hk.
      assert (Z.of_nat k <= pages - 1) as Hk' by lia.
      rewrite (page_data_chunk db query (Z.of_nat k + 1) Hup); fold limit; [|lia|nia].
      f_equal. f_equal. apply Nat2Z.inj.
      rewrite Nat2Z.inj_mul, !Z2Nat.id by nia. lia.
  - intros page Hbeyond Hoff.
    rewrite (page_data_chunk db query page Hup); fold limit; [|lia|assumption].
    fold rows. rewrite skipn_all2; [apply firstn_nil|]. rewrite Hlen.
    apply Nat2Z.inj_le. rewrite Z2Nat.id by nia. nia.
Qed.

Lemma pages_cover_the_matching_records_once_witness :
  exists all : list Transaction,
    Permutation all (filter (spec.matches (TransactionQuery.mk 0 "" 2 0 0))
                       (gorm.table fixtures.five))
    /\ StronglySorted spec.newer_first all
    /\ concat (map (fun k => api.page_data fixtures.five (TransactionQuery.mk 0 "" 2 0 0)
                               (Z.of_nat k + 1)) (seq 0 3))
       = all
    /\ api.page_data fixtures.five (TransactionQuery.mk 0 "" 2 0 0) 4 = [].
Proof.
  destruct (pages_cover_the_matching_records_once fixtures.five
              (TransactionQuery.mk 0 "" 2 0 0) eq_refl eq_refl eq_refl)
    as (resp & all & Hget & Hperm & Hsorted & _ & Hcover & Hbeyond).
  vm_compute in Hget. injection Hget as <-.
  exists all. split; [exact Hperm|]. split; [exact Hsorted|]. split.
  - exact Hcover.
  - apply Hbeyond; reflexivity.
Defined.

(** ** What a soft delete changes *)

Lemma live_count_after_delete (l : list Transaction) (old : Transaction)
  (now : time.Time) :
  NoDup (map ID l) -> In old l -> DeletedAt old = None ->
  (length (filter spec.liveb
             (map (fun r => if (ID r =? ID old)%N then spec.deleted_at now old else r) l))
   + 1 = length (filter spec.liveb l))%nat.
Proof.
  set (g := fun r : Transaction => if (ID r =? ID old)%N then spec.deleted_at now old else r).
  induction l as [|x l IH]; [contradiction|].
  intros Hnd Hin Hlive. cbn [map] in Hnd. inversion Hnd as [|? ? Hx Hl]; subst.
  cbn [map filter]. destruct Hin as [-> | Hin].
  - unfold g at 1. rewrite N.eqb_refl.
    assert (spec.liveb old = true) as -> by (unfold spec.liveb; rewrite Hlive; reflexivity).
    cbn [spec.liveb spec.deleted_at DeletedAt length].
    rewrite (map_ext_in g (fun r => r)); [rewrite map_id; lia|].
    intros r Hr. unfold g. destruct (N.eqb_spec (ID r) (ID old)) as [Heq | _]; [|reflexivity].
    exfalso. apply Hx. rewrite <- Heq. apply in_map. assumption.
  - assert (g x = x) as ->.
    { unfold g. destruct (N.eqb_spec (ID x) (ID old)) as [Heq | _]; [|reflexivity].
      exfalso. apply Hx. rewrite Heq. apply in_map. assumption. }
    specialize (IH Hl Hin Hlive). destruct (spec.liveb x); cbn [length]; lia.
Qed.

(** X6.  On a reachable, consistent store a delete of a live record marks
    that row deleted at the time of the call and touches nothing else: every
    other row is as it was, the summary's [total_transactions] drops by
    exactly one, and no list query returns the record any more, whatever
    its filters and page. *)
Theorem delete_hides_exactly_one_record :
  forall (db : gorm.DB) (now : time.Time) (old : Transaction),
    spec.available db -> spec.consistent db ->
    In old (gorm.table db) -> DeletedAt old = None ->
    exists db' : gorm.DB,
      services.DeleteTransaction db now (ID old) = (db', Ok tt)
      /\ gorm.table db'
         = map (fun r => if (ID r =? ID old)%N then spec.deleted_at now old else r)
             (gorm.table db)
      /\ (exists s s' : DashboardSummary.t,
            services.GetDashboardSummary db now = Ok s
            /\ services.GetDashboardSummary db' now = Ok s'
            /\ DashboardSummary.TotalTransactions s'
               = DashboardSummary.TotalTransactions s - 1)
      /\ forall (query : TransactionQuery.t),
         exists resp : TransactionResponse.t,
           services.GetTransactions db' query = Ok resp
           /\ forall r, In r (TransactionResponse.Data resp) ->
                ID r <> ID old /\ In r (gorm.table db).
Proof.
  intros db now old Hup Hwf Hin Hlive.
  rewrite (DeleteTransaction_found db now old Hup Hwf Hin Hlive).
  eexists. split; [reflexivity|]. cbn [gorm.table]. split; [reflexivity|].
  set (db' := {| gorm.table := _; gorm.auto_increment := _; gorm.broken := None |}).
  assert (spec.available db') as Hup' by reflexivity.
  split.
  - destruct (GetDashboardSummary_available db now Hup) as (s & Hs & _ & Htotal & _).
    destruct (GetDashboardSummary_available db' now Hup') as (s' & Hs' & _ & Htotal' & _).
    exists s, s'. split; [exact Hs|]. split; [exact Hs'|].
    rewrite Htotal, Htotal'. unfold db'. cbn [gorm.table].
    apply consistent_spec in Hwf as (Hnd & _).
    pose proof (live_count_after_delete (gorm.table db) old now Hnd Hin Hlive). lia.
  - intros query.
    pose proof (GetTransactions_available db' query Hup') as Hget. cbv zeta in Hget.
    eexists. split; [exact Hget|]. cbn [TransactionResponse.Data].
    set (limit := if TransactionQuery.Limit query <=? 0 then 10
                  else TransactionQuery.Limit query).
    assert (0 <= limit) as Hlimit.
    { subst limit. destruct (Z.leb_spec (TransactionQuery.Limit query) 0); lia. }
    match goal with
    | |- context [gorm.Offset ?off _] =>
        destruct (run_ordered_limited (filter (spec.matches query) (gorm.table db'))
                    off limit Hlimit) as (Hsub & _)
    end.
    intros r Hr. apply Hsub in Hr. apply filter_In in Hr as [Hr Hm].
    apply matches_spec in Hm as (Hrlive & _).
    unfold db' in Hr. cbn [gorm.table] in Hr.
    apply in_map_iff in Hr as (x & Hx & Hxin).
    destruct (N.eqb_spec (ID x) (ID old)) as [Heq | Hne].
    + subst r. discriminate Hrlive.
    + subst r. auto.
Qed.

Lemma delete_hides_exactly_one_record_witness :
  exists db' : gorm.DB,
    services.DeleteTransaction fixtures.five fixtures.now 2 = (db', Ok tt)
    /\ exists s' : DashboardSummary.t,
         services.GetDashboardSummary db' fixtures.now = Ok s'
         /\ DashboardSummary.TotalTransactions s' = 4.
Proof.
  destruct (delete_hides_exactly_one_record fixtures.five fixtures.now
              (fixtures.row 2 1 200 "success" (fixtures.today + 2 * time.Hour))
              eq_refl eq_refl ltac:(simpl; tauto) eq_refl)
    as (db' & Hdel & _ & (s & s' & Hs & Hs' & Htotal) & _).
  exists db'. split; [exact Hdel|]. exists s'. split; [exact Hs'|].
  rewrite Htotal. vm_compute in Hs. injection Hs as <-. reflexivity.
Defined.

(** ** The responses of the handlers *)

Lemma required_gt_accepted (req : TransactionRequest.t) :
  validator.Struct_TransactionRequest req = [] ->
  (0 < TransactionRequest.Amount req)%Q /\ TransactionRequest.UserID req <> 0%N.
Proof.
  unfold validator.Struct_TransactionRequest. cbn [validator.check_field].
  unfold validator.required_uint, validator.required_float64, validator.gt_float64.
  destruct (N.eqb_spec (TransactionRequest.UserID req) 0) as [_ | Hid];
    cbn [negb app]; [discriminate|].
  destruct (Qeq_bool (TransactionRequest.Amount req) 0); cbn [negb]; [discriminate|].
  destruct (Qle_bool (TransactionRequest.Amount req) 0) eqn:Hle; cbn [negb];
    [discriminate|].
  intros _. split; [|assumption]. apply Qnot_le_lt. intros H.
  apply Qle_bool_iff in H. congruence.
Qed.

(** On a reachable store a fetch by id finds a row or reports that there
    is none; it has no other failure. *)
Lemma First_available (db : gorm.DB) (st : gorm.Statement) (id : N) :
  spec.available db ->
  (exists t, gorm.First db st id = Ok t)
  \/ gorm.First db st id = Err gorm.ErrRecordNotFound.
Proof.
  intros Hup. unfold gorm.First. rewrite (exec_available db _ Hup). cbn [bind].
  destruct (filter _ _); [right | left; eexists]; reflexivity.
Qed.

(** What a request does on a reachable, consistent store: it leaves the
    store alone and answers 200, 400 or 404; or it is a valid create and
    appends the record it answers 201 with; or a valid update of a live
    record, rewritten in place and answered 200; or the delete of a live
    record, marked deleted and answered 204. *)
Lemma serve_cases (db : gorm.DB) (now : time.Time) (req : api.request) :
  spec.available db -> spec.consistent db ->
  (fst (api.serve db now req) = db
   /\ In (StatusCode (snd (api.serve db now req))) [200; 400; 404])
  \/ (exists t,
         api.valid_row t /\ ID t = gorm.auto_increment db
         /\ api.serve db now req
            = ({| gorm.table := gorm.table db ++ [t];
                  gorm.auto_increment := gorm.auto_increment db + 1;
                  gorm.broken := None |},
               {| StatusCode := 201; Body := JSON_Transaction t |}))
  \/ (exists old status,
         In old (gorm.table db) /\ DeletedAt old = None
         /\ spec.is_status status = true
         /\ api.serve db now req
            = ({| gorm.table :=
                    map (fun r => if (ID r =? ID old)%N
                                  then spec.updated_at now status old else r)
                      (gorm.table db);
                  gorm.auto_increment := gorm.auto_increment db;
                  gorm.broken := None |},
               {| StatusCode := 200;
                  Body := JSON_Transaction (spec.updated_at now status old) |}))
  \/ (exists old,
         In old (gorm.table db) /\ DeletedAt old = None
         /\ api.serve db now req
            = ({| gorm.table :=
                    map (fun r => if (ID r =? ID old)%N
                                  then spec.deleted_at now old else r)
                      (gorm.table db);
                  gorm.auto_increment := gorm.auto_increment db;
                  gorm.broken := None |},
               {| StatusCode := 204; Body := NoBody |})).
Proof.
  intros Hup Hwf.
  destruct req as [[req | err] | idStr | [query | err] | idStr [req | err] | idStr | | ];
    cbn [api.serve].
  - (* create *)
    unfold handlers.CreateTransaction.
    destruct (validator.Struct_TransactionRequest req) as [|fe ve] eqn:Hv.
    + apply required_gt_accepted in Hv as [Hpos Hid].
      right. left. rewrite (CreateTransaction_available db now req Hup Hwf).
      eexists. split; [|split; [|reflexivity]]; [|reflexivity].
      repeat split; assumption.
    + left. cbn. auto.
  - left. cbn. auto.
  - (* fetch *)
    left. split; [reflexivity|]. cbn [snd]. unfold handlers.GetTransactionByID.
    destruct (strconv.ParseUint idStr 32) as [id | e]; [|cbn; auto].
    unfold services.GetTransactionByID.
    destruct (First_available db (gorm.Model db) id Hup) as [[t ->] | ->]; cbn; auto.
  - (* list *)
    left. split; [reflexivity|]. cbn [snd]. unfold handlers.GetTransactions.
    destruct (negb _ && _); [cbn; auto|].
    rewrite (GetTransactions_available db query Hup). cbn. auto.
  - left. cbn. auto.
  - (* update *)
    unfold handlers.UpdateTransaction.
    destruct (strconv.ParseUint idStr 32) as [id | e]; [|left; cbn; auto].
    pose proof (update_request_validation req) as Hv.
    destruct (spec.is_status (TransactionUpdateRequest.Status req)) eqn:Hs.
    + rewrite Hv.
      destruct (gorm.First db (gorm.Model db) id) as [t | e] eqn:Hfirst.
      * apply First_Model_inv in Hfirst as (_ & Ht & <- & Hlive).
        right. right. left. exists t, (TransactionUpdateRequest.Status req).
        rewrite (UpdateTransaction_found db now req t Hup Hwf Ht Hlive).
        repeat (split; [assumption|]). reflexivity.
      * left. unfold services.UpdateTransaction. rewrite Hfirst.
        destruct (First_available db (gorm.Model db) id Hup) as [[t Ht] | He];
          [congruence|].
        rewrite Hfirst in He. injection He as ->. cbn. auto.
    + left. destruct (validator.Struct_TransactionUpdateRequest req); [congruence|].
      cbn. auto.
  - left. unfold handlers.UpdateTransaction.
    destruct (strconv.ParseUint idStr 32); cbn; auto.
  - (* delete *)
    unfold handlers.DeleteTransaction.
    destruct (strconv.ParseUint idStr 32) as [id | e]; [|left; cbn; auto].
    destruct (gorm.First db (gorm.Model db) id) as [t | e] eqn:Hfirst.
    + apply First_Model_inv in Hfirst as (_ & Ht & <- & Hlive).
      right. right. right. exists t.
      rewrite (DeleteTransaction_found db now t Hup Hwf Ht Hlive).
      repeat (split; [assumption|]). reflexivity.
    + left. unfold services.DeleteTransaction. rewrite Hfirst.
      destruct (First_available db (gorm.Model db) id Hup) as [[t Ht] | He];
        [congruence|].
      rewrite Hfirst in He. injection He as ->. cbn. auto.
  - (* summary *)
    left. split; [reflexivity|]. cbn [snd]. unfold handlers.GetDashboardSummary.
    destruct (GetDashboardSummary_available db now Hup) as (s & -> & _). cbn. auto.
  - left. cbn. auto.
Qed.

Lemma serve_keeps_consistent (db : gorm.DB) (now : time.Time) (req : api.request) :
  spec.available db -> spec.consistent db ->
  spec.available (fst (api.serve db now req))
  /\ spec.consistent (fst (api.serve db now req)).
Proof.
  intros Hup Hwf.
  destruct (serve_cases db now req Hup Hwf)
    as [[-> _] | [(t & _ & Hid & ->) | [(old & status & Hin & Hlive & _ & ->)
                                       | (old & Hin & Hlive & ->)]]];
    cbn [fst]; auto; (split; [reflexivity|]).
  - pose proof (consistent_append db t None Hwf Hid) as H.
    replace (N.max (gorm.auto_increment db) (ID t + 1))
      with (gorm.auto_increment db + 1)%N in H by lia.
    exact H.
  - apply consistent_map_same_ids; [assumption|].
    intros r Hr. destruct (N.eqb_spec (ID r) (ID old)) as [-> | _]; reflexivity.
  - apply consistent_map_same_ids; [assumption|].
    intros r Hr. destruct (N.eqb_spec (ID r) (ID old)) as [-> | _]; reflexivity.
Qed.

(** X7.  On a reachable, consistent store no request is answered 500: every
    response of the seven handlers carries 200, 201, 204, 400 or 404, and
    the store stays reachable and consistent. *)
Theorem reachable_store_is_never_answered_500 :
  forall (db : gorm.DB) (now : time.Time) (req : api.request),
    spec.available db -> spec.consistent db ->
    In (StatusCode (snd (api.serve db now req))) [200; 201; 204; 400; 404]
    /\ spec.available (fst (api.serve db now req))
    /\ spec.consistent (fst (api.serve db now req)).
Proof.
  intros db now req Hup Hwf. split; [|apply serve_keeps_consistent; assumption].
  destruct (serve_cases db now req Hup Hwf)
    as [[_ Hcode] | [(t & _ & _ & ->) | [(old & status & _ & _ & _ & ->)
                                        | (old & _ & _ & ->)]]];
    cbn [snd StatusCode]; [|cbn; tauto..].
  cbn in Hcode |- *. tauto.
Qed.

Lemma reachable_store_is_never_answered_500_witness :
  In (StatusCode (snd (api.serve fixtures.five fixtures.now
                         (api.UpdateTransaction "3"
                            (Ok (TransactionUpdateRequest.mk "failed"))))))
     [200; 201; 204; 400; 404].
Proof.
  apply (reachable_store_is_never_answered_500 fixtures.five fixtures.now
           (api.UpdateTransaction "3" (Ok (TransactionUpdateRequest.mk "failed")))
           eq_refl eq_refl).
Defined.

(** X8.  The handlers keep the field constraints of the data model: if
    every row of a reachable, consistent store has a positive amount, a
    non-zero user id and one of the three status values, so has every row
    after any sequence of requests; in particular every store the API builds
    from the empty one. *)
Theorem requests_keep_rows_valid :
  forall (rs : list (time.Time * api.request)) (db : gorm.DB),
    spec.available db -> spec.consistent db ->
    Forall api.valid_row (gorm.table db) ->
    Forall api.valid_row (gorm.table (api.serve_all db rs))
    /\ spec.available (api.serve_all db rs)
    /\ spec.consistent (api.serve_all db rs).
Proof.
  induction rs as [|[now req] rs IH]; intros db Hup Hwf Hvalid; [auto|].
  cbn [api.serve_all fold_left fst snd].
  fold (api.serve_all (fst (api.serve db now req)) rs).
  destruct (serve_keeps_consistent db now req Hup Hwf) as [Hup' Hwf'].
  apply IH; [assumption | assumption|].
  rewrite Forall_forall in Hvalid.
  destruct (serve_cases db now req Hup Hwf)
    as [[-> _] | [(t & Ht & _ & ->) | [(old & status & Hin & Hlive & Hs & ->)
                                      | (old & Hin & Hlive & ->)]]];
    cbn [fst gorm.table]; apply Forall_forall.
  - assumption.
  - intros r Hr. apply in_app_or in Hr as [Hr | [<- | []]]; auto.
  - intros r Hr. apply in_map_iff in Hr as (x & <- & Hx).
    destruct (ID x =? ID old)%N; [|auto].
    destruct (Hvalid old Hin) as (Ha & Hu & _). repeat split; assumption.
  - intros r Hr. apply in_map_iff in Hr as (x & <- & Hx).
    destruct (ID x =? ID old)%N; [|auto]. apply (Hvalid old Hin).
Qed.

Lemma requests_keep_rows_valid_witness :
  Forall api.valid_row
    (gorm.table
       (api.serve_all gorm.empty
          [ (1, api.CreateTransaction (Ok (TransactionRequest.mk 7 (25 # 1))));
            (2, api.CreateTransaction (Ok (TransactionRequest.mk 0 (25 # 1))));
            (3, api.UpdateTransaction "1" (Ok (TransactionUpdateRequest.mk "done")));
            (4, api.UpdateTransaction "1" (Ok (TransactionUpdateRequest.mk "success")));
            (5, api.DeleteTransaction "1") ])).
Proof.
  apply (requests_keep_rows_valid _ gorm.empty eq_refl eq_refl). constructor.
Defined.

(** X9.  When the store is unreachable, every request that passes
    validation and needs the store is answered 500
    [internal_server_error], the message being the service's wrapping of
    the driver's own error text, and the store is left as it was; a fetch,
    update or delete is answered 500, not 404. *)
Theorem unreachable_store_is_answered_500 :
  forall (db : gorm.DB) (msg : string) (now : time.Time),
    gorm.broken db = Some msg ->
    let e500 (what : string) :=
      SendError 500 "internal_server_error" [(what ++ ": " ++ msg)%string] in
    (forall req,
       (0 < TransactionRequest.Amount req)%Q -> TransactionRequest.UserID req <> 0%N ->
       handlers.CreateTransaction db now (Ok req)
       = (db, e500 "failed to create transaction"))
    /\ (forall idStr,
          spec.valid_id idStr = true ->
          handlers.GetTransactionByID db idStr = e500 "failed to get transaction"
          /\ handlers.DeleteTransaction db now idStr
             = (db, e500 "failed to get transaction")
          /\ forall req,
               spec.is_status (TransactionUpdateRequest.Status req) = true ->
               handlers.UpdateTransaction db now idStr (Ok req)
               = (db, e500 "failed to get transaction"))
    /\ (forall query,
          spec.is_status (TransactionQuery.Status query) = true
          \/ TransactionQuery.Status query = "" ->
          handlers.GetTransactions db (Ok query)
          = e500 "failed to count transactions")
    /\ handlers.GetDashboardSummary db now
       = e500 "failed to count today's successful transactions".
Proof.
  intros db msg now Hdown e500.
  assert (forall st id, gorm.First db st id = Err (gorm.ErrDriver msg)) as Hfirst.
  { intros st id. unfold gorm.First, gorm.exec. rewrite Hdown. reflexivity. }
  split; [|split; [|split]].
  - intros req Hpos Hid. unfold handlers.CreateTransaction.
    rewrite (required_gt_accepts req Hpos Hid).
    unfold services.CreateTransaction, gorm.Create. rewrite Hdown. reflexivity.
  - intros idStr Hvalid.
    unfold handlers.GetTransactionByID, handlers.DeleteTransaction,
      handlers.UpdateTransaction.
    rewrite (ParseUint_32_valid idStr Hvalid).
    unfold services.GetTransactionByID, services.DeleteTransaction,
      services.UpdateTransaction.
    rewrite !Hfirst. cbn [map_err services.first_error].
    split; [reflexivity|]. split; [reflexivity|].
    intros req Hs. pose proof (update_request_validation req) as Hv.
    rewrite Hs in Hv. rewrite Hv. reflexivity.
  - intros query Hs. unfold handlers.GetTransactions.
    assert (negb (TransactionQuery.Status query =? "")%string
            && (negb (TransactionQuery.Status query =? StatusPending)%string
                && negb (TransactionQuery.Status query =? StatusSuccess)%string
                && negb (TransactionQuery.Status query =? StatusFailed)%string) = false) as ->.
    { destruct Hs as [Hs | ->]; [|reflexivity].
      apply is_status_cases in Hs as [-> | [-> | ->]]; reflexivity. }
    unfold services.GetTransactions, gorm.Count, gorm.exec. rewrite Hdown. reflexivity.
  - unfold handlers.GetDashboardSummary, services.GetDashboardSummary,
      gorm.Count, gorm.exec.
    rewrite Hdown. reflexivity.
Qed.

Lemma unreachable_store_is_answered_500_witness :
  handlers.GetTransactionByID
    {| gorm.table := gorm.table fixtures.five; gorm.auto_increment := 6;
       gorm.broken := Some "dial tcp 127.0.0.1:3306: connect: connection refused" |}
    "2"
  = SendError 500 "internal_server_error"
      ["failed to get transaction: dial tcp 127.0.0.1:3306: connect: connection refused"].
Proof.
  apply (proj1 (proj2 (unreachable_store_is_answered_500
                         {| gorm.table := gorm.table fixtures.five;
                            gorm.auto_increment := 6;
                            gorm.broken :=
                              Some "dial tcp 127.0.0.1:3306: connect: connection refused" |}
                         "dial tcp 127.0.0.1:3306: connect: connection refused"
                         fixtures.now eq_refl))
           "2" eq_refl).
Defined.

(** ** The rest of the dashboard summary *)

(** The fields of the summary that are not aggregates of the amounts. *)
Lemma GetDashboardSummary_lists (db : gorm.DB) (now : time.Time) :
  spec.available db ->
  exists s,
    services.GetDashboardSummary db now = Ok s
    /\ DashboardSummary.TotalTransactions s
       = Z.of_nat (length (filter spec.liveb (gorm.table db)))
    /\ DashboardSummary.RecentTransactions s
       = firstn 10 (gorm.sort_desc (filter spec.liveb (gorm.table db)))
    /\ DashboardSummary.StatusDistribution s
       = fold_left (fun m result => services.map_set m (fst result) (snd result))
           (fold_left (fun acc r => gorm.count_into (Status r) acc)
              (filter spec.liveb (gorm.table db)) [])
           [].
Proof.
  intros Hup. unfold services.GetDashboardSummary.
  unfold gorm.Count, gorm.Scan_float64, gorm.Group_status_COUNT, gorm.Find.
  rewrite !(exec_available db _ Hup). cbn [map_err bind].
  eexists. split; [reflexivity|]. repeat split.
Qed.

Lemma sorted_prefix_newer (l : list Transaction) (n : nat) (a b : Transaction) :
  StronglySorted spec.newer_first l ->
  In a (firstn n l) -> In b (skipn n l) -> CreatedAt b <= CreatedAt a.
Proof.
  intros Hs. revert n. induction Hs as [|x l Hl IH Hx]; intros n Ha Hb.
  - rewrite firstn_nil in Ha. contradiction.
  - destruct n as [|n]; [contradiction|]. cbn [firstn skipn] in Ha, Hb.
    destruct Ha as [<- | Ha]; [|eauto].
    rewrite Forall_forall in Hx. apply (Hx b). eapply In_skipn. exact Hb.
Qed.

(** X10.  On a reachable store the summary's [total_transactions] is the
    number of live rows, and [recent_transactions] holds the ten newest live
    rows (all of them when there are fewer), newest first: no live row left
    out is newer than one that is listed. *)
Theorem dashboard_counts_and_lists_live_rows :
  forall (db : gorm.DB) (now : time.Time),
    spec.available db ->
    exists (s : DashboardSummary.t) (rest : list Transaction),
      services.GetDashboardSummary db now = Ok s
      /\ DashboardSummary.TotalTransactions s
         = Z.of_nat (length (filter spec.liveb (gorm.table db)))
      /\ length (DashboardSummary.RecentTransactions s)
         = Nat.min 10 (length (filter spec.liveb (gorm.table db)))
      /\ StronglySorted spec.newer_first (DashboardSummary.RecentTransactions s)
      /\ Permutation (DashboardSummary.RecentTransactions s ++ rest)
           (filter spec.liveb (gorm.table db))
      /\ forall a b, In a (DashboardSummary.RecentTransactions s) -> In b rest ->
                     CreatedAt b <= CreatedAt a.
Proof.
  intros db now Hup.
  destruct (GetDashboardSummary_lists db now Hup) as (s & Hs & Htotal & Hrecent & _).
  set (live := filter spec.liveb (gorm.table db)) in *.
  exists s, (skipn 10 (gorm.sort_desc live)).
  split; [exact Hs|]. split; [exact Htotal|]. rewrite Hrecent.
  split; [|split; [|split]].
  - rewrite length_firstn, (Permutation_length (sort_desc_perm live)). reflexivity.
  - apply sorted_firstn, sort_desc_sorted.
  - rewrite firstn_skipn. apply sort_desc_perm.
  - intros a b. apply sorted_prefix_newer, sort_desc_sorted.
Qed.

Lemma dashboard_counts_and_lists_live_rows_witness :
  exists s : DashboardSummary.t,
    services.GetDashboardSummary
      (fst (services.DeleteTransaction fixtures.five fixtures.now 5)) fixtures.now
    = Ok s
    /\ DashboardSummary.TotalTransactions s = 4
    /\ length (DashboardSummary.RecentTransactions s) = 4%nat.
Proof.
  destruct (dashboard_counts_and_lists_live_rows
              (fst (services.DeleteTransaction fixtures.five fixtures.now 5))
              fixtures.now eq_refl)
    as (s & rest & Hs & Htotal & Hlen & _).
  exists s. split; [exact Hs|]. split; [rewrite Htotal | rewrite Hlen]; reflexivity.
Defined.

Lemma lookup_count_into (k s : string) (acc : list (string * Z)) :
  api.lookup k (gorm.count_into s acc)
  = if String.eqb s k
    then Some (match api.lookup k acc with Some n => n + 1 | None => 1 end)
    else api.lookup k acc.
Proof.
  induction acc as [|[k' n] acc IH]; cbn [gorm.count_into api.lookup].
  - rewrite (String.eqb_sym s k). destruct (String.eqb k s); reflexivity.
  - destruct (String.eqb_spec k' s) as [-> | Hks]; cbn [api.lookup].
    + destruct (String.eqb s k); reflexivity.
    + rewrite IH. destruct (String.eqb_spec k' k) as [-> | Hkk]; [|reflexivity].
      apply String.eqb_neq in Hks. rewrite String.eqb_sym, Hks. reflexivity.
Qed.

Lemma lookup_counts (k : string) (l : list Transaction) (acc : list (string * Z)) :
  let c := Z.of_nat (length (filter (fun r => String.eqb (Status r) k) l)) in
  api.lookup k (fold_left (fun acc r => gorm.count_into (Status r) acc) l acc)
  = match api.lookup k acc with
    | Some n => Some (n + c)
    | None => if c =? 0 then None else Some c
    end.
Proof.
  revert acc. induction l as [|r l IH]; intros acc; cbn [fold_left filter].
  - cbn. destruct (api.lookup k acc); [rewrite Z.add_0_r|]; reflexivity.
  - cbv zeta in IH |- *. rewrite IH, lookup_count_into.
    destruct (String.eqb (Status r) k); [|reflexivity].
    cbn [length]. rewrite Nat2Z.inj_succ.
    set (c := Z.of_nat (length (filter _ l))).
    assert (0 <= c) as Hc by apply Nat2Z.is_nonneg.
    destruct (api.lookup k acc) as [n|].
    + f_equal. lia.
    + assert ((Z.succ c =? 0) = false) as -> by (apply Z.eqb_neq; lia).
      f_equal. lia.
Qed.

Lemma count_into_keys (s : string) (acc : list (string * Z)) :
  NoDup (map fst acc) -> NoDup (map fst (gorm.count_into s acc)).
Proof.
  intros Hnd.
  assert (map fst (gorm.count_into s acc) = map fst acc
          \/ (~ In s (map fst acc)
              /\ map fst (gorm.count_into s acc) = map fst acc ++ [s])) as [-> | [Hs ->]].
  { clear Hnd. induction acc as [|[k n] acc IH]; cbn [gorm.count_into map fst].
    - right. split; [tauto | reflexivity].
    - destruct (String.eqb_spec k s) as [-> | Hks]; cbn [map fst]; [left; reflexivity|].
      destruct IH as [-> | [Hs ->]]; [left; reflexivity|].
      right. split; [|reflexivity]. intros [H | H]; [congruence | contradiction]. }
  - assumption.
  - apply NoDup_app; [assumption | repeat constructor; simpl; tauto|].
    intros a Ha [<- | []]. contradiction.
Qed.

Lemma counts_keys (l : list Transaction) (acc : list (string * Z)) :
  NoDup (map fst acc) ->
  NoDup (map fst (fold_left (fun acc r => gorm.count_into (Status r) acc) l acc)).
Proof.
  revert acc. induction l as [|r l IH]; intros acc Hnd; [assumption|].
  apply IH, count_into_keys, Hnd.
Qed.

Lemma map_set_fresh (m : list (string * Z)) (k : string) (v : Z) :
  ~ In k (map fst m) -> services.map_set m k v = m ++ [(k, v)].
Proof.
  induction m as [|[k' v'] m IH]; cbn [services.map_set map fst app]; [reflexivity|].
  intros Hk. destruct (String.eqb_spec k' k) as [-> | _]; [exfalso; apply Hk; left; reflexivity|].
  rewrite IH; [reflexivity|]. intros H. apply Hk. right. assumption.
Qed.

(** Filling a map from result rows with distinct keys keeps them all. *)
Lemma map_set_all (l m : list (string * Z)) :
  NoDup (map fst (m ++ l)) ->
  fold_left (fun m result => services.map_set m (fst result) (snd result)) l m = m ++ l.
Proof.
  revert m. induction l as [|[k v] l IH]; intros m Hnd; cbn [fold_left fst snd].
  - rewrite app_nil_r. reflexivity.
  - replace (m ++ (k, v) :: l) with ((m ++ [(k, v)]) ++ l) in *
      by (rewrite <- app_assoc; reflexivity).
    rewrite map_set_fresh; [apply IH; assumption|].
    rewrite map_app in Hnd. apply NoDup_app_remove_r in Hnd.
    rewrite map_app in Hnd. cbn [map fst] in Hnd.
    apply NoDup_remove_2 in Hnd. rewrite app_nil_r in Hnd. assumption.
Qed.

(** X11.  On a reachable store the summary's [status_distribution] has one
    key per status value present among the live rows, bound to the number of
    live rows with that status, and no other key. *)
Theorem dashboard_status_distribution_counts_live_rows :
  forall (db : gorm.DB) (now : time.Time),
    spec.available db ->
    exists s : DashboardSummary.t,
      services.GetDashboardSummary db now = Ok s
      /\ NoDup (map fst (DashboardSummary.StatusDistribution s))
      /\ forall k : string,
           api.lookup k (DashboardSummary.StatusDistribution s)
           = if (api.count_status k (gorm.table db) =? 0)%nat then None
             else Some (Z.of_nat (api.count_status k (gorm.table db))).
Proof.
  intros db now Hup.
  destruct (GetDashboardSummary_lists db now Hup) as (s & Hs & _ & _ & Hdist).
  exists s. split; [exact Hs|]. rewrite Hdist.
  set (live := filter spec.liveb (gorm.table db)).
  pose proof (counts_keys live [] (NoDup_nil _)) as Hkeys.
  rewrite map_set_all by exact Hkeys. cbn [app]. split; [exact Hkeys|].
  intros k. pose proof (lookup_counts k live []) as Hl. cbv zeta in Hl.
  rewrite Hl. cbn [api.lookup]. unfold api.count_status, live.
  rewrite filter_filter_and.
  set (n := length (filter _ (gorm.table db))).
  destruct n; reflexivity.
Qed.

Lemma dashboard_status_distribution_counts_live_rows_witness :
  exists s : DashboardSummary.t,
    services.GetDashboardSummary fixtures.five fixtures.now = Ok s
    /\ api.lookup "success" (DashboardSummary.StatusDistribution s) = Some 3
    /\ api.lookup "cancelled" (DashboardSummary.StatusDistribution s) = None.
Proof.
  destruct (dashboard_status_distribution_counts_live_rows fixtures.five fixtures.now
              eq_refl) as (s & Hs & _ & Hlookup).
  exists s. split; [exact Hs|]. split; rewrite Hlookup; reflexivity.
Defined.

(** ** Fetching through the handler *)

(** X12.  On a reachable, consistent store, GET with a path id that is a
    decimal numeral of at most [2^32 - 1] is answered 200 with the live
    record of that id, exactly as stored, and 404 [not_found] when no live
    record carries the id; in particular id 0 is always answered 404. *)
Theorem fetch_answers_the_live_record_or_404 :
  forall (db : gorm.DB) (idStr : string),
    spec.available db -> spec.consistent db -> spec.valid_id idStr = true ->
    (forall r, In r (gorm.table db) -> ID r = spec.decimal_value idStr ->
               DeletedAt r = None ->
               handlers.GetTransactionByID db idStr
               = {| StatusCode := 200; Body := JSON_Transaction r |})
    /\ ((forall r, In r (gorm.table db) -> ID r = spec.decimal_value idStr ->
                   DeletedAt r <> None) ->
        handlers.GetTransactionByID db idStr
        = SendError 404 "not_found" ["Transaction not found"])
    /\ (spec.decimal_value idStr = 0%N ->
        handlers.GetTransactionByID db idStr
        = SendError 404 "not_found" ["Transaction not found"]).
Proof.
  intros db idStr Hup Hwf Hvalid. unfold handlers.GetTransactionByID.
  rewrite (ParseUint_32_valid idStr Hvalid). unfold services.GetTransactionByID.
  assert ((forall r, In r (gorm.table db) -> ID r = spec.decimal_value idStr ->
                     DeletedAt r <> None) ->
          match map_err services.first_error
                  (gorm.First db (gorm.Model db) (spec.decimal_value idStr)) with
          | Ok transaction => {| StatusCode := http.StatusOK;
                                 Body := JSON_Transaction transaction |}
          | Err err => handlers.service_error err
          end = SendError 404 "not_found" ["Transaction not found"]) as Hmissing.
  { intros Hgone. rewrite (First_Model_missing db _ Hup Hgone). reflexivity. }
  split; [|split].
  - intros r Hin <- Hlive. rewrite (First_Model_found db r Hup Hwf Hin Hlive).
    reflexivity.
  - exact Hmissing.
  - intros Hzero. apply Hmissing. intros r Hin Hid.
    apply consistent_spec in Hwf as (_ & Hpos & _). specialize (Hpos r Hin). lia.
Qed.

Lemma fetch_answers_the_live_record_or_404_witness :
  handlers.GetTransactionByID fixtures.five "3"
  = {| StatusCode := 200;
       Body := JSON_Transaction
                 (fixtures.row 3 2 300 "success" (fixtures.today - spec.day)) |}
  /\ handlers.GetTransactionByID fixtures.five "0"
     = SendError 404 "not_found" ["Transaction not found"].
Proof.
  destruct (fetch_answers_the_live_record_or_404 fixtures.five "3"
              eq_refl eq_refl eq_refl) as (Hfound & _).
  destruct (fetch_answers_the_live_record_or_404 fixtures.five "0"
              eq_refl eq_refl eq_refl) as (_ & _ & Hzero).
  split.
  - apply Hfound; [simpl; tauto | reflexivity | reflexivity].
  - apply Hzero. reflexivity.
Defined.

Lemma leading_zero_same_id (s : string) :
  s <> "" ->
  spec.valid_id (String "0" s) = spec.valid_id s
  /\ spec.decimal_value (String "0" s) = spec.decimal_value s.
Proof.
  intros Hne. split; [|reflexivity].
  unfold spec.valid_id, spec.is_decimal.
  change (spec.decimal_value (String "0" s)) with (spec.decimal_value s).
  cbn [spec.all_digits]. change (spec.is_digit "0") with true.
  destruct s as [|c s]; [congruence | reflexivity].
Qed.

(** X13.  Path ids are read as numbers, not as keys: writing zeros in front
    of a non-empty id changes the answer of none of the three id-bearing
    handlers, nor what they do to the store. *)
Theorem leading_zeros_address_the_same_record :
  forall (db : gorm.DB) (now : time.Time) (idStr : string)
         (body : handlers.bound TransactionUpdateRequest.t),
    idStr <> "" ->
    handlers.GetTransactionByID db (String "0" idStr)
    = handlers.GetTransactionByID db idStr
    /\ handlers.UpdateTransaction db now (String "0" idStr) body
       = handlers.UpdateTransaction db now idStr body
    /\ handlers.DeleteTransaction db now (String "0" idStr)
       = handlers.DeleteTransaction db now idStr.
Proof.
  intros db now idStr body Hne.
  destruct (leading_zero_same_id idStr Hne) as [Hvalid Hvalue].
  unfold handlers.GetTransactionByID, handlers.UpdateTransaction,
    handlers.DeleteTransaction.
  destruct (spec.valid_id idStr) eqn:Hv.
  - rewrite (ParseUint_32_valid _ Hvalid), (ParseUint_32_valid _ Hv), Hvalue.
    repeat split.
  - destruct (ParseUint_32_invalid _ Hvalid) as [e ->].
    destruct (ParseUint_32_invalid _ Hv) as [e' ->].
    repeat split.
Qed.

Lemma leading_zeros_address_the_same_record_witness :
  handlers.GetTransactionByID fixtures.five "007"
  = handlers.GetTransactionByID fixtures.five "07".
Proof.
  apply (leading_zeros_address_the_same_record fixtures.five fixtures.now "07"
           (Err "")).
  discriminate.
Defined.

(** ** Loading the configuration *)

Lemma atoi_byte (c : ascii) :
  let ch := ((N_of_ascii c + 256 - 48) mod 256)%N in
  if spec.is_digit c
  then (9 <? ch)%N = false /\ ch = (N_of_ascii c - 48)%N
  else (9 <? ch)%N = true.
Proof.
  destruct c as [[] [] [] [] [] [] [] []]; vm_compute;
    first [reflexivity | split; reflexivity].
Qed.

Lemma value_from_bound (s : string) (n : N) :
  spec.all_digits s = true ->
  (spec.value_from n s < (n + 1) * 10 ^ N.of_nat (String.length s))%N.
Proof.
  revert n. induction s as [|c s IH]; intros n Hd;
    cbn [spec.value_from spec.all_digits String.length] in *.
  - change (N.of_nat 0) with 0%N. rewrite N.pow_0_r. lia.
  - apply andb_true_iff in Hd as [Hc Hs].
    pose proof (digit_cases c) as Hdc. rewrite Hc in Hdc. destruct Hdc as [_ Hlt].
    specialize (IH (10 * n + (N_of_ascii c - 48))%N Hs).
    rewrite Nat2N.inj_succ, N.pow_succ_r'.
    set (p := (10 ^ N.of_nat (String.length s))%N) in *. nia.
Qed.

Lemma int64_fits (z : Z) : - 2 ^ 63 <= z < 2 ^ 63 -> strconv.int64 z = z.
Proof. intros Hz. unfold strconv.int64. rewrite Z.mod_small; lia. Qed.

Lemma atoi_digits_value (s : string) (n : Z) :
  spec.all_digits s = true -> 0 <= n ->
  Z.of_N (spec.value_from (Z.to_N n) s) < 2 ^ 63 ->
  strconv.atoi_digits s n = Some (Z.of_N (spec.value_from (Z.to_N n) s)).
Proof.
  revert n. induction s as [|c s IH]; intros n Hd Hn Hv;
    cbn [spec.value_from spec.all_digits strconv.atoi_digits] in *.
  - rewrite Z2N.id by assumption. reflexivity.
  - apply andb_true_iff in Hd as [Hc Hs].
    pose proof (atoi_byte c) as Hb. cbv zeta in Hb. rewrite Hc in Hb.
    destruct Hb as [-> ->].
    pose proof (digit_cases c) as Hdc. rewrite Hc in Hdc. destruct Hdc as [_ Hlt].
    pose proof (value_from_ge 0 (N.le_0_l _) s
                  (10 * Z.to_N n + (N_of_ascii c - 48))%N) as Hge.
    rewrite int64_fits by lia.
    replace (10 * Z.to_N n + (N_of_ascii c - 48))%N
      with (Z.to_N (n * 10 + Z.of_N (N_of_ascii c - 48))) in * by lia.
    apply IH; [assumption | lia | assumption].
Qed.

Lemma atoi_digits_syntax (s : string) (n : Z) :
  spec.all_digits s = false -> strconv.atoi_digits s n = None.
Proof.
  revert n. induction s as [|c s IH]; intros n Hd;
    cbn [spec.all_digits strconv.atoi_digits] in *; [discriminate|].
  pose proof (atoi_byte c) as Hb. cbv zeta in Hb.
  destruct (spec.is_digit c); cbn [andb] in Hd.
  - destruct Hb as [-> _]. apply IH. assumption.
  - rewrite Hb. reflexivity.
Qed.

(** The digits of a short numeral, read by the fast path. *)
Lemma atoi_digits_short (s : string) :
  (String.length s < 19)%nat ->
  strconv.atoi_digits s 0
  = if spec.all_digits s then Some (Z.of_N (spec.decimal_value s)) else None.
Proof.
  intros Hlen. destruct (spec.all_digits s) eqn:Hd; [|apply atoi_digits_syntax, Hd].
  pose proof (value_from_bound s 0 Hd) as Hb.
  assert (10 ^ N.of_nat (String.length s) <= 10 ^ 18)%N as Hpow
      by (apply N.pow_le_mono_r; lia).
  change (10 ^ 18)%N with 1000000000000000000%N in Hpow.
  apply (atoi_digits_value s 0 Hd); [lia|].
  change (Z.to_N 0) with 0%N. change (2 ^ 63) with 9223372036854775808. lia.
Qed.

(** [Atoi] on a string of 1 to 18 bytes: the integer written, for decimal
    digits after an optional sign; a syntax error otherwise. *)
Lemma Atoi_short (s : string) :
  (0 < String.length s < 19)%nat ->
  strconv.Atoi s
  = if api.signed_decimal s then Ok (api.signed_value s) else Err strconv.ErrSyntax.
Proof.
  intros [Hpos Hlen]. unfold strconv.Atoi.
  assert (((0 <? String.length s) && (String.length s <? 19))%nat = true) as ->.
  { apply andb_true_iff. split; apply Nat.ltb_lt; assumption. }
  destruct s as [|c s]; [cbn in Hpos; lia|].
  cbn [String.length] in Hlen.
  unfold api.signed_decimal, api.signed_value, spec.is_decimal.
  assert (forall v : N, (v < 10 ^ 18)%N -> strconv.int64 (- Z.of_N v) = - Z.of_N v) as Hneg.
  { intros v Hv. change (10 ^ 18)%N with 1000000000000000000%N in Hv.
    apply int64_fits. change (2 ^ 63) with 9223372036854775808. lia. }
  destruct (Ascii.eqb_spec c "-") as [-> | Hminus];
    [|destruct (Ascii.eqb_spec c "+") as [-> | Hplus]]; cbn [orb].
  - destruct s as [|d s]; [reflexivity|].
    change (String.length (String d s) <? 1)%nat with false. cbv iota.
    change (negb (String d s =? "")%string) with true. cbn [andb].
    rewrite atoi_digits_short by (cbn [String.length] in *; lia).
    destruct (spec.all_digits (String d s)) eqn:Hd; [|reflexivity].
    f_equal. apply Hneg.
    pose proof (value_from_bound (String d s) 0 Hd) as Hb.
    assert (10 ^ N.of_nat (String.length (String d s)) <= 10 ^ 18)%N
      by (apply N.pow_le_mono_r; cbn [String.length] in *; lia).
    unfold spec.decimal_value. lia.
  - destruct s as [|d s]; [reflexivity|].
    change (String.length (String d s) <? 1)%nat with false. cbv iota.
    change (negb (String d s =? "")%string) with true. cbn [andb].
    rewrite atoi_digits_short by (cbn [String.length] in *; lia).
    destruct (spec.all_digits (String d s)); reflexivity.
  - change (String.length (String c s) <? 1)%nat with false. cbv iota.
    change (negb (String c s =? "")%string) with true. cbn [andb].
    rewrite atoi_digits_short by (cbn [String.length]; lia).
    destruct (spec.all_digits (String c s)); reflexivity.
Qed.

Lemma getEnv_not_empty (env : config.environment) (key defaultValue : string) :
  defaultValue <> "" -> config.getEnv env key defaultValue <> "".
Proof.
  intros Hd. unfold config.getEnv.
  destruct (String.eqb_spec (env key) ""); cbn [negb]; assumption.
Qed.

(** X14.  [LoadConfig] fails on nothing but the database port: with a
    [DB_PORT] of at most 18 bytes it succeeds exactly when the value (or
    the default 3306 when the variable is unset or empty) is a decimal
    numeral with an optional sign, and then takes that integer as the port
    without any range check; no string setting of the result is empty, an
    empty variable falling back to its default. *)
Theorem LoadConfig_fails_only_on_the_port :
  forall env : config.environment,
    (String.length (env "DB_PORT") < 19)%nat ->
    let port := config.getEnv env "DB_PORT" "3306" in
    (api.signed_decimal port = true ->
     exists c : config.Config,
       config.LoadConfig env = Ok c
       /\ config.DatabaseConfig.Port (config.Database c) = api.signed_value port
       /\ (env "DB_PORT" = "" ->
           config.DatabaseConfig.Port (config.Database c) = 3306)
       /\ config.DatabaseConfig.Host (config.Database c) <> ""
       /\ config.DatabaseConfig.User (config.Database c) <> ""
       /\ config.DatabaseConfig.Password (config.Database c) <> ""
       /\ config.DatabaseConfig.Name (config.Database c) <> ""
       /\ config.ServerConfig.Port (config.Server c) <> ""
       /\ config.ServerConfig.GinMode (config.Server c) <> ""
       /\ config.LogConfig.Level (config.Log c) <> ""
       /\ (env "DB_PASSWORD" = "" ->
           config.DatabaseConfig.Password (config.Database c) = "password"))
    /\ (api.signed_decimal port = false ->
        config.LoadConfig env = Err strconv.ErrSyntax).
Proof.
  intros env Hlen port.
  assert (0 < String.length port < 19)%nat as Hport.
  { subst port. unfold config.getEnv.
    destruct (String.eqb_spec (env "DB_PORT") "") as [He | Hne]; cbn [negb].
    - cbn. lia.
    - split; [|assumption]. destruct (env "DB_PORT"); [congruence | cbn; lia]. }
  unfold config.LoadConfig. fold port. rewrite (Atoi_short port Hport).
  split; intros Hs; rewrite Hs; [|reflexivity].
  cbn [bind]. eexists. split; [reflexivity|].
  cbn [config.Database config.Server config.Log config.DatabaseConfig.Port
       config.DatabaseConfig.Host config.DatabaseConfig.User
       config.DatabaseConfig.Password config.DatabaseConfig.Name
       config.ServerConfig.Port config.ServerConfig.GinMode config.LogConfig.Level].
  split; [reflexivity|]. split.
  { intros He. subst port. unfold config.getEnv. rewrite He. reflexivity. }
  repeat (split; [apply getEnv_not_empty; discriminate|]).
  intros He. unfold config.getEnv. rewrite He. reflexivity.
Qed.

Lemma LoadConfig_fails_only_on_the_port_witness :
  (exists c : config.Config,
     config.LoadConfig (fun key => if String.eqb key "DB_PORT" then "-1" else "") = Ok c
     /\ config.DatabaseConfig.Port (config.Database c) = -1)
  /\ config.LoadConfig (fun key => if String.eqb key "DB_PORT" then "33o6" else "")
     = Err strconv.ErrSyntax.
Proof.
  split.
  - destruct (proj1 (LoadConfig_fails_only_on_the_port
                       (fun key => if String.eqb key "DB_PORT" then "-1" else "")
                       ltac:(cbn; lia)) eq_refl)
      as (c & Hc & Hp & _).
    exists c. split; [exact Hc | exact Hp].
  - apply (proj2 (LoadConfig_fails_only_on_the_port
                    (fun key => if String.eqb key "DB_PORT" then "33o6" else "")
                    ltac:(cbn; lia))).
    reflexivity.
Defined.

(** ** Creation order *)

Lemma after_calls_consistent (cs : list (time.Time * spec.call)) (db : gorm.DB) :
  spec.available db -> spec.consistent db ->
  spec.available (spec.after_calls db cs) /\ spec.consistent (spec.after_calls db cs)
  /\ (gorm.auto_increment db <= gorm.auto_increment (spec.after_calls db cs))%N.
Proof.
  revert db. induction cs as [|c cs IH]; intros db Hup Hwf.
  - repeat split; auto. cbn. lia.
  - destruct (after_call_consistent db c Hup Hwf) as [Hup' Hwf'].
    destruct (after_call_keeps_rows db c Hup Hwf) as [Hai _].
    destruct (IH _ Hup' Hwf') as (H1 & H2 & H3).
    cbn [spec.after_calls fold_left]. fold (spec.after_calls (spec.after_call db c) cs).
    repeat split; auto. lia.
Qed.

(** X15.  Ids grow with creation order and are never reused: on a
    reachable, consistent store a create gets an id above every id in the
    table, and a create made after any further service calls, deletes
    included, gets a strictly larger one. *)
Theorem ids_grow_in_creation_order :
  forall (db : gorm.DB) (now1 now2 : time.Time) (req1 req2 : TransactionRequest.t)
         (cs : list (time.Time * spec.call)),
    spec.available db -> spec.consistent db ->
    exists (t1 t2 : Transaction) (db1 db2 : gorm.DB),
      services.CreateTransaction db now1 req1 = (db1, Ok t1)
      /\ services.CreateTransaction (spec.after_calls db1 cs) now2 req2 = (db2, Ok t2)
      /\ (ID t1 < ID t2)%N
      /\ forall r, In r (gorm.table db) -> (ID r < ID t1)%N.
Proof.
  intros db now1 now2 req1 req2 cs Hup Hwf.
  pose proof (CreateTransaction_available db now1 req1 Hup Hwf) as H1. cbv zeta in H1.
  set (db1 := {| gorm.table := _; gorm.auto_increment := _; gorm.broken := None |}) in H1.
  assert (spec.consistent db1) as Hwf1.
  { pose proof (consistent_append db
                  {| ID := gorm.auto_increment db;
                     UserID := TransactionRequest.UserID req1;
                     Amount := TransactionRequest.Amount req1;
                     Status := StatusPending;
                     CreatedAt := now1; UpdatedAt := now1; DeletedAt := None |}
                  None Hwf eq_refl) as H.
    cbn [ID] in H.
    replace (N.max (gorm.auto_increment db) (gorm.auto_increment db + 1))
      with (gorm.auto_increment db + 1)%N in H by lia.
    exact H. }
  destruct (after_calls_consistent cs db1 eq_refl Hwf1) as (Hup2 & Hwf2 & Hai).
  pose proof (CreateTransaction_available (spec.after_calls db1 cs) now2 req2 Hup2 Hwf2)
    as H2. cbv zeta in H2.
  do 4 eexists. split; [exact H1|]. split; [exact H2|].
  cbn [ID]. split.
  - assert (gorm.auto_increment db1 = gorm.auto_increment db + 1)%N as Hdb1
        by reflexivity.
    lia.
  - intros r Hr. apply consistent_spec in Hwf as (_ & Hlt & _).
    specialize (Hlt r Hr). lia.
Qed.

Lemma ids_grow_in_creation_order_witness :
  exists (t1 t2 : Transaction) (db1 db2 : gorm.DB),
    services.CreateTransaction fixtures.five 10 (TransactionRequest.mk 1 (1 # 1))
    = (db1, Ok t1)
    /\ services.CreateTransaction
         (spec.after_calls db1 [ (11, spec.CallDelete 6); (12, spec.CallDelete 5) ])
         13 (TransactionRequest.mk 1 (1 # 1))
       = (db2, Ok t2)
    /\ (ID t1 < ID t2)%N.
Proof.
  destruct (ids_grow_in_creation_order fixtures.five 10 13
              (TransactionRequest.mk 1 (1 # 1)) (TransactionRequest.mk 1 (1 # 1))
              [ (11, spec.CallDelete 6); (12, spec.CallDelete 5) ] eq_refl eq_refl)
    as (t1 & t2 & db1 & db2 & H1 & H2 & Hlt & _).
  exists t1, t2, db1, db2. auto.
Defined.

Lemma sort_desc_newest_last (l : list Transaction) (t : Transaction) :
  (forall x, In x l -> CreatedAt x < CreatedAt t) ->
  gorm.sort_desc (l ++ [t]) = t :: gorm.sort_desc l.
Proof.
  unfold gorm.sort_desc. rewrite fold_right_app. cbn [fold_right gorm.insert_desc].
  induction l as [|x l IH]; intros Hnew; [reflexivity|].
  cbn [fold_right]. rewrite IH by (intros y Hy; apply Hnew; right; assumption).
  cbn [gorm.insert_desc].
  assert ((CreatedAt t <=? CreatedAt x) = false) as ->; [|reflexivity].
  apply Z.leb_gt. apply Hnew. left. reflexivity.
Qed.

(** X16.  A record just created heads the first page of every list query
    it matches, and raises that query's total by one, provided it is created
    later than every row the store holds. *)
Theorem created_record_heads_the_list :
  forall (db : gorm.DB) (now : time.Time) (req : TransactionRequest.t)
         (query : TransactionQuery.t),
    spec.available db -> spec.consistent db ->
    (forall r, In r (gorm.table db) -> CreatedAt r < now) ->
    TransactionQuery.UserID query = 0%N
    \/ TransactionQuery.UserID query = TransactionRequest.UserID req ->
    TransactionQuery.Status query = "" \/ TransactionQuery.Status query = "pending" ->
    TransactionQuery.Page query <= 1 ->
    exists (db' : gorm.DB) (t : Transaction) (before after : TransactionResponse.t)
           (rest : list Transaction),
      services.GetTransactions db query = Ok before
      /\ services.CreateTransaction db now req = (db', Ok t)
      /\ services.GetTransactions db' query = Ok after
      /\ TransactionResponse.Data after = t :: rest
      /\ TransactionResponse.Total after = TransactionResponse.Total before + 1.
Proof.
  intros db now req query Hup Hwf Hnew Huser Hstatus Hpage.
  pose proof (CreateTransaction_available db now req Hup Hwf) as Hcreate.
  cbv zeta in Hcreate.
  set (t := {| ID := gorm.auto_increment db; UserID := _; Amount := _;
               Status := StatusPending; CreatedAt := now; UpdatedAt := now;
               DeletedAt := None |}) in Hcreate.
  set (db' := {| gorm.table := _; gorm.auto_increment := _; gorm.broken := None |})
    in Hcreate.
  set (limit := if TransactionQuery.Limit query <=? 0 then 10
                else TransactionQuery.Limit query).
  assert (0 < limit) as Hlimit.
  { subst limit. destruct (Z.leb_spec (TransactionQuery.Limit query) 0); lia. }
  assert ((if TransactionQuery.Page query <=? 0 then 1 else TransactionQuery.Page query)
          = 1) as Hp1.
  { destruct (Z.leb_spec (TransactionQuery.Page query) 0); lia. }
  assert (spec.matches query t = true) as Hmatch.
  { unfold spec.matches, spec.liveb, t. cbn [DeletedAt UserID Status].
    destruct Huser as [-> | ->], Hstatus as [-> | ->];
      rewrite ?N.eqb_refl, ?orb_true_r; reflexivity. }
  destruct (GetTransactions_page db query Hup) as (before & Hb & _ & _ & Htb & _).
  { rewrite Hp1. fold limit. lia. }
  destruct (GetTransactions_page db' query eq_refl)
    as (after & Ha & _ & _ & Hta & Hda & _).
  { rewrite Hp1. fold limit. lia. }
  exists db', t, before, after.
  rewrite Hp1 in Hda. fold limit in Hda. change ((1 - 1) * limit) with 0 in Hda.
  unfold db' in Hda, Hta. cbn [gorm.table] in Hda, Hta.
  rewrite filter_app in Hda, Hta. cbn [filter] in Hda, Hta.
  rewrite Hmatch in Hda, Hta.
  rewrite sort_desc_newest_last in Hda.
  2:{ intros x Hx. apply filter_In in Hx as [Hx _]. apply (Hnew x Hx). }
  cbn [Z.to_nat skipn] in Hda.
  destruct (Z.to_nat limit) as [|n] eqn:Hn; [lia|]. cbn [firstn] in Hda.
  eexists. split; [exact Hb|]. split; [exact Hcreate|]. split; [exact Ha|].
  split; [exact Hda|].
  rewrite Hta, Htb, length_app. cbn [length]. lia.
Qed.

Lemma created_record_heads_the_list_witness :
  exists (db' : gorm.DB) (t : Transaction) (after : TransactionResponse.t)
         (rest : list Transaction),
    services.CreateTransaction fixtures.five (fixtures.now + 1)
      (TransactionRequest.mk 2 (9 # 1)) = (db', Ok t)
    /\ services.GetTransactions db' (TransactionQuery.mk 2 "" 2 0 1) = Ok after
    /\ TransactionResponse.Data after = t :: rest.
Proof.
  destruct (created_record_heads_the_list fixtures.five (fixtures.now + 1)
              (TransactionRequest.mk 2 (9 # 1)) (TransactionQuery.mk 2 "" 2 0 1)
              eq_refl eq_refl)
    as (db' & t & before & after & rest & _ & Hc & Ha & Hd & _).
  - intros r Hr. simpl in Hr. decompose [or] Hr; subst; try contradiction;
      vm_compute; reflexivity.
  - right. reflexivity.
  - left. reflexivity.
  - discriminate.
  - exists db', t, after, rest. auto.
Defined.

(** ** Updates and the summary *)

Lemma sum_amount_filter_cons (p : Transaction -> bool) (x : Transaction)
  (l : list Transaction) :
  (spec.sum_amount (filter p (x :: l))
   == (if p x then Amount x else 0) + spec.sum_amount (filter p l))%Q.
Proof.
  cbn [filter]. destruct (p x); cbn [spec.sum_amount fold_right];
    [reflexivity | rewrite Qplus_0_l; reflexivity].
Qed.

(** Rewriting the row of one id moves its share of the sum of successes. *)
Lemma success_sum_after_rewrite (l : list Transaction) (old new : Transaction) :
  NoDup (map ID l) -> In old l ->
  let g := fun r => if (ID r =? ID old)%N then new else r in
  let share := fun r => if spec.is_success r then Amount r else 0%Q in
  (spec.sum_amount (filter spec.is_success (map g l)) + share old
   == spec.sum_amount (filter spec.is_success l) + share new)%Q.
Proof.
  intros Hnd Hin g share. subst share. cbv beta.
  induction l as [|x l IH]; [contradiction|].
  cbn [map] in Hnd. inversion Hnd as [|? ? Hx Hl]; subst.
  cbn [map]. rewrite !sum_amount_filter_cons. destruct Hin as [-> | Hin].
  - assert (g old = new) as -> by (unfold g; rewrite N.eqb_refl; reflexivity).
    rewrite (map_ext_in g (fun r => r)), map_id; [ring|].
    intros r Hr. unfold g. destruct (N.eqb_spec (ID r) (ID old)) as [Heq | _]; [|reflexivity].
    exfalso. apply Hx. rewrite <- Heq. apply in_map. assumption.
  - assert (g x = x) as ->.
    { unfold g. destruct (N.eqb_spec (ID x) (ID old)) as [Heq | _]; [|reflexivity].
      exfalso. apply Hx. rewrite Heq. apply in_map. assumption. }
    specialize (IH Hl Hin).
    rewrite <- Qplus_assoc, IH. ring.
Qed.

Lemma live_count_after_rewrite (l : list Transaction) (g : Transaction -> Transaction) :
  (forall r, In r l -> spec.liveb (g r) = spec.liveb r) ->
  length (filter spec.liveb (map g l)) = length (filter spec.liveb l).
Proof.
  induction l as [|x l IH]; intros Hg; [reflexivity|].
  cbn [map filter]. rewrite (Hg x (or_introl eq_refl)).
  assert (length (filter spec.liveb (map g l)) = length (filter spec.liveb l)) as Hl
      by (apply IH; intros r Hr; apply Hg; right; assumption).
  destruct (spec.liveb x); cbn [length]; rewrite Hl; reflexivity.
Qed.

Lemma sum_amount_map (l : list Transaction) :
  spec.sum_amount l = fold_right Qplus 0%Q (map Amount l).
Proof.
  induction l as [|r l IH]; [reflexivity|].
  cbn [spec.sum_amount fold_right map]. fold (spec.sum_amount l).
  rewrite IH. reflexivity.
Qed.

(** Whether a sum is exact depends on the amounts only. *)
Lemma exact_sum_amounts (k : Z) (l1 l2 : list Transaction) :
  map Amount l1 = map Amount l2 -> spec.exact_sum k l1 = spec.exact_sum k l2.
Proof.
  intros H. unfold spec.exact_sum. rewrite !sum_amount_map, H. f_equal.
  revert l2 H.
  induction l1 as [|a l1 IH]; intros [|b l2] H; try discriminate; [reflexivity|].
  cbn [map] in H. injection H as Hab Hl. cbn [forallb]. rewrite Hab.
  f_equal. apply IH. exact Hl.
Qed.

Lemma sub_sum_scaled (K : Q) (p : Transaction -> bool) (l : list Transaction) :
  (forall r, In r l -> exists n : Z, 0 <= n /\ (Amount r * K == inject_Z n)%Q) ->
  exists a b : Z,
    0 <= a <= b
    /\ (spec.sum_amount (filter p l) * K == inject_Z a)%Q
    /\ (spec.sum_amount l * K == inject_Z b)%Q.
Proof.
  induction l as [|x l IH]; intros H.
  - exists 0, 0. split; [lia|]. split; cbn; ring.
  - destruct (H x (or_introl eq_refl)) as (n & Hn & Hx).
    destruct (IH (fun y Hy => H y (or_intror Hy))) as (a & b & Hab & Ha & Hb).
    assert ((spec.sum_amount (x :: l) * K == inject_Z (n + b))%Q) as Hxb.
    { cbn [spec.sum_amount fold_right]. fold (spec.sum_amount l).
      rewrite inject_Z_plus, <- Hx, <- Hb. ring. }
    cbn [filter]. destruct (p x).
    + exists (n + a), (n + b). split; [lia|]. split; [|exact Hxb].
      cbn [spec.sum_amount fold_right]. fold (spec.sum_amount (filter p l)).
      rewrite inject_Z_plus, <- Hx, <- Ha. ring.
    + exists a, (n + b). split; [lia|]. split; [exact Ha | exact Hxb].
Qed.

(** A part of an exact sum is exact. *)
Lemma exact_sum_filter (k : Z) (p : Transaction -> bool) (l : list Transaction) :
  spec.exact_sum k l = true -> spec.exact_sum k (filter p l) = true.
Proof.
  intros H. pose proof (exact_sum_spec k l H) as (Hk & Hall & n & Hn & Hs).
  unfold spec.exact_sum in *. apply andb_true_iff in H as [Hfits _].
  rewrite forallb_forall in Hfits.
  apply andb_true_iff. split.
  - apply forallb_forall. intros r Hr. apply filter_In in Hr as [Hr _].
    apply Hfits. exact Hr.
  - destruct (sub_sum_scaled (inject_Z (2 ^ k)) p l Hall) as (a & b & Hab & Ha & Hb).
    assert (b = n) as ->.
    { apply inject_Z_injective. rewrite <- Hb, <- Hs. reflexivity. }
    apply (fits_intro k a); [exact Hk | lia | exact Ha].
Qed.

Lemma live_amounts_after_rewrite (l : list Transaction)
  (g : Transaction -> Transaction) :
  (forall r, In r l -> spec.liveb (g r) = spec.liveb r /\ Amount (g r) = Amount r) ->
  map Amount (filter spec.liveb (map g l)) = map Amount (filter spec.liveb l).
Proof.
  induction l as [|x l IH]; intros Hg; [reflexivity|].
  cbn [map filter]. destruct (Hg x (or_introl eq_refl)) as [-> Hx].
  assert (map Amount (filter spec.liveb (map g l))
          = map Amount (filter spec.liveb l)) as Hl
      by (apply IH; intros r Hr; apply Hg; right; assumption).
  destruct (spec.liveb x); cbn [map]; rewrite Hl, ?Hx; reflexivity.
Qed.

Lemma success_of_live (l : list Transaction) :
  filter spec.is_success l
  = filter (fun r => String.eqb (Status r) "success") (filter spec.liveb l).
Proof. rewrite filter_filter_and. reflexivity. Qed.

(** X17.  An update shows in the summary as the move of one amount: on a
    reachable, consistent store whose live amounts add up without rounding
    in float64 (non-negative multiples of one [2^-k], [0 <= k <= 1074], with
    a sum below [2^(53-k)]), after updating a live record the [total_amount]
    has lost the record's amount if its old status was [success] and gained
    it if its new status is [success], and [total_transactions] is the
    same. *)
Theorem update_moves_the_amount_in_the_summary :
  forall (db : gorm.DB) (now at_ : time.Time) (old : Transaction)
         (req : TransactionUpdateRequest.t) (k : Z),
    spec.available db -> spec.consistent db ->
    In old (gorm.table db) -> DeletedAt old = None ->
    spec.exact_sum k (filter spec.liveb (gorm.table db)) = true ->
    exists (db' : gorm.DB) (new : Transaction) (s s' : DashboardSummary.t)
           (q q' : Q),
      services.UpdateTransaction db now (ID old) req = (db', Ok new)
      /\ services.GetDashboardSummary db at_ = Ok s
      /\ services.GetDashboardSummary db' at_ = Ok s'
      /\ DashboardSummary.TotalAmount s = binary64.Finite q
      /\ DashboardSummary.TotalAmount s' = binary64.Finite q'
      /\ (q' + (if String.eqb (Status old) "success" then Amount old else 0)
          == q + (if String.eqb (TransactionUpdateRequest.Status req) "success"
                  then Amount old else 0))%Q
      /\ DashboardSummary.TotalTransactions s' = DashboardSummary.TotalTransactions s.
Proof.
  intros db now at_ old req k Hup Hwf Hin Hlive Hexact.
  pose proof (UpdateTransaction_found db now req old Hup Hwf Hin Hlive) as Hupd.
  cbv zeta in Hupd.
  set (new := spec.updated_at now (TransactionUpdateRequest.Status req) old) in *.
  set (db' := {| gorm.table := _; gorm.auto_increment := _; gorm.broken := None |}) in *.
  destruct (GetDashboardSummary_available db at_ Hup)
    as (s & Hs & _ & Htotal & _ & Hamount & _).
  destruct (GetDashboardSummary_available db' at_ eq_refl)
    as (s' & Hs' & _ & Htotal' & _ & Hamount' & _).
  pose proof Hwf as Hwf0. apply consistent_spec in Hwf0 as (Hnd & _).
  assert (forall r, In r (gorm.table db) ->
            (if (ID r =? ID old)%N then new else r) = new /\ r = old
            \/ (if (ID r =? ID old)%N then new else r) = r) as Hg.
  { intros r Hr. destruct (N.eqb_spec (ID r) (ID old)) as [Heq | _]; [left | right; reflexivity].
    split; [reflexivity | apply (NoDup_ID_eq _ r old Hnd Hr Hin Heq)]. }
  assert (spec.exact_sum k (filter spec.liveb (gorm.table db')) = true) as Hexact'.
  { rewrite <- Hexact. apply exact_sum_amounts. unfold db'. cbn [gorm.table].
    apply live_amounts_after_rewrite. intros r Hr.
    destruct (Hg r Hr) as [[-> ->] | ->]; split; reflexivity. }
  pose proof (scanned_SUM_exact k (filter spec.is_success (gorm.table db))) as Hq.
  rewrite success_of_live in Hq at 1.
  specialize (Hq (exact_sum_filter k _ _ Hexact)).
  pose proof (scanned_SUM_exact k (filter spec.is_success (gorm.table db'))) as Hq'.
  rewrite success_of_live in Hq' at 1.
  specialize (Hq' (exact_sum_filter k _ _ Hexact')).
  rewrite <- Hamount in Hq. rewrite <- Hamount' in Hq'.
  apply exactly_finite in Hq as (q & Hsq & Hq).
  apply exactly_finite in Hq' as (q' & Hsq' & Hq').
  exists db', new, s, s', q, q'. repeat (split; [assumption|]). split.
  - rewrite Hq, Hq'.
    pose proof (success_sum_after_rewrite (gorm.table db) old new Hnd Hin) as H.
    cbv zeta in H. unfold spec.is_success at 2 4, spec.liveb in H.
    cbn [new spec.updated_at DeletedAt Status Amount] in H.
    rewrite Hlive in H. cbn [andb] in H. exact H.
  - rewrite Htotal, Htotal'. f_equal. unfold db'. cbn [gorm.table].
    apply live_count_after_rewrite. intros r Hr.
    destruct (Hg r Hr) as [[-> ->] | ->]; reflexivity.
Qed.

Lemma update_moves_the_amount_in_the_summary_witness :
  exists (db' : gorm.DB) (s' : DashboardSummary.t),
    fst (services.UpdateTransaction fixtures.five fixtures.now 4
           (TransactionUpdateRequest.mk "success")) = db'
    /\ services.GetDashboardSummary db' fixtures.now = Ok s'
    /\ binary64.exactly (DashboardSummary.TotalAmount s') 1000.
Proof.
  destruct (update_moves_the_amount_in_the_summary fixtures.five fixtures.now
              fixtures.now
              (fixtures.row 4 2 400 "pending" (fixtures.today + 3 * time.Hour))
              (TransactionUpdateRequest.mk "success") 0 eq_refl eq_refl
              ltac:(simpl; tauto) eq_refl eq_refl)
    as (db' & new & s & s' & q & q' & Hupd & Hs & Hs' & Hq & Hq' & Hamount & _).
  exists db', s'. split; [cbn [ID fixtures.row] in Hupd; rewrite Hupd; reflexivity|].
  split; [exact Hs'|].
  cbn [Status Amount fixtures.row TransactionUpdateRequest.Status String.eqb] in Hamount.
  vm_compute in Hs. injection Hs as <-.
  cbn [DashboardSummary.TotalAmount] in Hq. injection Hq as <-.
  change (("pending" =? "success")%string) with false in Hamount.
  change (("success" =? "success")%string) with true in Hamount.
  cbv iota in Hamount. rewrite Qplus_0_r in Hamount.
  rewrite Hq'. cbn [binary64.exactly]. rewrite Hamount. reflexivity.
Defined.
